(** * Asynchronous task orchestrator of the stock-analysis WebUI

    A shallow embedding of [web/services.py] (class [AnalysisService]),
    [web/handlers.py] (class [ApiHandler]) and [src/core/market_review.py]
    ([run_market_review]), followed by the properties of the task registry,
    the two job runners and the two request handlers.

    Conventions of the embedding:
    - a Python [str] is a [string] of bytes (UTF-8); the helpers that look
      at characters ([strip], [lower], [upper], [int], the regular
      expressions) are written for the ASCII range, where a byte is a
      character;
    - the task map [self._tasks] is an insertion-ordered dictionary, an
      association list with unique keys in insertion order;
    - every [with self._tasks_lock:] block is one atomic [Action] on the map;
      a job is the sequence of events (actions and collaborator calls) that
      its body performs, and the worker pool interleaves the jobs' events;
    - the collaborators (data pipeline, notifier, market analyzer, clock) are
      oracles: records that say what each call returns or raises. *)

From Stdlib Require Import List String Ascii ZArith Lia Bool Sorted.
Import ListNotations.

Local Open Scope string_scope.
Local Open Scope list_scope.

Infix "+++" := String.append (right associativity, at level 60).

(* ================================================================== *)
(** * Definitions *)
(* ================================================================== *)

(** ** Python built-ins used by the code *)

Module Py.

(** [str.isspace] on ASCII: TAB..CR, FS..US and the space. *)
Definition is_space (c : ascii) : bool :=
  let n := nat_of_ascii c in
  ((9 <=? n)%nat && (n <=? 13)%nat) || ((28 <=? n)%nat && (n <=? 32)%nat).

Definition is_digit (c : ascii) : bool :=
  let n := nat_of_ascii c in (48 <=? n)%nat && (n <=? 57)%nat.

Definition is_upper (c : ascii) : bool :=
  let n := nat_of_ascii c in (65 <=? n)%nat && (n <=? 90)%nat.

Definition is_lower (c : ascii) : bool :=
  let n := nat_of_ascii c in (97 <=? n)%nat && (n <=? 122)%nat.

Definition to_lower (c : ascii) : ascii :=
  if is_upper c then ascii_of_nat (nat_of_ascii c + 32) else c.

Definition to_upper (c : ascii) : ascii :=
  if is_lower c then ascii_of_nat (nat_of_ascii c - 32) else c.

Fixpoint map_chars (f : ascii -> ascii) (s : string) : string :=
  match s with
  | EmptyString => EmptyString
  | String c s' => String (f c) (map_chars f s')
  end.

(** [s.lower()] and [s.upper()]. *)
Definition lower : string -> string := map_chars to_lower.
Definition upper : string -> string := map_chars to_upper.

Fixpoint lstrip (s : string) : string :=
  match s with
  | EmptyString => EmptyString
  | String c s' => if is_space c then lstrip s' else s
  end.

Fixpoint rstrip (s : string) : string :=
  match s with
  | EmptyString => EmptyString
  | String c s' =>
      match rstrip s' with
      | EmptyString => if is_space c then EmptyString else String c EmptyString
      | r => String c r
      end
  end.

(** [s.strip()]. *)
Definition strip (s : string) : string := rstrip (lstrip s).

(** Truth value of a string: [bool(s)]. *)
Definition truthy (s : string) : bool :=
  match s with EmptyString => false | _ => true end.

(** Truth value of an optional string: [None] and [""] are false. *)
Definition truthy_opt (o : option string) : bool :=
  match o with None => false | Some s => truthy s end.

(** [str(x)] of an optional string, as an f-string prints it. *)
Definition str_opt (o : option string) : string :=
  match o with None => "None" | Some s => s end.

Definition digit_val (c : ascii) : Z := Z.of_nat (nat_of_ascii c - 48).

(** Digits of a decimal literal; single underscores may separate digits. *)
Fixpoint int_digits (s : string) (acc : Z) (after_digit : bool) : option Z :=
  match s with
  | EmptyString => if after_digit then Some acc else None
  | String c s' =>
      if is_digit c then int_digits s' (10 * acc + digit_val c) true
      else if Ascii.eqb c "_"
           then (if after_digit then int_digits s' acc false else None)
           else None
  end.

(** [int(s)] in base ten: [None] stands for [ValueError]. *)
Definition int (s : string) : option Z :=
  match strip s with
  | String "-" r => option_map Z.opp (int_digits r 0 false)
  | String "+" r => int_digits r 0 false
  | r => int_digits r 0 false
  end.

(** [l[:stop]]: a negative [stop] counts from the end. *)
Definition slice_to {A} (stop : Z) (l : list A) : list A :=
  if (stop <? 0)%Z
  then firstn (List.length l - Z.to_nat (- stop)) l
  else firstn (Z.to_nat stop) l.

(** [l[start:]]: a negative [start] counts from the end. *)
Definition slice_from {A} (start : Z) (l : list A) : list A :=
  if (start <? 0)%Z
  then skipn (List.length l - Z.to_nat (- start)) l
  else skipn (Z.to_nat start) l.

(** [sorted(l, key=key, reverse=True)] on string keys.  Python's sort is
    stable, also with [reverse=True]: elements with equal keys keep their
    order.  The stable descending sort of a list is unique, so it is
    written here as an insertion from the right. *)
Section SortDesc.
Context {A : Type} (key : A -> string).

Fixpoint insert_desc (x : A) (l : list A) : list A :=
  match l with
  | [] => [x]
  | y :: l' =>
      if String.ltb (key x) (key y) then y :: insert_desc x l' else x :: l
  end.

Definition sort_desc (l : list A) : list A :=
  fold_right insert_desc [] l.
End SortDesc.

(** The [$] of [re]: the end of the string, or just before a final
    newline. *)
Definition re_end (s : string) : bool :=
  match s with
  | EmptyString => true
  | String c EmptyString => Ascii.eqb c "010"
  | _ => false
  end.

(** [\d{n}] and then the rest of the pattern, [k]. *)
Fixpoint re_digits (n : nat) (k : string -> bool) (s : string) : bool :=
  match n with
  | O => k s
  | S n' =>
      match s with
      | String c s' => is_digit c && re_digits n' k s'
      | EmptyString => false
      end
  end.

(** A literal prefix and then the rest of the pattern. *)
Fixpoint re_lit (p : string) (k : string -> bool) (s : string) : bool :=
  match p with
  | EmptyString => k s
  | String c p' =>
      match s with
      | String d s' => Ascii.eqb c d && re_lit p' k s'
      | EmptyString => false
      end
  end.

(** [[A-Z]{0,n}] and then [k]; the greedy choice is tried first and the
    shorter ones after it, as the backtracking matcher does. *)
Fixpoint re_upper_upto (n : nat) (k : string -> bool) (s : string) : bool :=
  match n with
  | O => k s
  | S n' =>
      match s with
      | String c s' => (is_upper c && re_upper_upto n' k s') || k s
      | EmptyString => k s
      end
  end.

(** [(\.[A-Z])?] and then [k]. *)
Definition re_opt_dot_upper (k : string -> bool) (s : string) : bool :=
  match s with
  | String "." (String c s') => (is_upper c && k s') || k s
  | _ => k s
  end.

End Py.

(** ** Insertion-ordered dictionaries with string keys *)

Section Dict.
Context {V : Type}.

Definition Dict := list (string * V).

(** [d.get(k)]. *)
Fixpoint dict_get (k : string) (d : Dict) : option V :=
  match d with
  | [] => None
  | (k', v) :: d' => if String.eqb k' k then Some v else dict_get k d'
  end.

(** [d[k] = v]: an existing key keeps its place, a new key goes last. *)
Fixpoint dict_set (k : string) (v : V) (d : Dict) : Dict :=
  match d with
  | [] => [(k, v)]
  | (k', v') :: d' =>
      if String.eqb k' k then (k, v) :: d' else (k', v') :: dict_set k v d'
  end.

Definition dict_keys (d : Dict) : list string := map fst d.

(** [d.values()], in insertion order. *)
Definition dict_values (d : Dict) : list V := map snd d.
End Dict.

Arguments Dict V : clear implicits.

(** ** Data model: the task records of [AnalysisService._tasks] *)

(** A value of a result payload ([result.to_dict()] and the report keys
    added to it). *)
Inductive PyVal :=
| PyNone
| PyStr (s : string)
| PyInt (z : Z).

(** [result_data]: the dictionary stored under the key ["result"]. *)
Definition ResultData := Dict PyVal.

(** One entry of a task's ["logs"] list: [{"ts", "level", "msg"}]. *)
Record LogEntry := {
  ts : string;
  level : string;
  msg : string
}.

(** The dictionary that a job stores in [self._tasks[task_id]].  The keys
    ["kind"] and ["end_time"] are absent from some records; ["result"] and
    ["error"] are present and may hold [None]. *)
Record TaskRecord := {
  task_id : string;
  code : string;
  kind : option string;
  status : string;
  start_time : string;
  end_time : option string;
  result : option ResultData;
  error : option string;
  report_type : string;
  send_notification : bool;
  stage : string;
  progress : Z;
  logs : list LogEntry
}.

Definition Store := Dict TaskRecord.

Definition set_logs (t : TaskRecord) (l : list LogEntry) : TaskRecord :=
  {| task_id := task_id t; code := code t; kind := kind t; status := status t;
     start_time := start_time t; end_time := end_time t; result := result t;
     error := error t; report_type := report_type t;
     send_notification := send_notification t; stage := stage t;
     progress := progress t; logs := l |}.

Definition set_stage (t : TaskRecord) (s : string) : TaskRecord :=
  {| task_id := task_id t; code := code t; kind := kind t; status := status t;
     start_time := start_time t; end_time := end_time t; result := result t;
     error := error t; report_type := report_type t;
     send_notification := send_notification t; stage := s;
     progress := progress t; logs := logs t |}.

Definition set_progress (t : TaskRecord) (p : Z) : TaskRecord :=
  {| task_id := task_id t; code := code t; kind := kind t; status := status t;
     start_time := start_time t; end_time := end_time t; result := result t;
     error := error t; report_type := report_type t;
     send_notification := send_notification t; stage := stage t;
     progress := p; logs := logs t |}.

Definition set_result (t : TaskRecord) (r : option ResultData) : TaskRecord :=
  {| task_id := task_id t; code := code t; kind := kind t; status := status t;
     start_time := start_time t; end_time := end_time t; result := r;
     error := error t; report_type := report_type t;
     send_notification := send_notification t; stage := stage t;
     progress := progress t; logs := logs t |}.

(** The argument of [task.update({...})]: the keys that the call carries.
    Every such call of the service carries ["status"] and ["end_time"], and
    either ["result"] or ["error"]. *)
Record TaskPatch := {
  p_status : string;
  p_end_time : string;
  p_result : option ResultData;
  p_error : option string
}.

Definition task_update (t : TaskRecord) (p : TaskPatch) : TaskRecord :=
  {| task_id := task_id t; code := code t; kind := kind t;
     status := p_status p;
     start_time := start_time t;
     end_time := Some (p_end_time p);
     result := match p_result p with Some r => Some r | None => result t end;
     error := match p_error p with Some e => Some e | None => error t end;
     report_type := report_type t;
     send_notification := send_notification t; stage := stage t;
     progress := progress t; logs := logs t |}.

(** ** The registry operations of [AnalysisService] *)

(** [self._max_task_logs], set in [__init__]. *)
Definition _max_task_logs : nat := 200.

(** [get_task_status]: [self._tasks.get(task_id)]. *)
Definition get_task_status (tasks : Store) (task_id : string)
  : option TaskRecord :=
  dict_get task_id tasks.

(** [list_tasks]: the records, sorted by ["start_time"] in reverse, cut by
    [tasks[:limit]]. *)
Definition list_tasks (tasks : Store) (limit : Z) : list TaskRecord :=
  let tasks := dict_values tasks in
  let tasks := Py.sort_desc start_time tasks in
  Py.slice_to limit tasks.

(** The body of [_append_task_log] from [logs = task.get("logs")] to
    [task["logs"] = logs], on the list of entries; [bound] is
    [self._max_task_logs]. *)
Definition append_bounded (bound : nat) (logs : list LogEntry)
    (entry : LogEntry) : list LogEntry :=
  let logs := logs ++ [entry] in
  if (bound <? List.length logs)%nat
  then Py.slice_from (- Z.of_nat bound) logs
  else logs.

(** The part of [_append_task_log] that changes the task dictionary found
    in the map: the entry is appended, the list is cut to its bound, and
    [stage] and [progress] are written when given. *)
Definition append_to_task (task : TaskRecord) (entry : LogEntry)
    (stage : option string) (progress : option Z) : TaskRecord :=
  let task := set_logs task (append_bounded _max_task_logs (logs task) entry) in
  let task := match stage with Some s => set_stage task s | None => task end in
  let task := match progress with Some p => set_progress task p | None => task end in
  task.

(** [_append_task_log]: the entry is built from the clock reading [now];
    nothing happens when the task is unknown. *)
Definition _append_task_log (tasks : Store) (now : string)
    (task_id level message : string)
    (stage : option string) (progress : option Z) : Store :=
  let entry := {| ts := now; level := level; msg := message |} in
  match dict_get task_id tasks with
  | None => tasks
  | Some task => dict_set task_id (append_to_task task entry stage progress) tasks
  end.

(** ** Jobs as sequences of events *)

(** What a call gives: a value, or an exception with its [str(e)]. *)
Inductive Outcome (A : Type) :=
| Returns (a : A)
| Raises (e : string).

Arguments Returns {A} a.
Arguments Raises {A} e.

(** The atomic blocks under [self._tasks_lock] that a job performs on its
    own record, [self._tasks[task_id]]:
    - [ACreate]: [self._tasks[task_id] = {...}];
    - [AAppendLog]: one call of [_append_task_log];
    - [ASetResult]: [self._tasks[task_id]["result"] = result_data];
    - [AUpdate]: [self._tasks[task_id].update({...})]. *)
Inductive Action :=
| ACreate (rec : TaskRecord)
| AAppendLog (now level message : string)
             (stage : option string) (progress : option Z)
| ASetResult (result_data : ResultData)
| AUpdate (p : TaskPatch).

(** The result object of [pipeline.analyze_stock]: the attribute read by
    the job and the dictionary that [to_dict()] builds.  Reading the
    attribute and calling [to_dict()] are taken not to raise. *)
Record AnalysisResult := {
  operation_advice : string;
  to_dict : ResultData
}.

(** The collaborator calls of the two jobs, each with what it gave. *)
Inductive Collab :=
| CallImports (r : Outcome unit)
| CallGetConfig (r : Outcome unit)
| CallFetchData (r : Outcome (bool * option string))
| CallAnalyze (r : Outcome (option AnalysisResult))
| CallRenderReport (r : Outcome string)
| CallMarkdownPreview (r : Outcome string)
| CallSend (r : Outcome bool)
| CallInitSearch (r : Outcome unit)
| CallInitAnalyzer (r : Outcome unit)
| CallMarketReview (r : option string).

Inductive Event :=
| Locked (a : Action)
| Called (c : Collab).

(** A piece of a job body: from the number of clock readings made so far to
    the events performed, the new number of readings, and the value returned
    or the exception raised. *)
Definition Script (A : Type) : Type := nat -> list Event * nat * Outcome A.

Definition ret {A} (a : A) : Script A := fun k => ([], k, Returns a).

Definition raise {A} (e : string) : Script A := fun k => ([], k, Raises e).

Definition bind {A B} (m : Script A) (f : A -> Script B) : Script B :=
  fun k =>
    match m k with
    | (ev, k', Returns a) =>
        match f a k' with (ev', k'', r) => (ev ++ ev', k'', r) end
    | (ev, k', Raises e) => (ev, k', Raises e)
    end.

(** [try: m except Exception as e: h e]. *)
Definition try_except {A} (m : Script A) (h : string -> Script A) : Script A :=
  fun k =>
    match m k with
    | (ev, k', Returns a) => (ev, k', Returns a)
    | (ev, k', Raises e) =>
        match h e k' with (ev', k'', r) => (ev ++ ev', k'', r) end
    end.

Notation "x <- m ;; f" := (bind m (fun x => f))
  (at level 61, m at next level, right associativity).
Notation "m ;; f" := (bind m (fun _ => f))
  (at level 61, right associativity).

(** [datetime.now().isoformat()]: the next reading of the job's clock. *)
Definition datetime_now (clock : nat -> string) : Script string :=
  fun k => ([], S k, Returns (clock k)).

Definition locked (a : Action) : Script unit :=
  fun k => ([Locked a], k, Returns tt).

(** A collaborator call: the event is recorded, then its outcome is the
    outcome of the call. *)
Definition call {A} (c : Outcome A -> Collab) (r : Outcome A) : Script A :=
  fun k => ([Called (c r)], k, r).

(** A call that cannot raise: only the event is recorded. *)
Definition called (c : Collab) : Script unit :=
  fun k => ([Called c], k, Returns tt).

(** A call of [self._append_task_log] from a job body. *)
Definition append_log (clock : nat -> string) (level message : string)
    (stage : option string) (progress : option Z) : Script unit :=
  now <- datetime_now clock ;;
  locked (AAppendLog now level message stage progress).

(** The events of a job body that starts with a fresh clock. *)
Definition events {A} (m : Script A) : list Event := fst (fst (m O)).

Definition outcome {A} (m : Script A) : Outcome A := snd (m O).

(** Modelled from the spec: the enumeration [ReportType] of [src/enums.py],
    which is not among the sources; the spec names the report types
    [simple] and [full], the values echoed in a record's [report_type]. *)
Inductive ReportType := SIMPLE | FULL.

Definition report_type_value (r : ReportType) : string :=
  match r with SIMPLE => "simple" | FULL => "full" end.

(** Value of the dictionary lookup [d.get(k) or ""] for a text key. *)
Definition get_or_empty (k : string) (d : ResultData) : string :=
  match dict_get k d with
  | Some (PyStr s) => s
  | _ => ""
  end.

(** What the job functions return to the pool (which drops it):
    [{"success": ..., "task_id": ..., "result" | "error": ...}]. *)
Inductive JobReturn :=
| JobSuccess (task_id : string) (result_data : ResultData)
| JobFailure (task_id : string) (error : string).

(** ** The single-instrument analysis job *)

(** The collaborators of one run of [_run_analysis]. *)
Record AnalysisOracle := {
  (** the successive values of [datetime.now().isoformat()] *)
  clock : nat -> string;
  (** the two delayed imports *)
  import_pipeline : Outcome unit;
  (** [get_config()] and [StockAnalysisPipeline(...)] *)
  new_pipeline : Outcome unit;
  (** [pipeline.fetch_and_save_stock_data(code)] *)
  fetch_and_save_stock_data : Outcome (bool * option string);
  (** [pipeline.analyze_stock(code)] *)
  analyze_stock : Outcome (option AnalysisResult);
  (** [pipeline.notifier.generate_dashboard_report([result])] *)
  generate_dashboard_report : Outcome string;
  (** [pipeline.notifier.generate_single_stock_report(result)] *)
  generate_single_stock_report : Outcome string;
  (** [import markdown2], [markdown2.markdown(report_md, ...)] and the two
      [re.sub] on its output *)
  markdown_preview : string -> Outcome string;
  (** [pipeline.notifier.is_available()], taken not to raise *)
  notifier_is_available : bool;
  (** [pipeline.notifier.send(report_content)] *)
  notifier_send : string -> Outcome bool
}.

Definition failed_patch (now error : string) : TaskPatch :=
  {| p_status := "failed"; p_end_time := now;
     p_result := None; p_error := Some error |}.

Definition completed_patch (now : string) (result_data : ResultData)
  : TaskPatch :=
  {| p_status := "completed"; p_end_time := now;
     p_result := Some result_data; p_error := None |}.

(** [AnalysisService._run_analysis]. *)
Definition _run_analysis (o : AnalysisOracle) (code task_id : string)
    (report_type : ReportType) (send_notification : bool)
  : Script JobReturn :=
  let log := append_log (clock o) in
  now <- datetime_now (clock o) ;;
  locked (ACreate
    {| task_id := task_id; code := code; kind := None;
       status := "running"; start_time := now; end_time := None;
       result := None; error := None;
       report_type := report_type_value report_type;
       send_notification := send_notification;
       stage := "init"; progress := 0; logs := [] |}) ;;
  log "INFO" ("任务开始：" +++ code) (Some "init") (Some 3%Z) ;;
  try_except
    (call CallImports (import_pipeline o) ;;
     log "INFO" "初始化分析管道..." (Some "init") (Some 8%Z) ;;
     call CallGetConfig (new_pipeline o) ;;
     log "INFO" "Step 1/3 获取并保存行情数据..." (Some "fetch_data") (Some 18%Z) ;;
     fetched <- call CallFetchData (fetch_and_save_stock_data o) ;;
     (let (success, error) := fetched : bool * option string in
      if success
      then log "INFO" "行情数据已就绪" (Some "fetch_data") (Some 35%Z)
      else log "WARNING"
               ("行情数据获取失败：" +++ Py.str_opt error
                  +++ "（将尝试使用已有数据继续）")
               (Some "fetch_data") (Some 35%Z)) ;;
     log "INFO" "Step 2/3 执行趋势/情报/AI 综合分析..." (Some "analyze") (Some 55%Z) ;;
     result <- call CallAnalyze (analyze_stock o) ;;
     match result with
     | Some result =>
         let result_data := to_dict result in
         locked (ASetResult result_data) ;;
         log "INFO" "Step 3/3 生成报告内容..." (Some "render_report") (Some 85%Z) ;;
         result_data <-
           try_except
             (md <- call CallRenderReport
                      (match report_type with
                       | FULL => generate_dashboard_report o
                       | SIMPLE => generate_single_stock_report o
                       end) ;;
              ret (dict_set "report_markdown" (PyStr md) result_data))
             (fun _ => ret (dict_set "report_markdown" (PyStr "") result_data)) ;;
         let report_md := get_or_empty "report_markdown" result_data in
         result_data <-
           try_except
             (html <- call CallMarkdownPreview (markdown_preview o report_md) ;;
              ret (dict_set "report_html" (PyStr html) result_data))
             (fun _ => ret (dict_set "report_html" (PyStr "") result_data)) ;;
         locked (ASetResult result_data) ;;
         log "INFO" "报告已生成" (Some "render_report") (Some 92%Z) ;;
         (if send_notification && notifier_is_available o
          then
            log "INFO" "推送通知中..." (Some "notify") (Some 95%Z) ;;
            try_except
              (let report_content := get_or_empty "report_markdown" result_data in
               sent_ok <- (if Py.truthy report_content
                           then call CallSend (notifier_send o report_content)
                           else ret false) ;;
               if sent_ok : bool
               then log "INFO" "推送成功" (Some "notify") (Some 97%Z)
               else log "WARNING" "推送失败或未配置有效渠道" (Some "notify") (Some 97%Z))
              (fun e => log "ERROR" ("推送异常：" +++ e) (Some "notify") (Some 97%Z))
          else ret tt) ;;
         now <- datetime_now (clock o) ;;
         locked (AUpdate (completed_patch now result_data)) ;;
         log "INFO" "任务完成" (Some "done") (Some 100%Z) ;;
         ret (JobSuccess task_id result_data)
     | None =>
         now <- datetime_now (clock o) ;;
         locked (AUpdate (failed_patch now "分析返回空结果")) ;;
         log "ERROR" "分析失败：返回空结果" (Some "failed") (Some 100%Z) ;;
         ret (JobFailure task_id "分析返回空结果")
     end)
    (fun error_msg =>
       now <- datetime_now (clock o) ;;
       locked (AUpdate (failed_patch now error_msg)) ;;
       log "ERROR" ("任务异常：" +++ error_msg) (Some "failed") (Some 100%Z) ;;
       ret (JobFailure task_id error_msg)).

(** ** The market review job *)

(** The notifier interface that [run_market_review] uses. *)
Record Notifier := {
  save_report_to_file : string -> string -> Outcome string;
  is_available : bool;
  send : string -> Outcome bool
}.

(** The collaborators of one call of [run_market_review]. *)
Record ReviewOracle := {
  (** [MarketAnalyzer(search_service=..., analyzer=...)] *)
  new_market_analyzer : Outcome unit;
  (** [market_analyzer.run_daily_review()] *)
  run_daily_review : Outcome (option string);
  (** [getattr(market_analyzer, "last_overview", None) is not None] *)
  has_last_overview : bool;
  (** [market_analyzer.format_overview_markdown(overview)] *)
  format_overview_markdown : Outcome string;
  (** [datetime.now().strftime('%Y%m%d')] *)
  date_str : string
}.

(** Sequencing of calls that may raise, for code that touches no task. *)
Definition and_then {A B} (r : Outcome A) (f : A -> Outcome B) : Outcome B :=
  match r with
  | Returns a => f a
  | Raises e => Raises e
  end.

Definition newline : string := String "010" EmptyString.

(** [run_market_review] of [src/core/market_review.py]: the report text, or
    [None] when the review is empty or anything raised. *)
Definition run_market_review (notifier : Notifier) (o : ReviewOracle)
  : option string :=
  let body : Outcome (option string) :=
    and_then (new_market_analyzer o) (fun _ =>
    and_then (run_daily_review o) (fun review_report =>
    match review_report with
    | Some review_report =>
        if Py.truthy review_report then
          let snapshot_md :=
            if has_last_overview o
            then match format_overview_markdown o with
                 | Returns md => md
                 | Raises _ => ""
                 end
            else "" in
          let full_report :=
            if Py.truthy snapshot_md
            then snapshot_md +++ newline +++ newline +++ "---"
                   +++ newline +++ newline +++ review_report
            else review_report in
          let report_filename := "market_review_" +++ date_str o +++ ".md" in
          and_then (save_report_to_file notifier
                      ("# 🎯 大盘复盘" +++ newline +++ newline +++ full_report)
                      report_filename) (fun _ =>
          and_then (if is_available notifier
                    then send notifier
                           ("🎯 大盘复盘" +++ newline +++ newline +++ full_report)
                    else Returns false) (fun _ =>
          Returns (Some full_report)))
        else Returns None
    | None => Returns None
    end)) in
  match body with
  | Returns r => r
  | Raises _ => None
  end.

(** The collaborators of one run of [_run_market_review]. *)
Record MarketOracle := {
  m_clock : nat -> string;
  (** the two delayed imports *)
  m_imports : Outcome unit;
  (** [get_config()] *)
  m_get_config : Outcome unit;
  (** the block that imports and builds [SearchService] *)
  init_search_service : Outcome unit;
  (** the block that imports and builds [GeminiAnalyzer] *)
  init_analyzer : Outcome unit;
  (** [_WebUINotifier.save_report_to_file]: writes the report file *)
  write_report_file : string -> string -> Outcome string;
  review : ReviewOracle;
  m_markdown_preview : string -> Outcome string
}.

(** The class [_WebUINotifier]: it only saves the report. *)
Definition _WebUINotifier (o : MarketOracle) : Notifier :=
  {| save_report_to_file := write_report_file o;
     is_available := false;
     send := fun _ => Returns false |}.

(** [AnalysisService._run_market_review]. *)
Definition _run_market_review (o : MarketOracle) (task_id : string)
  : Script JobReturn :=
  let log := append_log (m_clock o) in
  now <- datetime_now (m_clock o) ;;
  locked (ACreate
    {| task_id := task_id; code := "market"; kind := Some "market_review";
       status := "running"; start_time := now; end_time := None;
       result := None; error := None;
       report_type := "full"; send_notification := false;
       stage := "market_review"; progress := 0; logs := [] |}) ;;
  log "INFO" "任务开始：大盘复盘" (Some "market_review") (Some 5%Z) ;;
  try_except
    (call CallImports (m_imports o) ;;
     call CallGetConfig (m_get_config o) ;;
     try_except
       (call CallInitSearch (init_search_service o))
       (fun e => log "WARNING" ("搜索服务初始化失败（将继续）：" +++ e) None None) ;;
     try_except
       (call CallInitAnalyzer (init_analyzer o))
       (fun e => log "WARNING" ("AI 分析器初始化失败（将继续）：" +++ e) None None) ;;
     log "INFO" "执行大盘复盘分析中..." (Some "market_review") (Some 35%Z) ;;
     let review := run_market_review (_WebUINotifier o) (review o) in
     called (CallMarketReview review) ;;
     if negb (Py.truthy_opt review)
     then
       now <- datetime_now (m_clock o) ;;
       locked (AUpdate (failed_patch now "大盘复盘返回空结果")) ;;
       log "ERROR" "大盘复盘失败：返回空结果" (Some "failed") (Some 100%Z) ;;
       ret (JobFailure task_id "大盘复盘返回空结果")
     else
       let report_md :=
         "# 🎯 大盘复盘" +++ newline +++ newline +++ Py.str_opt review in
       let result_data : ResultData :=
         [("name", PyStr "大盘复盘");
          ("report_markdown", PyStr report_md);
          ("analysis_summary", PyStr "");
          ("trend_prediction", PyStr "");
          ("operation_advice", PyStr "")] in
       result_data <-
         try_except
           (html <- call CallMarkdownPreview (m_markdown_preview o report_md) ;;
            ret (dict_set "report_html" (PyStr html) result_data))
           (fun _ => ret (dict_set "report_html" (PyStr "") result_data)) ;;
       now <- datetime_now (m_clock o) ;;
       locked (AUpdate (completed_patch now result_data)) ;;
       log "INFO" "任务完成：大盘复盘" (Some "done") (Some 100%Z) ;;
       ret (JobSuccess task_id result_data))
    (fun err =>
       now <- datetime_now (m_clock o) ;;
       locked (AUpdate (failed_patch now err)) ;;
       log "ERROR" ("任务异常：" +++ err) (Some "failed") (Some 100%Z) ;;
       ret (JobFailure task_id err)).

(** ** The service: task map and worker pool *)

(** One event on the task map; [None] is the [KeyError] of
    [self._tasks[task_id]] on an unknown id. *)
Definition apply_action (task_id : string) (a : Action) (tasks : Store)
  : option Store :=
  match a with
  | ACreate rec => Some (dict_set task_id rec tasks)
  | AAppendLog now level message stage progress =>
      Some (_append_task_log tasks now task_id level message stage progress)
  | ASetResult result_data =>
      match dict_get task_id tasks with
      | Some task => Some (dict_set task_id (set_result task (Some result_data)) tasks)
      | None => None
      end
  | AUpdate p =>
      match dict_get task_id tasks with
      | Some task => Some (dict_set task_id (task_update task p) tasks)
      | None => None
      end
  end.

Definition apply_event (task_id : string) (ev : Event) (tasks : Store)
  : option Store :=
  match ev with
  | Locked a => apply_action task_id a tasks
  | Called _ => Some tasks
  end.

(** A job body run alone, from the task map [tasks]. *)
Fixpoint run_events (task_id : string) (evs : list Event) (tasks : Store)
  : option Store :=
  match evs with
  | [] => Some tasks
  | ev :: evs' =>
      match apply_event task_id ev tasks with
      | Some tasks' => run_events task_id evs' tasks'
      | None => None
      end
  end.

(** A job handed to the pool: its task id and the events it has yet to
    perform. *)
Record Thread := {
  th_id : string;
  th_todo : list Event
}.

(** The state of [AnalysisService]: [__init__] gives [max_workers = 3], an
    empty task map and no job. *)
Record AnalysisService := {
  _max_workers : nat;
  _tasks : Store;
  executor : list Thread
}.

Definition new_service : AnalysisService :=
  {| _max_workers := 3; _tasks := []; executor := [] |}.

(** [self.executor.submit(job, ...)]: the job joins the pool. *)
Definition executor_submit (s : AnalysisService) (task_id : string)
    (job : list Event) : AnalysisService :=
  {| _max_workers := _max_workers s;
     _tasks := _tasks s;
     executor := executor s ++ [ {| th_id := task_id; th_todo := job |} ] |}.

(** The dictionary returned by the two submit methods; the market review
    leaves out ["code"], ["report_type"] and ["send_notification"]. *)
Record SubmitResult := {
  r_success : bool;
  r_message : string;
  r_code : option string;
  r_task_id : string;
  r_report_type : option string;
  r_send_notification : option bool
}.

(** Modelled from the spec: [BotMessage] of [bot/models.py], which is not
    among the sources; the service only tests whether one is given. *)
Definition BotMessage := string.

(** [submit_analysis]; [stamp] is
    [datetime.now().strftime('%Y%m%d_%H%M%S_%f')] and [o] says how the
    collaborators of the job will behave. *)
Definition submit_analysis (s : AnalysisService) (o : AnalysisOracle)
    (stamp : string) (code : string) (report_type : ReportType)
    (source_message : option BotMessage) (send_notification : option bool)
  : SubmitResult * AnalysisService :=
  let send_notification :=
    match send_notification with
    | None => match source_message with Some _ => true | None => false end
    | Some b => b
    end in
  let task_id := code +++ "_" +++ stamp in
  let s := executor_submit s task_id
             (events (_run_analysis o code task_id report_type send_notification)) in
  ({| r_success := true;
      r_message := if negb send_notification
                   then "分析任务已提交，将异步执行并展示结果"
                   else "分析任务已提交，将异步执行并推送通知";
      r_code := Some code;
      r_task_id := task_id;
      r_report_type := Some (report_type_value report_type);
      r_send_notification := Some send_notification |}, s).

(** [submit_market_review]. *)
Definition submit_market_review (s : AnalysisService) (o : MarketOracle)
    (stamp : string) : SubmitResult * AnalysisService :=
  let task_id := "market_review_" +++ stamp in
  let s := executor_submit s task_id (events (_run_market_review o task_id)) in
  ({| r_success := true;
      r_message := "大盘复盘任务已提交，将异步执行并在 WebUI 展示";
      r_code := None;
      r_task_id := task_id;
      r_report_type := None;
      r_send_notification := None |}, s).

(** One step of the service: a submission, or a pooled job performing its
    next event.  The pool runs at most [_max_workers] jobs at a time; every
    schedule of the bounded pool is a schedule here. *)
Inductive step : AnalysisService -> AnalysisService -> Prop :=
| step_submit_analysis s o stamp code report_type source_message send_notification :
    step s (snd (submit_analysis s o stamp code report_type
                   source_message send_notification))
| step_submit_market_review s o stamp :
    step s (snd (submit_market_review s o stamp))
| step_worker s before tid ev todo after tasks' :
    executor s = before ++ {| th_id := tid; th_todo := ev :: todo |} :: after ->
    apply_event tid ev (_tasks s) = Some tasks' ->
    step s {| _max_workers := _max_workers s;
              _tasks := tasks';
              executor := before ++ {| th_id := tid; th_todo := todo |} :: after |}.

(** [tr] lists the successive states of a run that starts in [s]. *)
Fixpoint execution (s : AnalysisService) (tr : list AnalysisService) : Prop :=
  match tr with
  | [] => True
  | s' :: tr' => step s s' /\ execution s' tr'
  end.

(** The worker step as a function: the job at position [i] of the pool
    performs its next event; [None] when there is no such job, the job has
    finished, or the event raises [KeyError]. *)
Definition worker_step (i : nat) (s : AnalysisService) : option AnalysisService :=
  match nth_error (executor s) i with
  | Some th =>
      match th_todo th with
      | ev :: todo =>
          match apply_event (th_id th) ev (_tasks s) with
          | Some tasks' =>
              Some {| _max_workers := _max_workers s;
                      _tasks := tasks';
                      executor := firstn i (executor s)
                                    ++ {| th_id := th_id th; th_todo := todo |}
                                    :: skipn (S i) (executor s) |}
          | None => None
          end
      | [] => None
      end
  | None => None
  end.

(** The states that the service goes through when the jobs named by the
    schedule take one step each, in turn. *)
Fixpoint run_schedule (sched : list nat) (s : AnalysisService)
  : list AnalysisService :=
  match sched with
  | [] => []
  | i :: sched' =>
      match worker_step i s with
      | Some s' => s' :: run_schedule sched' s'
      | None => run_schedule sched' s
      end
  end.

(** A state that the service can be in: the end of a run from its initial
    state. *)
Definition reachable (s : AnalysisService) : Prop :=
  exists tr, execution new_service tr /\ last tr new_service = s.

(** The ids of all jobs submitted so far. *)
Definition submitted_ids (s : AnalysisService) : list string :=
  map th_id (executor s).

(** What [get_task_status(task_id)] shows of the status in one state: the
    value of ["status"], or nothing when there is no record. *)
Definition current_status (tasks : Store) (task_id : string) : list string :=
  match get_task_status tasks task_id with
  | Some task => [status task]
  | None => []
  end.

(** The values that [get_task_status(task_id)["status"]] shows along a run,
    one per state in which the record exists. *)
Definition observed_statuses (task_id : string) (tr : list AnalysisService)
  : list string :=
  flat_map (fun s => current_status (_tasks s) task_id) tr.

(** The sequence of values taken: repetitions of the same value in
    consecutive states are one value. *)
Fixpoint changes (l : list string) : list string :=
  match l with
  | [] => []
  | x :: l' =>
      match l' with
      | y :: _ => if String.eqb x y then changes l' else x :: changes l'
      | [] => [x]
      end
  end.

Definition status_sequence (task_id : string) (tr : list AnalysisService)
  : list string :=
  changes (observed_statuses task_id tr).

Fixpoint is_prefix (l1 l2 : list string) : bool :=
  match l1, l2 with
  | [], _ => true
  | x :: l1', y :: l2' => String.eqb x y && is_prefix l1' l2'
  | _ :: _, [] => false
  end.

(** ** The request handlers of [ApiHandler] *)

(** The data of a [JsonResponse]:
    [{"success": False, "error": ...}], the dictionary of a submission,
    [{"success": True, "tasks": [...]}] or [{"success": True, "task": ...}]. *)
Inductive Body :=
| BodyError (error : string)
| BodySubmitted (r : SubmitResult)
| BodyTasks (tasks : list TaskRecord)
| BodyTask (task : TaskRecord).

Record Response := {
  body : Body;
  http_status : Z
}.

Definition OK : Z := 200.
Definition BAD_REQUEST : Z := 400.
Definition NOT_FOUND : Z := 404.

Definition JsonResponse (data : Body) (status : Z) : Response :=
  {| body := data; http_status := status |}.

(** The parsed query string: each name with its list of values. *)
Definition Query := Dict (list string).

(** [query.get(name, default)]. *)
Definition query_get (q : Query) (name : string) (default : list string)
  : list string :=
  match dict_get name q with
  | Some l => l
  | None => default
  end.

(** [re.match(r'^\d{6}$', code)]. *)
Definition is_a_stock (code : string) : bool :=
  Py.re_digits 6 Py.re_end code.

(** [re.match(r'^hk\d{5}$', code)]. *)
Definition is_hk_stock (code : string) : bool :=
  Py.re_lit "hk" (Py.re_digits 5 Py.re_end) code.

(** [re.match(r'^[A-Z]{1,5}(\.[A-Z])?$', code.upper())]. *)
Definition is_us_stock (code : string) : bool :=
  match Py.upper code with
  | String c s' =>
      Py.is_upper c && Py.re_upper_upto 4 (Py.re_opt_dot_upper Py.re_end) s'
  | EmptyString => false
  end.

(** [re.match(r'^01\d{4}$', code)]. *)
Definition is_otc_fund (code : string) : bool :=
  Py.re_lit "01" (Py.re_digits 4 Py.re_end) code.

(** [handle_analysis]: [GET /analysis?code=xxx].  [from_str] is
    [ReportType.from_str] of [src/enums.py]; [o] and [stamp] are the
    collaborators and the time stamp of the job that a valid request
    submits.  [Raises] is an exception that leaves the handler. *)
Definition handle_analysis (from_str : string -> ReportType)
    (s : AnalysisService) (o : AnalysisOracle) (stamp : string) (query : Query)
  : Outcome Response * AnalysisService :=
  let code_list := query_get query "code" [] in
  match code_list with
  | [] =>
      (Returns (JsonResponse (BodyError "缺少必填参数: code (股票代码)") BAD_REQUEST), s)
  | code0 :: _ =>
      if negb (Py.truthy (Py.strip code0))
      then (Returns (JsonResponse (BodyError "缺少必填参数: code (股票代码)") BAD_REQUEST), s)
      else
        let code := Py.strip code0 in
        let code := Py.lower code in
        if is_a_stock code && is_otc_fund code
        then (Returns (JsonResponse
                (BodyError ("暂不支持场外基金代码: " +++ code
                   +++ "（请使用场内 ETF 代码，如 510300 / 159915）"))
                BAD_REQUEST), s)
        else if negb (is_a_stock code || is_hk_stock code || is_us_stock code)
        then (Returns (JsonResponse
                (BodyError ("无效的股票代码格式: " +++ code
                   +++ " (A股6位数字 / 港股hk+5位数字 / 美股1-5个字母)"))
                BAD_REQUEST), s)
        else
          match query_get query "report_type" ["simple"] with
          | [] => (Raises "IndexError", s)
          | report_type_str :: _ =>
              let report_type := from_str report_type_str in
              let (result, s') :=
                submit_analysis s o stamp code report_type None None in
              (Returns (JsonResponse (BodySubmitted result) OK), s')
          end
  end.

(** [handle_tasks]: [GET /tasks], with the optional parameter [limit]. *)
Definition handle_tasks (s : AnalysisService) (query : Query)
  : Outcome Response :=
  let limit_list := query_get query "limit" ["20"] in
  match limit_list with
  | [] => Raises "IndexError"
  | limit0 :: _ =>
      let limit := match Py.int limit0 with
                   | Some n => n
                   | None => 20%Z
                   end in
      let tasks := list_tasks (_tasks s) limit in
      Returns (JsonResponse (BodyTasks tasks) OK)
  end.

(** [handle_task_status]: [GET /task?id=xxx]. *)
Definition handle_task_status (s : AnalysisService) (query : Query)
  : Response :=
  match query_get query "id" [] with
  | [] => JsonResponse (BodyError "缺少必填参数: id (任务ID)") BAD_REQUEST
  | id0 :: _ =>
      if negb (Py.truthy (Py.strip id0))
      then JsonResponse (BodyError "缺少必填参数: id (任务ID)") BAD_REQUEST
      else
        let task_id := Py.strip id0 in
        match get_task_status (_tasks s) task_id with
        | None => JsonResponse (BodyError ("任务不存在: " +++ task_id)) NOT_FOUND
        | Some task => JsonResponse (BodyTask task) OK
        end
  end.


(** ** Reading a job's events *)

(** The value that an event writes into ["status"], if it writes one. *)
Definition status_write (ev : Event) : option string :=
  match ev with
  | Locked (ACreate rec) => Some (status rec)
  | Locked (AUpdate p) => Some (p_status p)
  | _ => None
  end.

Fixpoint status_writes (evs : list Event) : list string :=
  match evs with
  | [] => []
  | ev :: evs' =>
      match status_write ev with
      | Some w => w :: status_writes evs'
      | None => status_writes evs'
      end
  end.

(** The terminal states. *)
Definition terminal (st : string) : Prop := st = "completed" \/ st = "failed".

(** The effect of an event on the job's own record, the value of
    [self._tasks.get(task_id)] before and after it; the outer [None] is the
    [KeyError]. *)
Definition record_step (ev : Event) (r : option TaskRecord)
  : option (option TaskRecord) :=
  match ev with
  | Called _ => Some r
  | Locked (ACreate rec) => Some (Some rec)
  | Locked (AAppendLog now level message stage progress) =>
      Some (option_map
              (fun task =>
                 append_to_task task
                   {| ts := now; level := level; msg := message |}
                   stage progress) r)
  | Locked (ASetResult result_data) =>
      option_map (fun task => Some (set_result task (Some result_data))) r
  | Locked (AUpdate p) =>
      option_map (fun task => Some (task_update task p)) r
  end.

Fixpoint record_run (evs : list Event) (r : option TaskRecord)
  : option (option TaskRecord) :=
  match evs with
  | [] => Some r
  | ev :: evs' =>
      match record_step ev r with
      | Some r' => record_run evs' r'
      | None => None
      end
  end.

(** How many times a job calls the report renderer. *)
Fixpoint render_calls (evs : list Event) : nat :=
  match evs with
  | [] => 0
  | Called (CallRenderReport _) :: evs' => S (render_calls evs')
  | _ :: evs' => render_calls evs'
  end.

(** What happened in a job, read off its events. *)

(** The data-fetch step returned with [success] false. *)
Definition fetch_reported_failure (evs : list Event) : bool :=
  existsb (fun ev => match ev with
                     | Called (CallFetchData (Returns (false, _))) => true
                     | _ => false
                     end) evs.

(** The analyze step returned a result (not [None]). *)
Definition analyze_returned_result (evs : list Event) : bool :=
  existsb (fun ev => match ev with
                     | Called (CallAnalyze (Returns (Some _))) => true
                     | _ => false
                     end) evs.

(** The report renderer raised. *)
Definition render_raised (evs : list Event) : bool :=
  existsb (fun ev => match ev with
                     | Called (CallRenderReport (Raises _)) => true
                     | _ => false
                     end) evs.

(** [run_market_review] returned [None] or the empty string. *)
Definition review_returned_nothing (evs : list Event) : bool :=
  existsb (fun ev => match ev with
                     | Called (CallMarketReview r) => negb (Py.truthy_opt r)
                     | _ => false
                     end) evs.

(** A log entry that a job appends while setting the stage [stage]. *)
Definition logged_at_stage (stage : string) (entry : LogEntry)
    (evs : list Event) : Prop :=
  exists progress,
    In (Locked (AAppendLog (ts entry) (level entry) (msg entry)
                  (Some stage) progress)) evs.

(** ** The life cycle of a record *)

(** What is left of a life cycle: [running] and then a terminal state, or a
    terminal state alone. *)
Definition lifecycle (l : list string) : Prop :=
  exists t, terminal t /\ (l = ["running"; t] \/ l = [t]).

(** A pooled job agrees with the task map: the status of its record now,
    followed by the values that the job has yet to write, is what is left of
    a life cycle. *)
Definition thread_ok (tasks : Store) (th : Thread) : Prop :=
  lifecycle (current_status tasks (th_id th) ++ status_writes (th_todo th)).

(** Every pooled job agrees with the task map, and every record of the map
    belongs to a submitted job. *)
Definition service_ok (s : AnalysisService) : Prop :=
  (forall th, In th (executor s) -> thread_ok (_tasks s) th)
  /\ (forall k, dict_get k (_tasks s) <> None -> In k (submitted_ids s)).

(** The bodies that the service hands to its pool. *)
Definition is_job (task_id : string) (evs : list Event) : Prop :=
  (exists o code report_type send_notification,
      evs = events (_run_analysis o code task_id report_type send_notification))
  \/ (exists o, evs = events (_run_market_review o task_id)).

(** ** Subject codes *)

Fixpoint all_digits (s : string) : bool :=
  match s with
  | EmptyString => true
  | String c s' => Py.is_digit c && all_digits s'
  end.

(** ** Order of a listing *)

(** [x] may stand before [y] in a list sorted by [key] in reverse. *)
Definition not_before {A} (key : A -> string) (x y : A) : Prop :=
  String.leb (key y) (key x) = true.


(** ** More observations of a job *)

(** The job's record after each of its events, when the job runs alone from
    a map in which its record is [r]. *)
Fixpoint record_states (evs : list Event) (r : option TaskRecord)
  : list (option TaskRecord) :=
  match evs with
  | [] => []
  | ev :: evs' =>
      match record_step ev r with
      | Some r' => r' :: record_states evs' r'
      | None => []
      end
  end.

(** The values of ["progress"] that the record shows along the job. *)
Definition progress_values (evs : list Event) (r : option TaskRecord)
  : list Z :=
  flat_map (fun o => match o with
                     | Some task => [progress task]
                     | None => []
                     end) (record_states evs r).

Fixpoint nondecreasing (l : list Z) : bool :=
  match l with
  | [] => true
  | x :: l' =>
      match l' with
      | [] => true
      | y :: _ => (x <=? y)%Z && nondecreasing l'
      end
  end.

(** How many times a job calls [notifier.send]. *)
Fixpoint send_calls (evs : list Event) : nat :=
  match evs with
  | [] => 0
  | Called (CallSend _) :: evs' => S (send_calls evs')
  | _ :: evs' => send_calls evs'
  end.

(** [notifier.send] was called and raised, or returned [False]. *)
Definition send_failed (evs : list Event) : bool :=
  existsb (fun ev => match ev with
                     | Called (CallSend (Raises _)) => true
                     | Called (CallSend (Returns false)) => true
                     | _ => false
                     end) evs.

(** The message of the exception raised by one of the calls that the job
    body does not guard with a [try] of its own: the delayed imports,
    [get_config()] and the pipeline constructor, the data fetch, the
    analysis. *)
Fixpoint unguarded_exception (evs : list Event) : option string :=
  match evs with
  | [] => None
  | Called (CallImports (Raises e)) :: _ => Some e
  | Called (CallGetConfig (Raises e)) :: _ => Some e
  | Called (CallFetchData (Raises e)) :: _ => Some e
  | Called (CallAnalyze (Raises e)) :: _ => Some e
  | _ :: evs' => unguarded_exception evs'
  end.

(** The analyze step returned [None]. *)
Definition analyze_returned_none (evs : list Event) : bool :=
  existsb (fun ev => match ev with
                     | Called (CallAnalyze (Returns None)) => true
                     | _ => false
                     end) evs.

(** The text that [run_market_review] returned, when it is not empty. *)
Fixpoint review_text (evs : list Event) : option string :=
  match evs with
  | [] => None
  | Called (CallMarketReview (Some text)) :: _ =>
      if Py.truthy text then Some text else None
  | _ :: evs' => review_text evs'
  end.

(** The message of the exception raised while the search service or the AI
    analyzer of a market review was set up. *)
Fixpoint init_search_exception (evs : list Event) : option string :=
  match evs with
  | [] => None
  | Called (CallInitSearch (Raises e)) :: _ => Some e
  | _ :: evs' => init_search_exception evs'
  end.

Fixpoint init_analyzer_exception (evs : list Event) : option string :=
  match evs with
  | [] => None
  | Called (CallInitAnalyzer (Raises e)) :: _ => Some e
  | _ :: evs' => init_analyzer_exception evs'
  end.

(** The log entries that a job appends, in order. *)
Fixpoint appended_entries (evs : list Event) : list LogEntry :=
  match evs with
  | [] => []
  | Locked (AAppendLog now level message _ _) :: evs' =>
      {| ts := now; level := level; msg := message |} :: appended_entries evs'
  | _ :: evs' => appended_entries evs'
  end.

(** A record at the end of a job: finished, with a time stamp, and either
    completed with a result and no error, or failed with an error. *)
Definition finished_record (task : TaskRecord) : Prop :=
  progress task = 100%Z
  /\ end_time task <> None
  /\ ((status task = "completed" /\ stage task = "done"
       /\ result task <> None /\ error task = None)
      \/ (status task = "failed" /\ stage task = "failed"
          /\ error task <> None)).

(** ** More of the request layer *)

(** [handle_market_review]: [GET /market-review].  The pool accepts every
    job, so the [except] branch of the handler is not reached. *)
Definition handle_market_review (s : AnalysisService) (o : MarketOracle)
    (stamp : string) : Response * AnalysisService :=
  let (result, s') := submit_market_review s o stamp in
  (JsonResponse (BodySubmitted result) OK, s').

(** A string of ASCII letters. *)
Fixpoint all_letters (s : string) : bool :=
  match s with
  | EmptyString => true
  | String c s' => (Py.is_upper c || Py.is_lower c) && all_letters s'
  end.

(** The records of a listing whose start time is [t]. *)
Definition started_at (t : string) (l : list TaskRecord) : list TaskRecord :=
  filter (fun r => String.eqb (start_time r) t) l.

(** ** The configuration service and its pages

    [ConfigService] of [web/services.py] and [PageHandler] of
    [web/handlers.py].  As for [strip], the white space and the line
    boundaries of a text are the ASCII ones: the embedding follows Python
    on every text whose characters outside ASCII are neither white space
    nor line boundaries. *)

(** ** More Python built-ins: lines, separators, patterns with groups *)

(** The line boundaries of [str.splitlines] in ASCII: LF, VT, FF, CR and
    FS, GS, RS. *)
Definition is_line_break (c : ascii) : bool :=
  let n := nat_of_ascii c in
  ((10 <=? n)%nat && (n <=? 13)%nat) || ((28 <=? n)%nat && (n <=? 30)%nat).

(** [s.splitlines()]: CR LF is one boundary, and a boundary at the very end
    opens no further line. *)
Fixpoint splitlines (s : string) : list string :=
  match s with
  | EmptyString => []
  | String c s' =>
      if Ascii.eqb c "013"
      then match s' with
           | String d s'' =>
               if Ascii.eqb d "010"
               then EmptyString :: splitlines s''
               else EmptyString :: splitlines s'
           | EmptyString => [EmptyString]
           end
      else if is_line_break c
      then EmptyString :: splitlines s'
      else match splitlines s' with
           | [] => [String c EmptyString]
           | line :: lines => String c line :: lines
           end
  end.

(** [s.split(sep)] for a separator of one character. *)
Fixpoint split_char (sep : ascii) (s : string) : list string :=
  match s with
  | EmptyString => [EmptyString]
  | String c s' =>
      if Ascii.eqb c sep
      then EmptyString :: split_char sep s'
      else match split_char sep s' with
           | [] => [String c EmptyString]
           | part :: parts => String c part :: parts
           end
  end.

(** [s.split(sep, 1)] when [sep in s]: the text before the first separator
    and the text after it; [None] when there is no separator. *)
Fixpoint split_once (sep : ascii) (s : string) : option (string * string) :=
  match s with
  | EmptyString => None
  | String c s' =>
      if Ascii.eqb c sep
      then Some (EmptyString, s')
      else match split_once sep s' with
           | Some (before, after) => Some (String c before, after)
           | None => None
           end
  end.

(** [sep.join(parts)]. *)
Fixpoint join (sep : string) (parts : list string) : string :=
  match parts with
  | [] => EmptyString
  | part :: parts' =>
      match parts' with
      | [] => part
      | _ :: _ => part +++ sep +++ join sep parts'
      end
  end.


(** [s.startswith(c)] and [s.endswith(c)] for a string [c] of one
    character. *)
Definition startswith_char (c : ascii) (s : string) : bool :=
  match s with
  | String d _ => Ascii.eqb d c
  | EmptyString => false
  end.

Fixpoint endswith_char (c : ascii) (s : string) : bool :=
  match s with
  | EmptyString => false
  | String d EmptyString => Ascii.eqb d c
  | String _ s' => endswith_char c s'
  end.

(** [s[:-1]] and [s[1:-1]]. *)
Fixpoint drop_last (s : string) : string :=
  match s with
  | EmptyString => EmptyString
  | String _ EmptyString => EmptyString
  | String c s' => String c (drop_last s')
  end.

Definition drop_ends (s : string) : string :=
  match s with
  | EmptyString => EmptyString
  | String _ s' => drop_last s'
  end.

(** The quote stripping of the service: a value that starts and ends with
    the same quote character (double, code 34, or single) loses its first
    and last characters. *)
Definition unquote (v : string) : string :=
  if (startswith_char "034" v && endswith_char "034" v)
     || (startswith_char "'" v && endswith_char "'" v)
  then drop_ends v
  else v.

(** Pattern pieces with groups, in the style of the backtracking matcher of
    [re]: a piece gets the text left to match and a continuation for the
    rest of the pattern; a greedy piece tries its longest match first and
    gives characters back when the rest fails, a lazy piece tries its
    shortest match first. *)

(** [\s*]: the continuation gets the white space matched and the rest. *)
Fixpoint re_spaces {R : Type} (s : string)
    (k : string -> string -> option R) : option R :=
  match s with
  | EmptyString => k EmptyString s
  | String c s' =>
      if Py.is_space c
      then match re_spaces s' (fun ws rest => k (String c ws) rest) with
           | Some r => Some r
           | None => k EmptyString s
           end
      else k EmptyString s
  end.

(** A literal text. *)
Fixpoint re_literal {R : Type} (lit s : string) (k : string -> option R)
  : option R :=
  match lit with
  | EmptyString => k s
  | String c lit' =>
      match s with
      | String d s' => if Ascii.eqb c d then re_literal lit' s' k else None
      | EmptyString => None
      end
  end.

(** [.*?]: any characters but the newline, as few as possible. *)
Fixpoint re_lazy_any {R : Type} (s : string)
    (k : string -> string -> option R) : option R :=
  match k EmptyString s with
  | Some r => Some r
  | None =>
      match s with
      | EmptyString => None
      | String c s' =>
          if Ascii.eqb c "010"
          then None
          else re_lazy_any s' (fun v rest => k (String c v) rest)
      end
  end.

(** The pattern of the service for an assignment of [key], matched against
    a line with [re.match]: from the start of the line, the group [prefix]
    (white space, the key taken literally, white space, an equals sign,
    white space), the group [value] (any characters but a line feed, as few
    as possible), the group [suffix] (white space), and the end of the line.
    The result holds the three groups of the match, or is [None]. *)
Definition match_assignment (key line : string)
  : option (string * string * string) :=
  re_spaces line (fun ws1 r1 =>
  re_literal key r1 (fun r2 =>
  re_spaces r2 (fun ws2 r3 =>
  re_literal "=" r3 (fun r4 =>
  re_spaces r4 (fun ws3 r5 =>
  re_lazy_any r5 (fun value r6 =>
  re_spaces r6 (fun suffix r7 =>
  if Py.re_end r7
  then Some (ws1 +++ key +++ ws2 +++ "=" +++ ws3, value, suffix)
  else None))))))).

(** ** [ConfigService]: the text of the [.env] file *)

(** [_STOCK_LIST_RE.match(line)]. *)
Definition _STOCK_LIST_RE (line : string) : option (string * string * string) :=
  match_assignment "STOCK_LIST" line.

(** The loop of [_extract_stock_list] over the lines. *)
Fixpoint extract_from_lines (lines : list string) : string :=
  match lines with
  | [] => EmptyString
  | line :: lines' =>
      match _STOCK_LIST_RE line with
      | Some (_, value, _) => unquote (Py.strip value)
      | None => extract_from_lines lines'
      end
  end.

(** [ConfigService._extract_stock_list]. *)
Definition _extract_stock_list (env_text : string) : string :=
  extract_from_lines (splitlines env_text).


(** The end of the two update functions: the lines are joined, and the text
    ends with a newline if the old text did, or if the old text was
    empty. *)
Definition join_lines (env_text : string) (out_lines : list string) : string :=
  let trailing_newline :=
    if Py.truthy env_text then endswith_char "010" env_text else true in
  join newline out_lines +++ (if trailing_newline then newline else EmptyString).

(** The test before a new line is appended: there are lines, and the last
    one, stripped, is not empty. *)
Definition ends_with_text (out_lines : list string) : bool :=
  match out_lines with
  | [] => false
  | _ :: _ => Py.truthy (Py.strip (last out_lines EmptyString))
  end.



(** The loop of [_parse_env_text], from the dictionary built so far. *)
Fixpoint parse_lines (lines : list string) (out : Dict string) : Dict string :=
  match lines with
  | [] => out
  | raw_line :: lines' =>
      let line := Py.strip raw_line in
      if negb (Py.truthy line) || startswith_char "#" line
      then parse_lines lines' out
      else match split_once "=" line with
           | None => parse_lines lines' out
           | Some (k, v) =>
               let k := Py.strip k in
               let v := Py.strip v in
               if negb (Py.truthy k)
               then parse_lines lines' out
               else parse_lines lines' (dict_set k (unquote v) out)
           end
  end.

(** [ConfigService._parse_env_text]. *)
Definition _parse_env_text (env_text : string) : Dict string :=
  parse_lines (splitlines env_text) [].

(** The loop of [get_env_values] over the requested keys. *)
Fixpoint pick_values (data : Dict string) (keys : list (string * string))
    (out : Dict string) : Dict string :=
  match keys with
  | [] => out
  | (k, default) :: keys' =>
      let v := match dict_get k data with
               | Some v => v
               | None => default
               end in
      pick_values data keys' (dict_set k v out)
  end.

(** The inner loop of [_update_env_kv]: the first key of [updates] whose
    pattern matches the line gives the new line. *)
Fixpoint first_matching_key (updates : Dict string) (line : string)
  : option (string * string) :=
  match updates with
  | [] => None
  | (k, v) :: updates' =>
      match match_assignment k line with
      | Some (prefix, _, suffix) => Some (k, prefix +++ v +++ suffix)
      | None => first_matching_key updates' line
      end
  end.

(** ["=" in line]. *)
Definition has_equals (line : string) : bool :=
  match split_once "=" line with Some _ => true | None => false end.

(** The outer loop of [_update_env_kv]: the new lines and the keys that
    were replaced. *)
Fixpoint replace_kv_lines (updates : Dict string) (lines : list string)
  : list string * list string :=
  match lines with
  | [] => ([], [])
  | line :: lines' =>
      let (out_lines, replaced) := replace_kv_lines updates lines' in
      if startswith_char "#" (Py.lstrip line) || negb (has_equals line)
      then (line :: out_lines, replaced)
      else match first_matching_key updates line with
           | Some (k, new_line) => (new_line :: out_lines, k :: replaced)
           | None => (line :: out_lines, replaced)
           end
  end.

(** [ConfigService._update_env_kv]. *)
Definition _update_env_kv (env_text : string) (updates : Dict string) : string :=
  let lines := splitlines env_text in
  let (out_lines, replaced) := replace_kv_lines updates lines in
  let missing :=
    filter (fun kv => negb (existsb (String.eqb (fst kv)) replaced)) updates in
  let out_lines :=
    match missing with
    | [] => out_lines
    | _ :: _ =>
        (if ends_with_text out_lines
         then out_lines ++ [EmptyString]
         else out_lines)
          ++ map (fun kv => fst kv +++ "=" +++ snd kv) missing
    end in
  join_lines env_text out_lines.

(** ** [ConfigService]: the files *)

(** The files that the configuration service touches: the [.env] file
    ([None] when it does not exist) and its name, the files written beside
    it, the text of the exception that opening the [.env] file for writing
    raises ([None] when it opens), and whether the directory refuses new
    files.  The directory of the file exists, and a file that exists can be
    read. *)
Record Files := {
  env_file : option string;
  env_name : string;
  beside : Dict string;
  env_write_error : option string;
  refuses_new_files : bool
}.

(** [read_env_text]: a missing file reads as the empty text. *)
Definition read_env_text (fs : Files) : string :=
  match env_file fs with
  | Some text => text
  | None => EmptyString
  end.

(** [write_env_text]: the exception of [open] leaves the method, and the
    file is as it was. *)
Definition write_env_text (fs : Files) (text : string) : Outcome unit * Files :=
  match env_write_error fs with
  | None =>
      (Returns tt,
       {| env_file := Some text; env_name := env_name fs; beside := beside fs;
          env_write_error := None;
          refuses_new_files := refuses_new_files fs |})
  | Some e => (Raises e, fs)
  end.

(** [backup_path.write_text(old)] inside its [try]: a backup that cannot be
    written is skipped. *)
Definition write_backup (fs : Files) (backup_name old : string) : Files :=
  if refuses_new_files fs
  then fs
  else {| env_file := env_file fs; env_name := env_name fs;
          beside := dict_set backup_name old (beside fs);
          env_write_error := env_write_error fs;
          refuses_new_files := refuses_new_files fs |}.

(** [set_env_text]; [stamp] is the time of the call, as [strftime] prints
    it.  The result is the name of the backup. *)
Definition set_env_text (fs : Files) (stamp text : string)
  : Outcome string * Files :=
  let old := read_env_text fs in
  let backup_name := env_name fs +++ ".bak." +++ stamp in
  let fs := write_backup fs backup_name old in
  let new_text :=
    if endswith_char "010" text || negb (Py.truthy text)
    then text
    else text +++ newline in
  match write_env_text fs new_text with
  | (Returns _, fs) => (Returns backup_name, fs)
  | (Raises e, fs) => (Raises e, fs)
  end.

(** [get_stock_list]. *)
Definition get_stock_list (fs : Files) : string :=
  _extract_stock_list (read_env_text fs).


(** [get_env_values]. *)
Definition get_env_values (fs : Files) (keys : list (string * string))
  : Dict string :=
  pick_values (_parse_env_text (read_env_text fs)) keys [].

(** [update_env_values]. *)
Definition update_env_values (fs : Files) (updates : Dict string)
  : Outcome unit * Files :=
  write_env_text fs (_update_env_kv (read_env_text fs) updates).

(** ** [PageHandler] *)

(** What a page handler returns: the page, named by the template that
    renders it and the arguments given to the template (the rendering itself
    is in [web/templates.py]), and the status. *)
Inductive Page :=
| ConfigPage (stock_list env_filename : string) (message : option string)
             (common_config : Dict string)
| EnvEditorPage (env_text env_filename : string) (message : option string)
| ErrorPage (code : Z) (title message : string).

Record HtmlResponse := {
  page : Page;
  page_status : Z
}.

Definition FORBIDDEN : Z := 403.
Definition INTERNAL_SERVER_ERROR : Z := 500.

(** [_is_loopback_request]; the client address is [None] when reading it
    raises. *)
Definition _is_loopback_request (client_ip : option string) : bool :=
  match client_ip with
  | Some ip => String.eqb ip "127.0.0.1" || String.eqb ip "::1"
  | None => false
  end.

(** The keys of the common configuration, with their defaults. *)
Definition common_keys : list (string * string) :=
  [("SCHEDULE_ENABLED", "false");
   ("SCHEDULE_TIME", "18:00");
   ("MARKET_REVIEW_ENABLED", "true")].



(** The pattern that [handle_common_update] gives to [re.match], as it is
    written in the source: in the raw string, the two characters before each
    [d] are an escaped backslash, so the pattern asks for a backslash and
    the letter [d] where a digit was meant. *)
Definition schedule_time_matches (st : string) : bool :=
  let minutes (s : string) : bool :=
    match s with
    | String c s' =>
        (Ascii.leb "0" c && Ascii.leb c "5") && Py.re_lit "\d" Py.re_end s'
    | EmptyString => false
    end in
  let rest := Py.re_lit ":" minutes in
  match st with
  | String c s' =>
      ((Ascii.eqb c "0" || Ascii.eqb c "1") && Py.re_lit "\d" rest s')
      || (Ascii.eqb c "2"
          && match s' with
             | String d s'' => (Ascii.leb "0" d && Ascii.leb d "3") && rest s''
             | EmptyString => false
             end)
  | EmptyString => false
  end.

(** The local function [_get] of [handle_common_update]: the first value of
    the field, or the default, stripped. *)
Definition form_get (form_data : Query) (name default : string)
  : Outcome string :=
  match query_get form_data name [default] with
  | [] => Raises "IndexError"
  | v :: _ => Returns (Py.strip v)
  end.

(** The local function [_get_bool]: a checkbox is present or absent. *)
Definition form_get_bool (form_data : Query) (name : string) : string :=
  match dict_get name form_data with
  | Some _ => "true"
  | None => "false"
  end.

(** [current[k]]; [get_env_values] has given every requested key a
    value. *)
Definition current_value (current : Dict string) (k : string) : string :=
  match dict_get k current with
  | Some v => v
  | None => EmptyString
  end.

(** [handle_common_update]: [POST /common/update]. *)
Definition handle_common_update (client_ip : option string) (fs : Files)
    (form_data : Query) : Outcome HtmlResponse * Files :=
  if negb (_is_loopback_request client_ip)
  then (Returns {| page := ErrorPage 403 "禁止访问"
                             "该操作仅允许本机访问（127.0.0.1 / ::1）";
                   page_status := FORBIDDEN |}, fs)
  else
    let current := get_env_values fs common_keys in
    match form_get form_data "SCHEDULE_TIME"
            (current_value current "SCHEDULE_TIME") with
    | Raises e => (Raises e, fs)
    | Returns st =>
        let errors :=
          if negb (schedule_time_matches st)
          then ["SCHEDULE_TIME 格式需为 HH:MM（24 小时制）"]
          else [] in
        match errors with
        | _ :: _ =>
            (Returns {| page := ConfigPage (get_stock_list fs) (env_name fs)
                                  (Some ("保存失败：" +++ join "；" errors))
                                  current;
                        page_status := BAD_REQUEST |}, fs)
        | [] =>
            let updates :=
              [("SCHEDULE_ENABLED",
                form_get_bool form_data "SCHEDULE_ENABLED");
               ("SCHEDULE_TIME", st);
               ("MARKET_REVIEW_ENABLED",
                form_get_bool form_data "MARKET_REVIEW_ENABLED")] in
            match update_env_values fs updates with
            | (Raises e, fs) => (Raises e, fs)
            | (Returns _, fs) =>
                (Returns {| page := ConfigPage (get_stock_list fs)
                                      (env_name fs)
                                      (Some "常用配置已保存（部分配置需重启生效）")
                                      (get_env_values fs common_keys);
                            page_status := OK |}, fs)
            end
        end
    end.

(** [handle_env_editor]: [GET /env]. *)
Definition handle_env_editor (client_ip : option string) (fs : Files)
  : HtmlResponse :=
  if negb (_is_loopback_request client_ip)
  then {| page := ErrorPage 403 "禁止访问"
                    "该页面仅允许本机访问（127.0.0.1 / ::1）";
          page_status := FORBIDDEN |}
  else {| page := EnvEditorPage (read_env_text fs) (env_name fs) None;
          page_status := OK |}.

(** [handle_env_update]: [POST /env/update]. *)
Definition handle_env_update (client_ip : option string) (fs : Files)
    (stamp : string) (form_data : Query) : Outcome HtmlResponse * Files :=
  if negb (_is_loopback_request client_ip)
  then (Returns {| page := ErrorPage 403 "禁止访问"
                             "该操作仅允许本机访问（127.0.0.1 / ::1）";
                   page_status := FORBIDDEN |}, fs)
  else
    match query_get form_data "env_text" [EmptyString] with
    | [] => (Raises "IndexError", fs)
    | env_text :: _ =>
        match set_env_text fs stamp env_text with
        | (Returns backup_name, fs) =>
            (Returns {| page := EnvEditorPage env_text (env_name fs)
                                  (Some ("已保存（已自动备份：" +++ backup_name
                                           +++ "）"));
                        page_status := OK |}, fs)
        | (Raises e, fs) =>
            (Returns {| page := EnvEditorPage env_text (env_name fs)
                                  (Some ("保存失败：" +++ e));
                        page_status := INTERNAL_SERVER_ERROR |}, fs)
        end
    end.

(** ** What the theorems on the configuration say about a text *)

(** Every character of a text passes a test. *)
Fixpoint all_chars (p : ascii -> bool) (s : string) : bool :=
  match s with
  | EmptyString => true
  | String c s' => p c && all_chars p s'
  end.

(** The text holds no line boundary of [str.splitlines]. *)
Definition no_line_break (s : string) : bool :=
  all_chars (fun c => negb (is_line_break c)) s.

(** The text is white space only. *)
Definition all_space (s : string) : bool := all_chars Py.is_space s.

(** A value that the file gives back as it is: one line, no white space
    around it, no pair of quotes around it. *)
Definition clean_value (v : string) : bool :=
  no_line_break v && String.eqb (Py.strip v) v && String.eqb (unquote v) v.

(** The text starts with white space. *)
Definition starts_with_space (s : string) : bool :=
  match s with
  | String c _ => Py.is_space c
  | EmptyString => false
  end.

(** The text holds no line feed: the dot of a pattern matches all of it. *)
Definition no_line_feed (s : string) : bool :=
  all_chars (fun c => negb (Ascii.eqb c "010")) s.


(** What a line of the file assigns, as [_parse_env_text] reads it: the key
    and the value, or nothing for an empty line, a comment, a line without
    equals sign or with nothing before it. *)
Definition line_assignment (raw_line : string) : option (string * string) :=
  hd_error (parse_lines [raw_line] []).

(** A key that both readers of the file find: not empty, stripped, on one
    line, without equals sign, and not the start of a comment. *)
Definition plain_key (k : string) : bool :=
  Py.truthy k && String.eqb (Py.strip k) k && no_line_break k
  && all_chars (fun c => negb (Ascii.eqb c "=")) k
  && negb (startswith_char "#" k).

(** No key comes twice. *)
Fixpoint unique_keys (keys : list string) : bool :=
  match keys with
  | [] => true
  | k :: keys' => negb (existsb (String.eqb k) keys') && unique_keys keys'
  end.

(** The updates that the theorems speak of: a dictionary (each key once)
    with plain keys and clean values. *)
Definition good_updates (updates : Dict string) : bool :=
  unique_keys (dict_keys updates)
  && forallb (fun kv => plain_key (fst kv) && clean_value (snd kv)) updates.

(** A line assigns to a key of the updates the value of the updates, or it
    assigns to no key of the updates. *)
Definition assigns_update (updates : Dict string) (line : string) : Prop :=
  exists k v, In (k, v) updates /\ line_assignment line = Some (k, v).

Definition assigns_no_update (updates : Dict string) (line : string) : Prop :=
  forall k v x, In (k, v) updates -> line_assignment line <> Some (k, x).

(** A line of the old text and the line of the new text in its place: the
    same line, or two lines that assign to the same key of the updates. *)
Definition line_updated (updates : Dict string) (old new : string) : Prop :=
  old = new
  \/ exists k v x,
       In (k, v) updates
       /\ line_assignment old = Some (k, x)
       /\ line_assignment new = Some (k, v).
(** ** Sample inputs *)

Definition two_digits (n : nat) : string :=
  String (ascii_of_nat (48 + (n / 10) mod 10))
    (String (ascii_of_nat (48 + n mod 10)) EmptyString).

(** A clock that ticks once a second. *)
Definition sample_clock (k : nat) : string :=
  "2026-01-19T10:30:" +++ two_digits k.

Definition sample_result : AnalysisResult :=
  {| operation_advice := "hold";
     to_dict := [("operation_advice", PyStr "hold");
                 ("sentiment_score", PyInt 62)] |}.

(** Every collaborator of the analysis job answers. *)
Definition healthy : AnalysisOracle :=
  {| clock := sample_clock;
     import_pipeline := Returns tt;
     new_pipeline := Returns tt;
     fetch_and_save_stock_data := Returns (true, None);
     analyze_stock := Returns (Some sample_result);
     generate_dashboard_report := Returns "# dashboard";
     generate_single_stock_report := Returns "# report";
     markdown_preview := fun _ => Returns "<h1>report</h1>";
     notifier_is_available := false;
     notifier_send := fun _ => Returns true |}.

(** The data fetch reports a failure; everything else answers. *)
Definition fetch_fails : AnalysisOracle :=
  {| clock := sample_clock;
     import_pipeline := Returns tt;
     new_pipeline := Returns tt;
     fetch_and_save_stock_data := Returns (false, Some "timeout");
     analyze_stock := Returns (Some sample_result);
     generate_dashboard_report := Returns "# dashboard";
     generate_single_stock_report := Returns "# report";
     markdown_preview := fun _ => Returns "<h1>report</h1>";
     notifier_is_available := true;
     notifier_send := fun _ => Returns true |}.

(** The report renderer raises; everything else answers. *)
Definition render_fails : AnalysisOracle :=
  {| clock := sample_clock;
     import_pipeline := Returns tt;
     new_pipeline := Returns tt;
     fetch_and_save_stock_data := Returns (true, None);
     analyze_stock := Returns (Some sample_result);
     generate_dashboard_report := Raises "no template";
     generate_single_stock_report := Raises "no template";
     markdown_preview := fun _ => Returns "";
     notifier_is_available := true;
     notifier_send := fun _ => Returns true |}.

(** The daily review of the market analyzer comes back empty. *)
Definition empty_review : MarketOracle :=
  {| m_clock := sample_clock;
     m_imports := Returns tt;
     m_get_config := Returns tt;
     init_search_service := Raises "no search key";
     init_analyzer := Returns tt;
     write_report_file := fun _ name => Returns ("reports/" +++ name);
     review := {| new_market_analyzer := Returns tt;
                  run_daily_review := Returns None;
                  has_last_overview := false;
                  format_overview_markdown := Returns "";
                  date_str := "20260119" |};
     m_markdown_preview := fun _ => Returns "" |}.

(** A finished task, started at second [n]. *)
Definition sample_task (n : nat) : TaskRecord :=
  {| task_id := "600519_" +++ two_digits n; code := "600519"; kind := None;
     status := "completed"; start_time := sample_clock n;
     end_time := Some (sample_clock (n + 1));
     result := Some (to_dict sample_result); error := None;
     report_type := "simple"; send_notification := false;
     stage := "done"; progress := 100;
     logs := [{| ts := sample_clock n; level := "INFO"; msg := "done" |}] |}.

(** A task map with [n] finished tasks. *)
Definition sample_tasks (n : nat) : Store :=
  fold_left (fun d k => dict_set (task_id (sample_task k)) (sample_task k) d)
    (seq 0 n) [].

(** A service that holds 22 finished tasks. *)
Definition busy_service : AnalysisService :=
  {| _max_workers := 3; _tasks := sample_tasks 22; executor := [] |}.

(** A task whose log is full. *)
Definition full_log_task : TaskRecord :=
  set_logs (sample_task 0)
    (repeat {| ts := sample_clock 0; level := "INFO"; msg := "tick" |} 200).

(** A run of the service: an analysis and a market review are submitted and
    the pool runs them in turn to their ends. *)
Definition sample_run : list AnalysisService :=
  let s1 := snd (submit_analysis new_service healthy "20260119_103000_000001"
                   "600519" SIMPLE None None) in
  let s2 := snd (submit_market_review s1 empty_review "20260119_103000_000002") in
  s1 :: s2 :: run_schedule (flat_map (fun _ => [0; 1]%nat) (seq 0 20)) s2.


(** ** More sample inputs *)

(** The notifier is there but the push raises. *)
Definition send_fails : AnalysisOracle :=
  {| clock := sample_clock;
     import_pipeline := Returns tt;
     new_pipeline := Returns tt;
     fetch_and_save_stock_data := Returns (true, None);
     analyze_stock := Returns (Some sample_result);
     generate_dashboard_report := Returns "# dashboard";
     generate_single_stock_report := Returns "# report";
     markdown_preview := fun _ => Raises "no markdown2";
     notifier_is_available := true;
     notifier_send := fun _ => Raises "connection reset" |}.

(** The analysis raises. *)
Definition analyze_raises : AnalysisOracle :=
  {| clock := sample_clock;
     import_pipeline := Returns tt;
     new_pipeline := Returns tt;
     fetch_and_save_stock_data := Returns (true, None);
     analyze_stock := Raises "model overloaded";
     generate_dashboard_report := Returns "# dashboard";
     generate_single_stock_report := Returns "# report";
     markdown_preview := fun _ => Returns "";
     notifier_is_available := true;
     notifier_send := fun _ => Returns true |}.

(** The analysis returns [None]. *)
Definition analyze_gives_none : AnalysisOracle :=
  {| clock := sample_clock;
     import_pipeline := Returns tt;
     new_pipeline := Returns tt;
     fetch_and_save_stock_data := Returns (true, None);
     analyze_stock := Returns None;
     generate_dashboard_report := Returns "# dashboard";
     generate_single_stock_report := Returns "# report";
     markdown_preview := fun _ => Returns "";
     notifier_is_available := true;
     notifier_send := fun _ => Returns true |}.

(** A market review that succeeds although neither the search service nor
    the AI analyzer could be set up. *)
Definition bare_review : MarketOracle :=
  {| m_clock := sample_clock;
     m_imports := Returns tt;
     m_get_config := Returns tt;
     init_search_service := Raises "no search key";
     init_analyzer := Raises "no api key";
     write_report_file := fun _ name => Returns ("reports/" +++ name);
     review := {| new_market_analyzer := Returns tt;
                  run_daily_review := Returns (Some "Indices closed higher.");
                  has_last_overview := true;
                  format_overview_markdown := Returns "| index | close |";
                  date_str := "20260119" |};
     m_markdown_preview := fun _ => Returns "<p>Indices closed higher.</p>" |}.

(** Two tasks that started in the same second, then an older one. *)
Definition tied_tasks : Store :=
  [("600519_a", sample_task 7);
   ("000001_a", set_stage (sample_task 7) "analyze");
   ("300750_a", sample_task 3)].

(** The text that [run_market_review] returns for [bare_review]. *)
Definition bare_review_text : string :=
  "| index | close |" +++ newline +++ newline +++ "---"
    +++ newline +++ newline +++ "Indices closed higher.".

(** ** Sample files *)

(** A [.env] file with a comment, a stock list and two settings. *)
Definition sample_env : string :=
  "# watch list" +++ newline
  +++ "STOCK_LIST = 600519,000001  " +++ newline
  +++ "SCHEDULE_ENABLED=true" +++ newline
  +++ "LOG_LEVEL='INFO'" +++ newline.

Definition sample_files : Files :=
  {| env_file := Some sample_env;
     env_name := ".env";
     beside := [];
     env_write_error := None;
     refuses_new_files := false |}.
(* ================================================================== *)
(** * Properties *)
(* ================================================================== *)

(** ** Dictionaries *)

Section DictFacts.
Context {V : Type}.
Implicit Types (d : Dict V) (k : string) (v : V).

Lemma dict_get_set_same d k v : dict_get k (dict_set k v d) = Some v.
Proof.
  induction d as [|[k' v'] d IH]; simpl.
  - now rewrite String.eqb_refl.
  - destruct (String.eqb k' k) eqn:E; simpl.
    + now rewrite String.eqb_refl.
    + now rewrite E.
Qed.

Lemma dict_get_set_other d k k' v :
  k' <> k -> dict_get k' (dict_set k v d) = dict_get k' d.
Proof.
  intros Hne.
  induction d as [|[k0 v0] d IH]; simpl.
  - destruct (String.eqb k k') eqn:E; [|reflexivity].
    apply String.eqb_eq in E. congruence.
  - destruct (String.eqb k0 k) eqn:E; simpl.
    + apply String.eqb_eq in E. subst k0.
      destruct (String.eqb k k') eqn:E'; [|reflexivity].
      apply String.eqb_eq in E'. congruence.
    + now rewrite IH.
Qed.

Lemma dict_get_in_keys d k : dict_get k d <> None <-> In k (dict_keys d).
Proof.
  induction d as [|[k' v'] d IH]; simpl.
  - tauto.
  - destruct (String.eqb k' k) eqn:E.
    + apply String.eqb_eq in E. split; [now left | discriminate].
    + apply String.eqb_neq in E. rewrite IH. tauto.
Qed.

Lemma dict_keys_set_present d k v :
  dict_get k d <> None -> dict_keys (dict_set k v d) = dict_keys d.
Proof.
  induction d as [|[k' v'] d IH]; simpl.
  - congruence.
  - destruct (String.eqb k' k) eqn:E; simpl.
    + apply String.eqb_eq in E. now subst.
    + intros H. now rewrite (IH H).
Qed.

Lemma dict_keys_set_absent d k v :
  dict_get k d = None -> dict_keys (dict_set k v d) = dict_keys d ++ [k].
Proof.
  induction d as [|[k' v'] d IH]; simpl.
  - reflexivity.
  - destruct (String.eqb k' k) eqn:E; simpl.
    + discriminate.
    + intros H. now rewrite (IH H).
Qed.

Lemma dict_set_keeps_unique_keys d k v :
  NoDup (dict_keys d) -> NoDup (dict_keys (dict_set k v d)).
Proof.
  intros Hnd.
  destruct (dict_get k d) eqn:E.
  - rewrite dict_keys_set_present; [assumption | congruence].
  - rewrite dict_keys_set_absent by assumption.
    apply NoDup_app; [assumption | repeat constructor; simpl; tauto |].
    intros x Hx [<-|[]].
    apply dict_get_in_keys in Hx. congruence.
Qed.
End DictFacts.

(** ** Slices *)

Lemma slice_to_length {A} (l : list A) (stop : Z) :
  (0 <= stop)%Z -> (Z.of_nat (List.length (Py.slice_to stop l)) <= stop)%Z.
Proof.
  intros H. unfold Py.slice_to.
  destruct (Z.ltb_spec stop 0); [lia|].
  rewrite length_firstn. lia.
Qed.

Lemma slice_from_last {A} (n : nat) (l : list A) :
  (0 < n)%nat ->
  Py.slice_from (- Z.of_nat n) l = skipn (List.length l - n) l.
Proof.
  intros H. unfold Py.slice_from.
  destruct (Z.ltb_spec (- Z.of_nat n) 0); [|lia].
  now rewrite Z.opp_involutive, Nat2Z.id.
Qed.

(** ** The bounded log *)

Lemma append_bounded_spec (bound : nat) logs entry :
  (0 < bound)%nat ->
  let all := logs ++ [entry] in
  append_bounded bound logs entry = skipn (List.length all - bound) all
  /\ (List.length (append_bounded bound logs entry) <= bound)%nat.
Proof.
  intros Hb all. unfold append_bounded. fold all.
  destruct (Nat.ltb_spec bound (List.length all)) as [Hlt|Hge].
  - rewrite slice_from_last by assumption.
    split; [reflexivity|]. rewrite length_skipn. lia.
  - replace (List.length all - bound)%nat with 0%nat by lia.
    split; [reflexivity | assumption].
Qed.

Lemma append_task_log_logs tasks now tid level message stage progress task :
  dict_get tid tasks = Some task ->
  exists task',
    dict_get tid (_append_task_log tasks now tid level message stage progress)
      = Some task'
    /\ logs task' = append_bounded _max_task_logs (logs task)
                      {| ts := now; level := level; msg := message |}
    /\ status task' = status task.
Proof.
  intros Hget. unfold _append_task_log. rewrite Hget.
  eexists. split; [apply dict_get_set_same|].
  unfold append_to_task. destruct stage, progress; split; reflexivity.
Qed.

(** C2.  Whatever the length of a record's log before, after one call of
    [_append_task_log] on it the log has at most 200 entries; the new log is
    a suffix of the old log followed by the new entry (so the entries kept
    are the most recent ones, in their order), and if anything was dropped
    then exactly 200 entries are kept. *)
Theorem append_task_log_keeps_most_recent
    tasks now tid level message stage progress task :
  get_task_status tasks tid = Some task ->
  exists task',
    get_task_status
      (_append_task_log tasks now tid level message stage progress) tid
      = Some task'
    /\ (List.length (logs task') <= 200)%nat
    /\ exists dropped,
         logs task ++ [{| ts := now; level := level; msg := message |}]
           = dropped ++ logs task'
         /\ (dropped <> [] -> List.length (logs task') = 200%nat).
Proof.
  intros Hget. unfold get_task_status in *.
  destruct (append_task_log_logs tasks now tid level message stage progress
              task Hget) as (task' & Hget' & Hlogs & _).
  exists task'. split; [assumption|].
  set (entry := {| ts := now; level := level; msg := message |}) in *.
  destruct (append_bounded_spec _max_task_logs (logs task) entry) as [Heq Hlen].
  { unfold _max_task_logs. lia. }
  rewrite Hlogs. split; [exact Hlen|].
  exists (firstn (List.length (logs task ++ [entry]) - _max_task_logs)
            (logs task ++ [entry])).
  rewrite Heq. split.
  - now rewrite firstn_skipn.
  - intros Hne. rewrite length_skipn.
    destruct (Nat.le_gt_cases (List.length (logs task ++ [entry])) _max_task_logs)
      as [Hle|Hgt].
    + exfalso. apply Hne.
      replace (List.length (logs task ++ [entry]) - _max_task_logs)%nat
        with 0%nat by lia.
      reflexivity.
    + unfold _max_task_logs in *. lia.
Qed.

(** ** The order on time stamps and the listing *)

Lemma ascii_compare_lt_trans a b c :
  Ascii.compare a b = Lt -> Ascii.compare b c = Lt -> Ascii.compare a c = Lt.
Proof.
  unfold Ascii.compare. rewrite !N.compare_lt_iff. lia.
Qed.

Lemma string_compare_lt_trans s1 : forall s2 s3,
  String.compare s1 s2 = Lt -> String.compare s2 s3 = Lt ->
  String.compare s1 s3 = Lt.
Proof.
  induction s1 as [|a s1 IH]; intros [|b s2] [|c s3]; simpl;
    try congruence.
  destruct (Ascii.compare a b) eqn:Hab; try discriminate;
    destruct (Ascii.compare b c) eqn:Hbc; try discriminate; intros H12 H23.
  - apply Ascii.compare_eq_iff in Hab, Hbc. subst.
    replace (Ascii.compare c c) with Eq.
    + eauto.
    + symmetry. unfold Ascii.compare. apply N.compare_refl.
  - apply Ascii.compare_eq_iff in Hab. subst. now rewrite Hbc.
  - apply Ascii.compare_eq_iff in Hbc. subst. now rewrite Hab.
  - now rewrite (ascii_compare_lt_trans _ _ _ Hab Hbc).
Qed.

Lemma string_leb_trans s1 s2 s3 :
  String.leb s1 s2 = true -> String.leb s2 s3 = true ->
  String.leb s1 s3 = true.
Proof.
  unfold String.leb.
  destruct (String.compare s1 s2) eqn:H12; try discriminate;
    destruct (String.compare s2 s3) eqn:H23; try discriminate; intros _ _.
  - apply String.compare_eq_iff in H12. subst. now rewrite H23.
  - apply String.compare_eq_iff in H12. subst. now rewrite H23.
  - apply String.compare_eq_iff in H23. subst. now rewrite H12.
  - now rewrite (string_compare_lt_trans _ _ _ H12 H23).
Qed.

Lemma string_ltb_leb s1 s2 :
  String.ltb s1 s2 = true -> String.leb s1 s2 = true.
Proof.
  unfold String.ltb, String.leb. now destruct (String.compare s1 s2).
Qed.

Lemma string_not_ltb_leb s1 s2 :
  String.ltb s1 s2 = false -> String.leb s2 s1 = true.
Proof.
  unfold String.ltb, String.leb. rewrite (String.compare_antisym s1 s2).
  now destruct (String.compare s2 s1).
Qed.

Section SortDescFacts.
Context {A : Type} (key : A -> string).

Lemma insert_desc_length x l :
  List.length (Py.insert_desc key x l) = S (List.length l).
Proof.
  induction l as [|y l IH]; simpl; [reflexivity|].
  destruct (String.ltb (key x) (key y)); simpl; now rewrite ?IH.
Qed.

Lemma insert_desc_in x l z :
  In z (Py.insert_desc key x l) <-> z = x \/ In z l.
Proof.
  induction l as [|y l IH]; simpl.
  - intuition.
  - destruct (String.ltb (key x) (key y)); simpl; rewrite ?IH; intuition.
Qed.

Lemma insert_desc_sorted x l :
  StronglySorted (not_before key) l ->
  StronglySorted (not_before key) (Py.insert_desc key x l).
Proof.
  induction 1 as [|y l Hs IH Hall]; simpl.
  - repeat constructor.
  - destruct (String.ltb (key x) (key y)) eqn:E.
    + constructor; [assumption|].
      apply Forall_forall. intros z Hz.
      apply insert_desc_in in Hz. destruct Hz as [->|Hz].
      * apply string_ltb_leb, E.
      * rewrite Forall_forall in Hall. now apply Hall.
    + apply string_not_ltb_leb in E.
      constructor; [now constructor|].
      constructor; [exact E|].
      rewrite Forall_forall in *. intros z Hz.
      unfold not_before. eapply string_leb_trans; [apply Hall, Hz | exact E].
Qed.

Lemma sort_desc_sorted l : StronglySorted (not_before key) (Py.sort_desc key l).
Proof.
  induction l as [|x l IH]; simpl; [constructor | now apply insert_desc_sorted].
Qed.

Lemma sort_desc_length l : List.length (Py.sort_desc key l) = List.length l.
Proof.
  induction l as [|x l IH]; simpl; [reflexivity|].
  now rewrite insert_desc_length, IH.
Qed.

Lemma sort_desc_in l z : In z (Py.sort_desc key l) <-> In z l.
Proof.
  induction l as [|x l IH]; simpl; [tauto|].
  rewrite insert_desc_in, IH. intuition.
Qed.

Lemma firstn_sorted n l :
  StronglySorted (not_before key) l -> StronglySorted (not_before key) (firstn n l).
Proof.
  intros Hs. revert n.
  induction Hs as [|y l Hs IH Hall]; intros [|n]; simpl; try constructor.
  - apply IH.
  - rewrite Forall_forall in *. intros z Hz.
    apply Hall. rewrite <- (firstn_skipn n l). apply in_or_app. now left.
Qed.

Lemma sorted_nth l : StronglySorted (not_before key) l ->
  forall i j x y, (i < j)%nat ->
    nth_error l i = Some x -> nth_error l j = Some y -> not_before key x y.
Proof.
  induction 1 as [|z l Hs IH Hall]; intros i j x y Hij Hi Hj.
  - destruct i; discriminate.
  - destruct j as [|j]; [lia|]. simpl in Hj.
    destruct i as [|i]; simpl in Hi.
    + injection Hi as ->. rewrite Forall_forall in Hall.
      apply Hall. eapply nth_error_In; eassumption.
    + eapply IH; [|eassumption|eassumption]. lia.
Qed.
End SortDescFacts.

Lemma slice_to_sorted {A} (key : A -> string) stop l :
  StronglySorted (not_before key) l ->
  StronglySorted (not_before key) (Py.slice_to stop l).
Proof.
  unfold Py.slice_to. destruct (stop <? 0)%Z; apply firstn_sorted.
Qed.

(** C3.  For a limit that is not negative, [list_tasks] returns at most
    [limit] records, and of any two records of the result the earlier one
    has a start time that is at least the start time of the later one. *)
Theorem list_tasks_bounded_and_most_recent_first (tasks : Store) (limit : Z) :
  (0 <= limit)%Z ->
  (Z.of_nat (List.length (list_tasks tasks limit)) <= limit)%Z
  /\ forall i j r1 r2, (i < j)%nat ->
       nth_error (list_tasks tasks limit) i = Some r1 ->
       nth_error (list_tasks tasks limit) j = Some r2 ->
       String.leb (start_time r2) (start_time r1) = true.
Proof.
  intros Hlimit. unfold list_tasks. split.
  - now apply slice_to_length.
  - intros i j r1 r2 Hij H1 H2.
    eapply (sorted_nth start_time); [|exact Hij|exact H1|exact H2].
    apply slice_to_sorted, sort_desc_sorted.
Qed.
(** ** A job and its own record *)

Lemma apply_event_record tid ev tasks :
  match record_step ev (dict_get tid tasks) with
  | Some r' =>
      exists tasks', apply_event tid ev tasks = Some tasks'
        /\ dict_get tid tasks' = r'
        /\ forall k, k <> tid -> dict_get k tasks' = dict_get k tasks
  | None => apply_event tid ev tasks = None
  end.
Proof.
  destruct ev as [[rec|now level message stage progress|rd|p]|c]; simpl.
  - eexists. split; [reflexivity|]. split.
    + apply dict_get_set_same.
    + intros k Hk. now apply dict_get_set_other.
  - unfold _append_task_log.
    destruct (dict_get tid tasks) as [task|] eqn:E; simpl.
    + eexists. split; [reflexivity|]. split.
      * apply dict_get_set_same.
      * intros k Hk. now apply dict_get_set_other.
    + eexists. split; [reflexivity|]. split; [assumption | reflexivity].
  - destruct (dict_get tid tasks) as [task|] eqn:E; simpl; [|reflexivity].
    eexists. split; [reflexivity|]. split.
    + apply dict_get_set_same.
    + intros k Hk. now apply dict_get_set_other.
  - destruct (dict_get tid tasks) as [task|] eqn:E; simpl; [|reflexivity].
    eexists. split; [reflexivity|]. split.
    + apply dict_get_set_same.
    + intros k Hk. now apply dict_get_set_other.
  - eexists. split; [reflexivity|]. split; reflexivity.
Qed.

Lemma run_events_record tid evs : forall tasks r',
  record_run evs (dict_get tid tasks) = Some r' ->
  exists tasks', run_events tid evs tasks = Some tasks'
    /\ dict_get tid tasks' = r'
    /\ forall k, k <> tid -> dict_get k tasks' = dict_get k tasks.
Proof.
  induction evs as [|ev evs IH]; simpl; intros tasks r' H.
  - injection H as <-. eauto.
  - pose proof (apply_event_record tid ev tasks) as Hstep.
    destruct (record_step ev (dict_get tid tasks)) as [r1|]; [|discriminate].
    destruct Hstep as (tasks1 & -> & Hget & Hother).
    rewrite <- Hget in H.
    destruct (IH _ _ H) as (tasks' & Hrun & Hget' & Hother').
    exists tasks'. repeat split; try assumption.
    intros k Hk. now rewrite Hother', Hother.
Qed.

Lemma report_markdown_after_set d md :
  get_or_empty "report_markdown" (dict_set "report_markdown" (PyStr md) d) = md.
Proof. unfold get_or_empty. now rewrite dict_get_set_same. Qed.

Lemma report_markdown_after_html d md html :
  get_or_empty "report_markdown"
    (dict_set "report_html" html (dict_set "report_markdown" (PyStr md) d)) = md.
Proof.
  unfold get_or_empty.
  rewrite dict_get_set_other by discriminate. now rewrite dict_get_set_same.
Qed.

(** Case analysis along the control flow of a job: the next collaborator
    answer that the body inspects is split, and the body is run up to the
    following one. *)
Ltac oracle_answer x :=
  first [ is_var x | match x with ?f _ => is_var f end ].

Ltac next_case :=
  match goal with
  | |- context [match ?x with Returns _ => _ | Raises _ => _ end] =>
      oracle_answer x; destruct x
  | |- context [match ?x with Some _ => _ | None => _ end] =>
      oracle_answer x; destruct x
  | |- context [match ?x with (_, _) => _ end] => is_var x; destruct x
  | |- context [andb ?x _] => is_var x; destruct x
  | |- context [if ?x then _ else _] => is_var x; destruct x
  | |- context [if Py.truthy ?x then _ else _] =>
      is_var x; destruct (Py.truthy x) eqn:?
  | |- context [match ?x with SIMPLE => _ | FULL => _ end] =>
      is_var x; destruct x
  end.

Ltac unfold_script :=
  cbv [events outcome bind try_except ret raise call called locked
       append_log datetime_now _run_analysis _run_market_review fst snd].

Ltac paths :=
  unfold_script; cbn -[String.append];
  repeat (rewrite ?report_markdown_after_set, ?report_markdown_after_html;
          next_case; cbn -[String.append]).

Lemma run_analysis_status_writes o code tid rt sn :
  exists t, terminal t /\
    status_writes (events (_run_analysis o code tid rt sn)) = ["running"; t].
Proof.
  destruct o as [clk imp pipe fetch analyze dash single preview avail snd].
  unfold terminal. paths.
  all: eexists; split; [|reflexivity]; auto.
Qed.
(** ** The analysis job under partial failures *)

(** C5.  If the data-fetch step of an analysis job returns failure and the
    analyze step that follows returns a result, then the job runs to its
    end, its record has the status [completed], and the record's log holds
    an entry of level [WARNING] that was appended with the stage
    [fetch_data]. *)
Theorem fetch_failure_does_not_fail_the_job o code tid rt sn tasks :
  let job := events (_run_analysis o code tid rt sn) in
  fetch_reported_failure job = true ->
  analyze_returned_result job = true ->
  exists tasks' task,
    run_events tid job tasks = Some tasks'
    /\ get_task_status tasks' tid = Some task
    /\ status task = "completed"
    /\ exists entry,
         In entry (logs task)
         /\ level entry = "WARNING"
         /\ logged_at_stage "fetch_data" entry job.
Proof.
  intros job Hfetch Hanalyze.
  assert (exists task,
             record_run job (dict_get tid tasks) = Some (Some task)
             /\ status task = "completed"
             /\ exists entry,
                  In entry (logs task)
                  /\ level entry = "WARNING"
                  /\ logged_at_stage "fetch_data" entry job)
    as (task & Hrun & Hrest).
  { generalize (dict_get tid tasks). intros r0. subst job.
    destruct o as [clk imp pipe fetch analyze dash single preview avail snd].
    remember (events _) as job eqn:Hjob. revert Hjob.
    paths.
    all: intros ->; cbn in Hfetch, Hanalyze; try discriminate.
    all: eexists; split; [reflexivity|]; split; [reflexivity|].
    all: match goal with
         | err : option string |- _ =>
             exists {| ts := clk 4%nat; level := "WARNING";
                       msg := "行情数据获取失败：" +++ Py.str_opt err
                                +++ "（将尝试使用已有数据继续）" |}
         end.
    all: split; [simpl; tauto|]; split; [reflexivity|].
    all: exists (Some 35%Z); simpl; tauto. }
  destruct (run_events_record _ _ _ _ Hrun) as (tasks' & Hev & Hget & _).
  exists tasks', task. auto.
Qed.
(** C7.  If the analyze step of an analysis job returns a result and the
    report renderer raises, then the job runs to its end, its record has the
    status [completed], the ["report_markdown"] of the stored result is the
    empty string, and the renderer was called once. *)
Theorem render_failure_gives_empty_report o code tid rt sn tasks :
  let job := events (_run_analysis o code tid rt sn) in
  analyze_returned_result job = true ->
  render_raised job = true ->
  exists tasks' task result_data,
    run_events tid job tasks = Some tasks'
    /\ get_task_status tasks' tid = Some task
    /\ status task = "completed"
    /\ result task = Some result_data
    /\ dict_get "report_markdown" result_data = Some (PyStr "")
    /\ render_calls job = 1%nat.
Proof.
  intros job Hanalyze Hrender.
  assert (exists task result_data,
             record_run job (dict_get tid tasks) = Some (Some task)
             /\ status task = "completed"
             /\ result task = Some result_data
             /\ dict_get "report_markdown" result_data = Some (PyStr "")
             /\ render_calls job = 1%nat)
    as (task & result_data & Hrun & Hrest).
  { generalize (dict_get tid tasks). intros r0. subst job.
    destruct o as [clk imp pipe fetch analyze dash single preview avail snd].
    remember (events _) as job eqn:Hjob. revert Hjob.
    paths.
    all: intros ->; cbn in Hanalyze, Hrender; try discriminate.
    all: eexists; eexists; split; [reflexivity|]; split; [reflexivity|].
    all: split; [reflexivity|]; split; [|reflexivity].
    all: rewrite dict_get_set_other by discriminate.
    all: apply dict_get_set_same. }
  destruct (run_events_record _ _ _ _ Hrun) as (tasks' & Hev & Hget & _).
  exists tasks', task, result_data. tauto.
Qed.

(** ** The market review job *)

Ltac review_paths o :=
  unfold _run_market_review in *;
  set (rv := run_market_review _ _) in *; clearbody rv;
  destruct o as [clk imp cfg search analyzer write rev preview];
  cbn [m_clock m_imports m_get_config init_search_service init_analyzer
       m_markdown_preview] in *;
  destruct rv as [[|c rv]|];
  match goal with
  | |- context [events ?m] =>
      let job := fresh "job" in
      let Hjob := fresh "Hjob" in
      remember (events m) as job eqn:Hjob in *; revert Hjob
  end;
  paths; intros ->.

Lemma run_market_review_status_writes o tid :
  exists t, terminal t /\
    status_writes (events (_run_market_review o tid)) = ["running"; t].
Proof.
  unfold terminal. review_paths o.
  all: eexists; split; [|reflexivity]; auto.
Qed.

(** C6.  If [run_market_review] returns nothing ([None] or the empty
    string) to a market review job, then the job runs to its end and its
    record has the status [failed], an [error] that is not empty, and an
    [end_time]. *)
Theorem empty_review_fails_the_job o tid tasks :
  let job := events (_run_market_review o tid) in
  review_returned_nothing job = true ->
  exists tasks' task message stamp,
    run_events tid job tasks = Some tasks'
    /\ get_task_status tasks' tid = Some task
    /\ status task = "failed"
    /\ error task = Some message
    /\ message <> ""
    /\ end_time task = Some stamp.
Proof.
  intros job Hnothing.
  assert (exists task message stamp,
             record_run job (dict_get tid tasks) = Some (Some task)
             /\ status task = "failed"
             /\ error task = Some message
             /\ message <> ""
             /\ end_time task = Some stamp)
    as (task & message & stamp & Hrun & Hrest).
  { generalize (dict_get tid tasks). intros r0. subst job.
    review_paths o.
    all: cbn in Hnothing; try discriminate.
    all: eexists; eexists; eexists; split; [reflexivity|].
    all: split; [reflexivity|]; split; [reflexivity|].
    all: split; [discriminate | reflexivity]. }
  destruct (run_events_record _ _ _ _ Hrun) as (tasks' & Hev & Hget & _).
  exists tasks', task, message, stamp. tauto.
Qed.

(** [run_market_review] itself never returns the empty string: it returns
    the non-empty report, or [None]. *)
Lemma run_market_review_none_or_text notifier o :
  match run_market_review notifier o with
  | Some text => Py.truthy text = true
  | None => True
  end.
Proof.
  unfold run_market_review, and_then.
  destruct (new_market_analyzer o); [|exact I].
  destruct (run_daily_review o) as [[report|]|]; try exact I.
  destruct (Py.truthy report) eqn:Hreport; [|exact I].
  destruct (save_report_to_file _ _ _); [|exact I].
  destruct (if is_available notifier then _ else _); [|exact I].
  destruct (Py.truthy (if has_last_overview o then _ else _)) eqn:Hsnap;
    [|exact Hreport].
  destruct (if has_last_overview o then _ else _); [discriminate | reflexivity].
Qed.
(** ** The service under concurrent jobs *)

Lemma job_status_writes tid job :
  is_job tid job ->
  exists t, terminal t /\ status_writes job = ["running"; t].
Proof.
  intros [(o & code & rt & sn & ->)|(o & ->)].
  - apply run_analysis_status_writes.
  - apply run_market_review_status_writes.
Qed.

Lemma current_status_cases tasks tid :
  current_status tasks tid = [] \/ exists x, current_status tasks tid = [x].
Proof.
  unfold current_status. destruct (get_task_status tasks tid); eauto.
Qed.

Lemma current_status_absent tasks tid :
  dict_get tid tasks = None -> current_status tasks tid = [].
Proof.
  intros H. unfold current_status, get_task_status. now rewrite H.
Qed.

Lemma apply_event_status tid ev tasks tasks' :
  apply_event tid ev tasks = Some tasks' ->
  match status_write ev with
  | Some w => current_status tasks' tid = [w]
  | None => current_status tasks' tid = current_status tasks tid
  end.
Proof.
  intros H. pose proof (apply_event_record tid ev tasks) as R.
  destruct (record_step ev (dict_get tid tasks)) as [r'|] eqn:E; [|congruence].
  destruct R as (t1 & H1 & Hget & _).
  rewrite H in H1. injection H1 as <-.
  unfold current_status, get_task_status. rewrite Hget.
  destruct ev as [[rec|now level message stage progress|rd|p]|c]; simpl in *.
  - now injection E as <-.
  - injection E as <-. destruct (dict_get tid tasks) as [task|]; simpl; [|reflexivity].
    unfold append_to_task. now destruct stage, progress.
  - destruct (dict_get tid tasks) as [task|]; simpl in *; [|discriminate].
    now injection E as <-.
  - destruct (dict_get tid tasks) as [task|]; simpl in *; [|discriminate].
    now injection E as <-.
  - now injection E as <-.
Qed.

Lemma apply_event_other tid ev tasks tasks' k :
  apply_event tid ev tasks = Some tasks' -> k <> tid ->
  dict_get k tasks' = dict_get k tasks.
Proof.
  intros H Hk. pose proof (apply_event_record tid ev tasks) as R.
  destruct (record_step ev (dict_get tid tasks)); [|congruence].
  destruct R as (t1 & H1 & _ & Hother).
  rewrite H in H1. injection H1 as <-. now apply Hother.
Qed.

Lemma current_status_other tid ev tasks tasks' k :
  apply_event tid ev tasks = Some tasks' -> k <> tid ->
  current_status tasks' k = current_status tasks k.
Proof.
  intros H Hk. unfold current_status, get_task_status.
  now rewrite (apply_event_other _ _ _ _ _ H Hk).
Qed.

Lemma lifecycle_running_differs x w ws :
  lifecycle (x :: w :: ws) -> x = "running" /\ terminal w /\ ws = [] /\ x <> w.
Proof.
  intros (t & Ht & [H|H]); [|discriminate].
  injection H as -> -> ->. repeat split; try assumption.
  destruct Ht as [->| ->]; discriminate.
Qed.

Lemma lifecycle_after_write c w ws :
  (c = [] \/ exists x, c = [x]) ->
  lifecycle (c ++ w :: ws) -> lifecycle (w :: ws).
Proof.
  intros [->|(x & ->)] H; [exact H|].
  apply lifecycle_running_differs in H. destruct H as (_ & Ht & -> & _).
  exists w. auto.
Qed.

Lemma step_inv s s' :
  step s s' ->
  (exists tid job, is_job tid job /\ s' = executor_submit s tid job)
  \/ (exists before tid ev todo after tasks',
        executor s = before ++ {| th_id := tid; th_todo := ev :: todo |} :: after
        /\ apply_event tid ev (_tasks s) = Some tasks'
        /\ s' = {| _max_workers := _max_workers s;
                   _tasks := tasks';
                   executor := before ++ {| th_id := tid; th_todo := todo |} :: after |}).
Proof.
  intros [s0 o stamp code rt src sn | s0 o stamp | s0 before tid ev todo after tasks' He Ha].
  - left. eexists. eexists. split; [|reflexivity]. left. eauto.
  - left. eexists. eexists. split; [|reflexivity]. right. eauto.
  - right. exists before, tid, ev, todo, after, tasks'. auto.
Qed.

Lemma submitted_ids_submit s tid job :
  submitted_ids (executor_submit s tid job) = submitted_ids s ++ [tid].
Proof. unfold submitted_ids. simpl. now rewrite map_app. Qed.

Lemma submitted_ids_step s s' :
  step s s' -> exists more, submitted_ids s' = submitted_ids s ++ more.
Proof.
  intros H. apply step_inv in H.
  destruct H as [(tid & job & _ & ->)
                |(before & tid & ev & todo & after & tasks' & He & _ & ->)].
  - exists [tid]. apply submitted_ids_submit.
  - exists []. unfold submitted_ids. simpl. rewrite He, app_nil_r.
    now rewrite !map_app.
Qed.

Lemma last_cons {A} (x : A) tr d : last (x :: tr) d = last tr x.
Proof.
  revert x d. induction tr as [|a tr IH]; intros x d; [reflexivity|].
  change (last (x :: a :: tr) d) with (last (a :: tr) d).
  change (last (a :: tr) x) with (last (a :: tr) x).
  now rewrite !IH.
Qed.

Lemma submitted_ids_execution tr : forall s,
  execution s tr ->
  exists more, submitted_ids (last tr s) = submitted_ids s ++ more.
Proof.
  induction tr as [|s' tr IH]; intros s H.
  - exists []. simpl. now rewrite app_nil_r.
  - destruct H as [Hstep Hexec].
    destruct (submitted_ids_step _ _ Hstep) as (m1 & E1).
    destruct (IH _ Hexec) as (m2 & E2).
    exists (m1 ++ m2).
    now rewrite last_cons, E2, E1, app_assoc.
Qed.

Lemma unique_ids_earlier s tr :
  execution s tr -> NoDup (submitted_ids (last tr s)) ->
  NoDup (submitted_ids s).
Proof.
  intros H Hnd. destruct (submitted_ids_execution _ _ H) as (more & E).
  rewrite E in Hnd. eapply NoDup_app_remove_r, Hnd.
Qed.

Lemma unique_id_in_pool (before after : list Thread) tid th :
  NoDup (map th_id before ++ tid :: map th_id after) ->
  In th (before ++ after) -> th_id th <> tid.
Proof.
  intros Hnd Hin Heq. apply NoDup_remove_2 in Hnd. apply Hnd.
  rewrite <- map_app, <- Heq. now apply in_map.
Qed.

Lemma step_ok s s' :
  service_ok s -> step s s' -> NoDup (submitted_ids s') -> service_ok s'.
Proof.
  intros [Hth Hkeys] Hstep Hnd. apply step_inv in Hstep.
  destruct Hstep as [(tid & job & Hjob & ->)
                    |(before & tid & ev & todo & after & tasks' & He & Ha & ->)].
  - rewrite submitted_ids_submit in Hnd. split.
    + intros th Hin. simpl in Hin. apply in_app_or in Hin.
      destruct Hin as [Hin|[<-|[]]]; [now apply Hth|].
      unfold thread_ok. simpl.
      rewrite current_status_absent.
      * destruct (job_status_writes _ _ Hjob) as (t & Ht & ->).
        exists t. auto.
      * destruct (dict_get tid (_tasks s)) eqn:E; [|reflexivity].
        exfalso. apply NoDup_remove_2 in Hnd. apply Hnd.
        rewrite app_nil_r. apply Hkeys. congruence.
    + intros k Hk. rewrite submitted_ids_submit. apply in_or_app. left.
      now apply Hkeys.
  - unfold submitted_ids in *. simpl in *. rewrite map_app in Hnd. simpl in Hnd.
    split.
    + intros th Hin. simpl in Hin. apply in_app_or in Hin.
      assert (Hold : In th (before ++ after) -> thread_ok tasks' th).
      { intros Hin'. unfold thread_ok.
        rewrite (current_status_other _ _ _ _ _ Ha).
        - apply Hth. rewrite He. apply in_app_or in Hin'. apply in_or_app.
          simpl. tauto.
        - eapply unique_id_in_pool; eassumption. }
      destruct Hin as [Hin|[<-|Hin]].
      * apply Hold, in_or_app. now left.
      * assert (Hcur : thread_ok (_tasks s) {| th_id := tid; th_todo := ev :: todo |}).
        { apply Hth. rewrite He. apply in_or_app. simpl. tauto. }
        unfold thread_ok in *. simpl in *.
        pose proof (apply_event_status _ _ _ _ Ha) as Hst.
        destruct (status_write ev) as [w|].
        -- rewrite Hst. simpl.
           eapply lifecycle_after_write; [apply current_status_cases | exact Hcur].
        -- now rewrite Hst.
      * apply Hold, in_or_app. now right.
    + intros k Hk. unfold submitted_ids. simpl in *. rewrite map_app. simpl.
      destruct (String.eqb k tid) eqn:E.
      * apply String.eqb_eq in E. subst k. apply in_or_app. simpl. tauto.
      * apply String.eqb_neq in E.
        rewrite (apply_event_other _ _ _ _ _ Ha E) in Hk.
        apply Hkeys in Hk. rewrite He, map_app in Hk. exact Hk.
Qed.

Lemma new_service_ok : service_ok new_service.
Proof. split; simpl; [tauto | congruence]. Qed.

Lemma execution_ok tr : forall s,
  service_ok s -> execution s tr -> NoDup (submitted_ids (last tr s)) ->
  forall s', In s' tr -> service_ok s'.
Proof.
  induction tr as [|s1 tr IH]; intros s Hok Hexec Hnd s' Hin; [destruct Hin|].
  destruct Hexec as [Hstep Hexec]. rewrite last_cons in Hnd.
  assert (Hok1 : service_ok s1).
  { eapply step_ok; [exact Hok | exact Hstep |].
    eapply unique_ids_earlier; eassumption. }
  destruct Hin as [<-|Hin]; [exact Hok1|].
  eapply IH; eassumption.
Qed.
(** ** The sequence of statuses of a record *)

Lemma changes_same x l : changes (x :: x :: l) = changes (x :: l).
Proof.
  change (changes (x :: x :: l))
    with (if String.eqb x x then changes (x :: l) else x :: changes (x :: l)).
  now rewrite String.eqb_refl.
Qed.

Lemma changes_differ x y l : x <> y -> changes (x :: y :: l) = x :: changes (y :: l).
Proof.
  intros H.
  change (changes (x :: y :: l))
    with (if String.eqb x y then changes (y :: l) else x :: changes (y :: l)).
  apply String.eqb_neq in H. now rewrite H.
Qed.

Lemma is_prefix_app l m : is_prefix l (l ++ m) = true.
Proof.
  induction l as [|x l IH]; simpl; [reflexivity|].
  now rewrite String.eqb_refl.
Qed.

Lemma prefix_stutter c rest F :
  (c = [] \/ exists x, c = [x]) ->
  is_prefix (changes (c ++ rest)) F = true ->
  is_prefix (changes (c ++ c ++ rest)) F = true.
Proof.
  intros [->|(x & ->)] H; [exact H|].
  simpl app in *. now rewrite changes_same.
Qed.

Lemma prefix_write c w rest ws :
  (c = [] \/ exists x, c = [x]) ->
  lifecycle (c ++ w :: ws) ->
  is_prefix (changes (w :: rest)) (w :: ws) = true ->
  is_prefix (changes (c ++ w :: rest)) (c ++ w :: ws) = true.
Proof.
  intros [->|(x & ->)] Hl H; [exact H|].
  simpl app in *. apply lifecycle_running_differs in Hl.
  destruct Hl as (_ & _ & _ & Hne).
  rewrite (changes_differ _ _ _ Hne). simpl is_prefix.
  now rewrite String.eqb_refl.
Qed.

Lemma current_status_same (tasks tasks' : Store) tid :
  dict_get tid tasks' = dict_get tid tasks ->
  current_status tasks' tid = current_status tasks tid.
Proof. intros H. unfold current_status, get_task_status. now rewrite H. Qed.

Lemma step_thread s s' th :
  step s s' -> NoDup (submitted_ids s') -> In th (executor s) ->
  exists th', In th' (executor s') /\ th_id th' = th_id th /\
    ((th_todo th' = th_todo th
      /\ dict_get (th_id th) (_tasks s') = dict_get (th_id th) (_tasks s))
     \/ (exists ev, th_todo th = ev :: th_todo th'
           /\ apply_event (th_id th) ev (_tasks s) = Some (_tasks s'))).
Proof.
  intros Hstep Hnd Hin. apply step_inv in Hstep.
  destruct Hstep as [(tid & job & Hjob & ->)
                    |(before & tid & ev & todo & after & tasks' & He & Ha & ->)].
  - exists th. split; [simpl; apply in_or_app; now left|].
    split; [reflexivity|]. left. split; reflexivity.
  - unfold submitted_ids in Hnd. simpl in Hnd. rewrite map_app in Hnd.
    simpl in Hnd. rewrite He in Hin. apply in_app_or in Hin.
    assert (Hold : In th (before ++ after) ->
              In th (before ++ {| th_id := tid; th_todo := todo |} :: after)
              /\ dict_get (th_id th) tasks' = dict_get (th_id th) (_tasks s)).
    { intros Hin'. split.
      - apply in_app_or in Hin'. apply in_or_app. simpl. tauto.
      - eapply apply_event_other; [exact Ha|].
        eapply unique_id_in_pool; eassumption. }
    destruct Hin as [Hin|[<-|Hin]].
    + destruct Hold as [H1 H2]; [apply in_or_app; now left|].
      exists th. simpl. tauto.
    + exists {| th_id := tid; th_todo := todo |}. simpl.
      split; [apply in_or_app; simpl; tauto|]. split; [reflexivity|].
      right. exists ev. auto.
    + destruct Hold as [H1 H2]; [apply in_or_app; now right|].
      exists th. simpl. tauto.
Qed.

Lemma step_new_thread s s' tid :
  step s s' -> ~ In tid (submitted_ids s) -> In tid (submitted_ids s') ->
  _tasks s' = _tasks s
  /\ exists th', In th' (executor s') /\ th_id th' = tid
       /\ exists t, terminal t /\ status_writes (th_todo th') = ["running"; t].
Proof.
  intros Hstep Hnot Hin. apply step_inv in Hstep.
  destruct Hstep as [(tid0 & job & Hjob & ->)
                    |(before & tid0 & ev & todo & after & tasks' & He & Ha & ->)].
  - rewrite submitted_ids_submit in Hin. apply in_app_or in Hin.
    destruct Hin as [Hin|[->|[]]]; [contradiction|].
    split; [reflexivity|].
    exists {| th_id := tid; th_todo := job |}. simpl.
    split; [apply in_or_app; simpl; tauto|]. split; [reflexivity|].
    now apply job_status_writes with (tid := tid).
  - exfalso. apply Hnot. unfold submitted_ids in *. simpl in Hin.
    rewrite He. rewrite map_app in *. exact Hin.
Qed.

Lemma not_submitted_absent s tid :
  service_ok s -> ~ In tid (submitted_ids s) ->
  current_status (_tasks s) tid = [].
Proof.
  intros [_ Hkeys] Hnot. apply current_status_absent.
  destruct (dict_get tid (_tasks s)) eqn:E; [|reflexivity].
  exfalso. apply Hnot, Hkeys. congruence.
Qed.

Lemma sequence_follows_lifecycle tr : forall s,
  service_ok s -> execution s tr -> NoDup (submitted_ids (last tr s)) ->
  forall tid,
    (forall th, In th (executor s) -> th_id th = tid ->
       is_prefix (status_sequence tid (s :: tr))
         (current_status (_tasks s) tid ++ status_writes (th_todo th)) = true)
    /\ (~ In tid (submitted_ids s) ->
        exists t, terminal t
          /\ is_prefix (status_sequence tid (s :: tr)) ["running"; t] = true).
Proof.
  induction tr as [|s' tr IH]; intros s Hok Hexec Hnd tid.
  - unfold status_sequence, observed_statuses. simpl. rewrite app_nil_r. split.
    + intros th _ _.
      destruct (current_status_cases (_tasks s) tid) as [->|(x & ->)];
        simpl; [reflexivity|]. now rewrite String.eqb_refl.
    + intros Hnot. rewrite (not_submitted_absent _ _ Hok Hnot).
      exists "completed". split; [now left | reflexivity].
  - destruct Hexec as [Hstep Hexec]. rewrite last_cons in Hnd.
    assert (Hnd' : NoDup (submitted_ids s'))
      by (eapply unique_ids_earlier; eassumption).
    assert (Hok' : service_ok s') by (eapply step_ok; eassumption).
    destruct (IH s' Hok' Hexec Hnd tid) as [IH1 IH2].
    unfold status_sequence, observed_statuses in *. simpl flat_map in *.
    set (rest := flat_map (fun s0 => current_status (_tasks s0) tid) tr) in *.
    split.
    + intros th Hin Hid.
      assert (Hlife : lifecycle (current_status (_tasks s) tid
                                   ++ status_writes (th_todo th)))
        by (rewrite <- Hid; apply Hok, Hin).
      destruct (step_thread _ _ _ Hstep Hnd' Hin)
        as (th' & Hin' & Hid' & Hcase).
      rewrite Hid in *. specialize (IH1 th' Hin' Hid').
      destruct Hcase as [[Htodo Hcur]|(ev & Htodo & Ha)].
      * apply current_status_same in Hcur.
        rewrite Htodo, Hcur in IH1. rewrite Hcur.
        apply prefix_stutter; [apply current_status_cases | exact IH1].
      * pose proof (apply_event_status _ _ _ _ Ha) as Hst.
        rewrite Htodo in *. simpl status_writes in *.
        destruct (status_write ev) as [w|].
        -- rewrite Hst in *.
           apply prefix_write; [apply current_status_cases | exact Hlife | exact IH1].
        -- rewrite Hst in *.
           apply prefix_stutter; [apply current_status_cases | exact IH1].
    + intros Hnot. rewrite (not_submitted_absent _ _ Hok Hnot). simpl app.
      destruct (in_dec string_dec tid (submitted_ids s')) as [Hin|Hnin].
      * destruct (step_new_thread _ _ _ Hstep Hnot Hin)
          as (Htasks & th' & Hin' & Hid' & t & Ht & Hw).
        specialize (IH1 th' Hin' Hid'). rewrite Hw in IH1.
        rewrite Htasks, (not_submitted_absent _ _ Hok Hnot) in IH1.
        exists t. split; [exact Ht|].
        rewrite Htasks, (not_submitted_absent _ _ Hok Hnot). exact IH1.
      * apply IH2, Hnin.
Qed.

(** C1, as the code has it.  Along every run of the service from its initial
    state in which the submitted jobs have pairwise different task ids, the
    sequence of values that a record's ["status"] takes is a prefix of
    [running], [completed] or of [running], [failed]: a record is created
    in the state [running] (the state [pending] is never stored), and a
    terminal state is never left. *)
Theorem status_runs_to_one_terminal_state tr tid :
  execution new_service tr ->
  NoDup (submitted_ids (last tr new_service)) ->
  is_prefix (status_sequence tid tr) ["running"; "completed"] = true
  \/ is_prefix (status_sequence tid tr) ["running"; "failed"] = true.
Proof.
  intros Hexec Hnd.
  destruct (sequence_follows_lifecycle tr new_service new_service_ok Hexec Hnd tid)
    as [_ H].
  destruct H as (t & [->| ->] & Hp); [simpl; tauto | | ]; [left|right]; exact Hp.
Qed.
(** ** Runs computed by a schedule *)

Lemma nth_error_middle {A} (l : list A) : forall i a,
  nth_error l i = Some a -> l = firstn i l ++ a :: skipn (S i) l.
Proof.
  induction l as [|x l IH]; intros [|i] a H; try discriminate.
  - now injection H as ->.
  - simpl in *. f_equal. now apply IH.
Qed.

Lemma worker_step_sound i s s' : worker_step i s = Some s' -> step s s'.
Proof.
  unfold worker_step. intros H.
  destruct (nth_error (executor s) i) as [[tid todo]|] eqn:Hnth; [|discriminate].
  simpl in H. destruct todo as [|ev todo]; [discriminate|].
  destruct (apply_event tid ev (_tasks s)) as [tasks'|] eqn:Ha; [|discriminate].
  injection H as <-.
  apply (step_worker s (firstn i (executor s)) tid ev todo
           (skipn (S i) (executor s)) tasks'); [|exact Ha].
  exact (nth_error_middle _ i _ Hnth).
Qed.

Lemma run_schedule_execution sched : forall s, execution s (run_schedule sched s).
Proof.
  induction sched as [|i sched IH]; intros s; simpl; [exact I|].
  destruct (worker_step i s) as [s'|] eqn:H; [|apply IH].
  split; [exact (worker_step_sound i s s' H) | apply IH].
Qed.

Lemma sample_run_execution : execution new_service sample_run.
Proof.
  unfold sample_run. split; [apply step_submit_analysis|].
  split; [apply step_submit_market_review | apply run_schedule_execution].
Qed.

Lemma sample_run_ids :
  submitted_ids (last sample_run new_service)
  = ["600519_20260119_103000_000001"; "market_review_20260119_103000_000002"].
Proof. vm_compute. reflexivity. Qed.

Lemma sample_run_unique_ids : NoDup (submitted_ids (last sample_run new_service)).
Proof.
  rewrite sample_run_ids.
  constructor; [simpl; intros [H|[]]; discriminate H|].
  constructor; [simpl; tauto | constructor].
Qed.

(** C1, as the spec states it, fails: in the sample run the status of the
    analysis job goes through [running] and [completed] and that of the
    market review through [running] and [failed]; neither sequence is a
    prefix of a sequence that begins with [pending]. *)
Lemma status_is_never_pending :
  execution new_service sample_run
  /\ status_sequence "600519_20260119_103000_000001" sample_run
     = ["running"; "completed"]
  /\ status_sequence "market_review_20260119_103000_000002" sample_run
     = ["running"; "failed"]
  /\ ~ (is_prefix (status_sequence "600519_20260119_103000_000001" sample_run)
          ["pending"; "running"; "completed"] = true
        \/ is_prefix (status_sequence "600519_20260119_103000_000001" sample_run)
             ["pending"; "running"; "failed"] = true).
Proof.
  split; [exact sample_run_execution|].
  split; [vm_compute; reflexivity|].
  split; [vm_compute; reflexivity|].
  intros [H|H]; vm_compute in H; discriminate H.
Qed.

Lemma status_runs_to_one_terminal_state_witness :
  is_prefix (status_sequence "600519_20260119_103000_000001" sample_run)
    ["running"; "completed"] = true
  \/ is_prefix (status_sequence "600519_20260119_103000_000001" sample_run)
       ["running"; "failed"] = true.
Proof.
  apply (status_runs_to_one_terminal_state sample_run
           "600519_20260119_103000_000001").
  - exact sample_run_execution.
  - exact sample_run_unique_ids.
Defined.
(** ** Creation of a record *)

Lemma run_analysis_starts_with_create o code tid rt sn :
  exists rec rest,
    events (_run_analysis o code tid rt sn) = Locked (ACreate rec) :: rest
    /\ task_id rec = tid /\ status rec = "running" /\ logs rec = [].
Proof.
  destruct o as [clk imp pipe fetch analyze dash single preview avail snd].
  paths.
  all: eexists; eexists; split; [reflexivity|]; repeat split.
Qed.

Lemma run_market_review_starts_with_create o tid :
  exists rec rest,
    events (_run_market_review o tid) = Locked (ACreate rec) :: rest
    /\ task_id rec = tid /\ status rec = "running" /\ logs rec = [].
Proof.
  review_paths o.
  all: eexists; eexists; split; [reflexivity|]; repeat split.
Qed.

Lemma job_starts_with_create tid job :
  is_job tid job ->
  exists rec rest,
    job = Locked (ACreate rec) :: rest
    /\ task_id rec = tid /\ status rec = "running" /\ logs rec = [].
Proof.
  intros [(o & code & rt & sn & ->)|(o & ->)].
  - apply run_analysis_starts_with_create.
  - apply run_market_review_starts_with_create.
Qed.

(** C8, as the spec states it, fails: the task map holds a finished record
    under the id ["600519_00"]; a job with the same id starts, and its
    creation step replaces that record by a fresh one in the state
    [running]. *)
Lemma creation_overwrites_existing_record :
  let tid := "600519_00" in
  let tasks := sample_tasks 1 in
  let job := events (_run_analysis healthy "600519" tid SIMPLE false) in
  exists old new rest tasks',
    get_task_status tasks tid = Some old
    /\ job = Locked (ACreate new) :: rest
    /\ apply_event tid (Locked (ACreate new)) tasks = Some tasks'
    /\ get_task_status tasks' tid = Some new
    /\ status old = "completed" /\ status new = "running"
    /\ get_task_status tasks' tid <> get_task_status tasks tid.
Proof.
  do 4 eexists.
  split; [vm_compute; reflexivity|].
  split; [vm_compute; reflexivity|].
  split; [vm_compute; reflexivity|].
  split; [vm_compute; reflexivity|].
  split; [reflexivity|]. split; [reflexivity|].
  vm_compute. discriminate.
Qed.

(** C8, as the code has it.  The first step of a job stores a fresh record
    under the job's id, in the state [running] and with an empty log,
    whether or not the id was in the task map: a record that was there is
    replaced.  No other record changes, and the map still has one record
    per id; if the id was there, the ids of the map and their order are
    the same. *)
Theorem creation_replaces_the_record tid job (tasks : Store) :
  is_job tid job ->
  NoDup (dict_keys tasks) ->
  exists rec rest tasks',
    job = Locked (ACreate rec) :: rest
    /\ task_id rec = tid /\ status rec = "running" /\ logs rec = []
    /\ apply_event tid (Locked (ACreate rec)) tasks = Some tasks'
    /\ get_task_status tasks' tid = Some rec
    /\ (forall k, k <> tid -> get_task_status tasks' k = get_task_status tasks k)
    /\ NoDup (dict_keys tasks')
    /\ (get_task_status tasks tid <> None -> dict_keys tasks' = dict_keys tasks).
Proof.
  intros Hjob Hnd.
  destruct (job_starts_with_create _ _ Hjob) as (rec & rest & -> & Hid & Hst & Hlogs).
  exists rec, rest, (dict_set tid rec tasks).
  repeat split; try assumption.
  - apply dict_get_set_same.
  - intros k Hk. now apply dict_get_set_other.
  - now apply dict_set_keeps_unique_keys.
  - apply dict_keys_set_present.
Qed.

Lemma creation_replaces_the_record_witness :
  exists rec rest tasks',
    events (_run_analysis healthy "600519" "600519_00" SIMPLE false)
    = Locked (ACreate rec) :: rest
    /\ task_id rec = "600519_00" /\ status rec = "running" /\ logs rec = []
    /\ apply_event "600519_00" (Locked (ACreate rec)) (sample_tasks 2)
       = Some tasks'
    /\ get_task_status tasks' "600519_00" = Some rec
    /\ (forall k, k <> "600519_00" ->
          get_task_status tasks' k = get_task_status (sample_tasks 2) k)
    /\ NoDup (dict_keys tasks')
    /\ (get_task_status (sample_tasks 2) "600519_00" <> None ->
        dict_keys tasks' = dict_keys (sample_tasks 2)).
Proof.
  apply (creation_replaces_the_record "600519_00"
           (events (_run_analysis healthy "600519" "600519_00" SIMPLE false))
           (sample_tasks 2)).
  - left. exists healthy, "600519", SIMPLE, false. reflexivity.
  - vm_compute.
    constructor; [simpl; intros [H|[]]; discriminate H|].
    constructor; [simpl; tauto | constructor].
Defined.

(** ** Submission *)

Lemma current_status_none tasks tid :
  current_status tasks tid = [] -> get_task_status tasks tid = None.
Proof.
  unfold current_status. now destruct (get_task_status tasks tid).
Qed.

Lemma last_in {A} (tr : list A) d : tr <> [] -> In (last tr d) tr.
Proof.
  induction tr as [|x tr IH]; [congruence|]. intros _.
  destruct tr as [|y tr]; [now left|].
  right. apply IH. discriminate.
Qed.

Lemma reachable_ok s :
  reachable s -> NoDup (submitted_ids s) -> service_ok s.
Proof.
  intros (tr & Hexec & Hlast) Hnd.
  destruct tr as [|s1 tr].
  - simpl in Hlast. subst s. apply new_service_ok.
  - apply (execution_ok (s1 :: tr) new_service new_service_ok Hexec).
    + now rewrite Hlast.
    + rewrite <- Hlast. apply last_in. discriminate.
Qed.

Lemma not_started_absent s th t :
  service_ok s -> In th (executor s) ->
  terminal t -> status_writes (th_todo th) = ["running"; t] ->
  get_task_status (_tasks s) (th_id th) = None.
Proof.
  intros [Hth _] Hin Ht Hw. apply current_status_none.
  specialize (Hth th Hin). unfold thread_ok in Hth. rewrite Hw in Hth.
  destruct (current_status_cases (_tasks s) (th_id th)) as [H|(x & H)];
    [exact H|].
  rewrite H in Hth. destruct Hth as (t' & _ & [E|E]); discriminate E.
Qed.

Lemma new_service_reachable : reachable new_service.
Proof. exists []. split; [exact I | reflexivity]. Qed.

(** ** The handlers *)

Lemma lower_empty s : Py.lower s = EmptyString -> s = EmptyString.
Proof. destruct s; [reflexivity | discriminate]. Qed.

(** C10.  If the subject code of a request, stripped and lowered as the
    handler does, is six digits of which the first two are [01], then
    [handle_analysis] answers 400 with the message for off-market fund codes
    and leaves the service as it was: no job is submitted. *)
Theorem off_market_fund_code_is_rejected
    from_str s o stamp (query : Query) code0 others :
  let code := Py.lower (Py.strip code0) in
  query_get query "code" [] = code0 :: others ->
  String.length code = 6%nat ->
  all_digits code = true ->
  String.prefix "01" code = true ->
  is_a_stock code = true
  /\ handle_analysis from_str s o stamp query
     = (Returns (JsonResponse
                   (BodyError ("暂不支持场外基金代码: " +++ code
                      +++ "（请使用场内 ETF 代码，如 510300 / 159915）"))
                   BAD_REQUEST), s).
Proof.
  intros code Hq Hlen Hdigits Hprefix.
  assert (Hnonempty : Py.truthy (Py.strip code0) = true).
  { destruct (Py.strip code0) eqn:E; [|reflexivity].
    exfalso. unfold code in Hlen. rewrite ?E in Hlen. discriminate Hlen. }
  assert (Hmatch : is_a_stock code = true /\ is_otc_fund code = true).
  { clearbody code.
    destruct code as [|c1 [|c2 [|c3 [|c4 [|c5 [|c6 [|c7 rest]]]]]]];
      try discriminate Hlen.
    simpl in Hdigits. cbn [String.prefix] in Hprefix.
    destruct (Ascii.ascii_dec "0" c1) as [<-|]; [|discriminate Hprefix].
    destruct (Ascii.ascii_dec "1" c2) as [<-|]; [|discriminate Hprefix].
    apply andb_prop in Hdigits. destruct Hdigits as [_ Hdigits].
    apply andb_prop in Hdigits. destruct Hdigits as [_ Hdigits].
    apply andb_prop in Hdigits. destruct Hdigits as [H3 Hdigits].
    apply andb_prop in Hdigits. destruct Hdigits as [H4 Hdigits].
    apply andb_prop in Hdigits. destruct Hdigits as [H5 Hdigits].
    apply andb_prop in Hdigits. destruct Hdigits as [H6 _].
    unfold is_a_stock, is_otc_fund. simpl.
    rewrite H3, H4, H5, H6. split; reflexivity. }
  destruct Hmatch as [Ha Hotc]. split; [exact Ha|].
  unfold handle_analysis. rewrite Hq, Hnonempty. simpl negb. cbv iota.
  fold code. now rewrite Ha, Hotc.
Qed.

Lemma off_market_fund_code_is_rejected_witness :
  is_a_stock (Py.lower (Py.strip " 012345 ")) = true
  /\ handle_analysis (fun _ => SIMPLE) busy_service healthy
       "20260119_103000_000001" [("code", [" 012345 "])]
     = (Returns (JsonResponse
                   (BodyError ("暂不支持场外基金代码: "
                      +++ Py.lower (Py.strip " 012345 ")
                      +++ "（请使用场内 ETF 代码，如 510300 / 159915）"))
                   BAD_REQUEST), busy_service).
Proof.
  apply (off_market_fund_code_is_rejected (fun _ => SIMPLE) busy_service
           healthy "20260119_103000_000001" [("code", [" 012345 "])]
           " 012345 " []); reflexivity.
Defined.

(** A six-digit code is the code that the handler checks: stripping and
    lowering leave digits alone. *)
Lemma digit_is_plain c :
  Py.is_digit c = true ->
  Py.is_space c = false /\ Py.to_lower c = c.
Proof.
  destruct c as [[] [] [] [] [] [] [] []]; try discriminate; intros _;
    split; reflexivity.
Qed.

Lemma lstrip_digits code : all_digits code = true -> Py.lstrip code = code.
Proof.
  destruct code as [|c code]; [reflexivity|]. simpl. intros H.
  apply andb_prop in H. destruct H as [Hc _].
  now rewrite (proj1 (digit_is_plain c Hc)).
Qed.

Lemma rstrip_digits code : all_digits code = true -> Py.rstrip code = code.
Proof.
  induction code as [|c code IH]; [reflexivity|]. simpl. intros H.
  apply andb_prop in H. destruct H as [Hc H].
  rewrite (IH H). destruct code; [|reflexivity].
  now rewrite (proj1 (digit_is_plain c Hc)).
Qed.

Lemma lower_digits code : all_digits code = true -> Py.lower code = code.
Proof.
  unfold Py.lower.
  induction code as [|c code IH]; [reflexivity|]. simpl. intros H.
  apply andb_prop in H. destruct H as [Hc H].
  now rewrite (IH H), (proj2 (digit_is_plain c Hc)).
Qed.

Lemma digits_are_normal code :
  all_digits code = true -> Py.lower (Py.strip code) = code.
Proof.
  intros H. unfold Py.strip.
  now rewrite (lstrip_digits _ H), (rstrip_digits _ H), (lower_digits _ H).
Qed.

(** A [limit] that [int] does not accept is replaced by 20, and then at most
    20 records are returned. *)
Lemma non_numeric_limit_defaults_to_20 s (query : Query) limit0 others :
  query_get query "limit" ["20"] = limit0 :: others ->
  Py.int limit0 = None ->
  handle_tasks s query
  = Returns (JsonResponse (BodyTasks (list_tasks (_tasks s) 20)) OK)
  /\ (List.length (list_tasks (_tasks s) 20) <= 20)%nat.
Proof.
  intros Hq Hint. unfold handle_tasks. rewrite Hq, Hint. split; [reflexivity|].
  pose proof (slice_to_length
                (Py.sort_desc start_time (dict_values (_tasks s))) 20) as H.
  unfold list_tasks. lia.
Qed.


(** C4 on the code: with 22 tasks in the map, [GET /tasks?limit=-1] answers
    with 21 records; the limit was neither replaced by 20 nor refused. *)
Theorem negative_limit_returns_more_than_20 :
  exists tasks,
    handle_tasks busy_service [("limit", ["-1"])]
    = Returns (JsonResponse (BodyTasks tasks) OK)
    /\ List.length tasks = 21%nat.
Proof.
  eexists. split; [vm_compute; reflexivity|]. reflexivity.
Qed.

(** ** A pooled job and the job run alone *)

Lemma thread_by_id (pool : list Thread) a b :
  NoDup (map th_id pool) -> In a pool -> In b pool -> th_id a = th_id b ->
  a = b.
Proof.
  induction pool as [|x pool IH]; simpl; intros Hnd Ha Hb Hid; [destruct Ha|].
  inversion Hnd as [|? ? Hx Hnd']. subst.
  destruct Ha as [->|Ha], Hb as [->|Hb]; auto.
  - exfalso. apply Hx. rewrite Hid. now apply in_map.
  - exfalso. apply Hx. rewrite <- Hid. now apply in_map.
Qed.

(** Along a run with pairwise different task ids, what a pooled job has done
    to its record is what the events it has performed do to the record when
    they are run alone: the other jobs do not touch it. *)
Lemma pooled_job_progress tr : forall s th,
  execution s tr -> NoDup (submitted_ids (last tr s)) ->
  In th (executor s) ->
  exists done th',
    In th' (executor (last tr s)) /\ th_id th' = th_id th
    /\ th_todo th = done ++ th_todo th'
    /\ record_run done (dict_get (th_id th) (_tasks s))
       = Some (dict_get (th_id th) (_tasks (last tr s))).
Proof.
  induction tr as [|s' tr IH]; intros s th Hexec Hnd Hin.
  - exists [], th. simpl. auto.
  - destruct Hexec as [Hstep Hexec]. rewrite last_cons in *.
    assert (Hnd' : NoDup (submitted_ids s'))
      by (eapply unique_ids_earlier; eassumption).
    destruct (step_thread _ _ _ Hstep Hnd' Hin) as (th1 & Hin1 & Hid1 & Hcase).
    destruct (IH s' th1 Hexec Hnd Hin1) as (done & th' & Hin' & Hid' & Htodo & Hrun).
    rewrite Hid1 in *.
    destruct Hcase as [[Hsame Hget]|(ev & Hev & Ha)].
    + exists done, th'. rewrite <- Hsame, <- Hget. auto.
    + exists (ev :: done), th'. rewrite Hev, Htodo.
      repeat split; try assumption. simpl.
      pose proof (apply_event_record (th_id th) ev (_tasks s)) as R.
      destruct (record_step ev (dict_get (th_id th) (_tasks s)));
        [|congruence].
      destruct R as (t1 & H1 & Hget1 & _).
      rewrite Ha in H1. injection H1 as <-. now rewrite <- Hget1.
Qed.

(** A job that has run to its end in the pool leaves the record that it
    leaves when it runs alone.  With it, what is proved of a job body run
    alone ([run_events], [record_run]) holds of the job in every run of the
    service with pairwise different task ids. *)
Theorem finished_job_record s tr tid job :
  execution s tr ->
  NoDup (submitted_ids (last tr s)) ->
  In {| th_id := tid; th_todo := job |} (executor s) ->
  In {| th_id := tid; th_todo := [] |} (executor (last tr s)) ->
  record_run job (get_task_status (_tasks s) tid)
  = Some (get_task_status (_tasks (last tr s)) tid).
Proof.
  intros Hexec Hnd Hin Hfin.
  destruct (pooled_job_progress tr s _ Hexec Hnd Hin)
    as (done & th' & Hin' & Hid' & Htodo & Hrun).
  simpl in *.
  assert (th' = {| th_id := tid; th_todo := [] |}) as ->
    by (eapply thread_by_id; eauto).
  simpl in Htodo. rewrite app_nil_r in Htodo. subst done. exact Hrun.
Qed.

Lemma finished_job_record_witness :
  let tid := "600519_20260119_103000_000001" in
  let s1 := snd (submit_analysis new_service healthy "20260119_103000_000001"
                   "600519" SIMPLE None None) in
  record_run (events (_run_analysis healthy "600519" tid SIMPLE false))
    (get_task_status (_tasks s1) tid)
  = Some (get_task_status (_tasks (last (tl sample_run) s1)) tid).
Proof.
  intros tid s1.
  apply (finished_job_record s1 (tl sample_run) tid).
  - exact (proj2 sample_run_execution).
  - replace (last (tl sample_run) s1) with (last sample_run new_service)
      by (vm_compute; reflexivity).
    exact sample_run_unique_ids.
  - vm_compute. left. reflexivity.
  - vm_compute. left. reflexivity.
Defined.

(** Task ids must differ for the life cycle to hold: when two submissions of
    the same code get the same time stamp, the second job creates its
    record over the finished record of the first, and the status seen under
    the id goes from [completed] back to [running]. *)
Lemma colliding_ids_restart_the_record :
  let stamp := "20260119_103000_000001" in
  let tid := "600519_20260119_103000_000001" in
  let s1 := snd (submit_analysis new_service healthy stamp "600519" SIMPLE None None) in
  let s2 := snd (submit_analysis s1 healthy stamp "600519" SIMPLE None None) in
  let tr := s1 :: s2 :: run_schedule (repeat 0%nat 18 ++ repeat 1%nat 18) s2 in
  execution new_service tr
  /\ status_sequence tid tr = ["running"; "completed"; "running"; "completed"].
Proof.
  intros stamp tid s1 s2 tr. split.
  - unfold tr. split; [apply step_submit_analysis|].
    split; [apply step_submit_analysis | apply run_schedule_execution].
  - vm_compute. reflexivity.
Qed.

(** A six-digit code that does not start with [01] is accepted: the handler
    answers 200 and the job is in the pool. *)
Lemma six_digit_code_is_otherwise_accepted :
  let answer := handle_analysis (fun _ => SIMPLE) new_service healthy
                  "20260119_103000_000001" [("code", ["600519"])] in
  (exists r, fst answer = Returns (JsonResponse (BodySubmitted r) OK)
             /\ r_task_id r = "600519_20260119_103000_000001")
  /\ submitted_ids (snd answer) = ["600519_20260119_103000_000001"].
Proof.
  split; [eexists; split; vm_compute; reflexivity | vm_compute; reflexivity].
Qed.

(** ** The theorems at sample inputs *)

Lemma append_task_log_keeps_most_recent_witness :
  let tasks : Store := [("600519_00", full_log_task)] in
  exists task',
    get_task_status
      (_append_task_log tasks (sample_clock 9) "600519_00" "INFO" "tock"
         (Some "analyze") (Some 55%Z)) "600519_00"
      = Some task'
    /\ (List.length (logs task') <= 200)%nat
    /\ exists dropped,
         logs full_log_task
           ++ [{| ts := sample_clock 9; level := "INFO"; msg := "tock" |}]
           = dropped ++ logs task'
         /\ (dropped <> [] -> List.length (logs task') = 200%nat).
Proof.
  intros tasks.
  apply (append_task_log_keeps_most_recent tasks (sample_clock 9) "600519_00"
           "INFO" "tock" (Some "analyze") (Some 55%Z) full_log_task).
  reflexivity.
Defined.

Lemma list_tasks_bounded_and_most_recent_first_witness :
  (Z.of_nat (List.length (list_tasks (sample_tasks 5) 3)) <= 3)%Z
  /\ forall i j r1 r2, (i < j)%nat ->
       nth_error (list_tasks (sample_tasks 5) 3) i = Some r1 ->
       nth_error (list_tasks (sample_tasks 5) 3) j = Some r2 ->
       String.leb (start_time r2) (start_time r1) = true.
Proof.
  apply (list_tasks_bounded_and_most_recent_first (sample_tasks 5) 3).
  lia.
Defined.

Lemma fetch_failure_does_not_fail_the_job_witness :
  let tid := "600519_20260119_103000_000001" in
  let job := events (_run_analysis fetch_fails "600519" tid SIMPLE true) in
  exists tasks' task,
    run_events tid job (sample_tasks 2) = Some tasks'
    /\ get_task_status tasks' tid = Some task
    /\ status task = "completed"
    /\ exists entry,
         In entry (logs task)
         /\ level entry = "WARNING"
         /\ logged_at_stage "fetch_data" entry job.
Proof.
  intros tid job.
  apply (fetch_failure_does_not_fail_the_job fetch_fails "600519" tid SIMPLE
           true (sample_tasks 2)); reflexivity.
Defined.

Lemma render_failure_gives_empty_report_witness :
  let tid := "600519_20260119_103000_000001" in
  let job := events (_run_analysis render_fails "600519" tid FULL true) in
  exists tasks' task result_data,
    run_events tid job (sample_tasks 2) = Some tasks'
    /\ get_task_status tasks' tid = Some task
    /\ status task = "completed"
    /\ result task = Some result_data
    /\ dict_get "report_markdown" result_data = Some (PyStr "")
    /\ render_calls job = 1%nat.
Proof.
  intros tid job.
  apply (render_failure_gives_empty_report render_fails "600519" tid FULL
           true (sample_tasks 2)); reflexivity.
Defined.

Lemma empty_review_fails_the_job_witness :
  let tid := "market_review_20260119_103000_000002" in
  let job := events (_run_market_review empty_review tid) in
  exists tasks' task message stamp,
    run_events tid job (sample_tasks 2) = Some tasks'
    /\ get_task_status tasks' tid = Some task
    /\ status task = "failed"
    /\ error task = Some message
    /\ message <> ""
    /\ end_time task = Some stamp.
Proof.
  intros tid job.
  apply (empty_review_fails_the_job empty_review tid (sample_tasks 2)).
  reflexivity.
Defined.

(* ================================================================== *)
(** * Further properties of the service, the handlers and the review *)
(* ================================================================== *)

From Stdlib Require Import Permutation.

(** ** What every job does, whatever its collaborators do *)

(** The case analysis along a job, with the report type left alone: the two
    renderers are one answer. *)
Ltac next_case_of_job :=
  match goal with
  | |- context [match (match ?r with SIMPLE => ?a | FULL => ?b end) with
                | Returns _ => _ | Raises _ => _ end] =>
      destruct (match r with SIMPLE => a | FULL => b end)
  | _ => next_case
  end.

Ltac job_paths :=
  unfold_script; cbn -[String.append];
  repeat (rewrite ?report_markdown_after_set, ?report_markdown_after_html;
          next_case_of_job; cbn -[String.append]).

Ltac obvious :=
  intros;
  first
    [ reflexivity
    | match goal with
      | H : _ = _ |- _ =>
          vm_compute in H;
          first [ discriminate H
                | injection H as <-;
                  first [ reflexivity
                        | eexists; reflexivity
                        | eexists; simpl; eauto 20 ] ]
      end
    | (let H := fresh in intro H; vm_compute in H; discriminate H)
    | (apply Nat.leb_le; vm_compute; reflexivity)
    | solve [do 3 eexists; reflexivity]
    | solve [eexists; simpl; auto 20] ].

Ltac finished :=
  unfold finished_record;
  split; [obvious|]; split; [obvious|];
  first [ left; repeat match goal with |- _ /\ _ => split end; obvious
        | right; repeat match goal with |- _ /\ _ => split end; obvious ].

Ltac facts :=
  repeat match goal with
         | |- exists _, _ => eexists
         end;
  repeat match goal with
         | |- finished_record _ /\ _ => split; [finished|]
         | |- _ /\ _ => split; [obvious|]
         end;
  obvious.

(** All that the theorems below use of the analysis job, read off each of
    its paths at once. *)
Lemma run_analysis_summary o code tid rt sn r0 :
  let job := events (_run_analysis o code tid rt sn) in
  exists task ret,
    outcome (_run_analysis o code tid rt sn) = Returns ret
    /\ record_run job r0 = Some (Some task)
    /\ finished_record task
    /\ nondecreasing (progress_values job r0) = true
    /\ logs task = appended_entries job
    /\ (List.length (appended_entries job) <? _max_task_logs)%nat = true
    /\ (send_calls job <= 1)%nat
    /\ (sn = false -> send_calls job = 0%nat)
    /\ (notifier_is_available o = false -> send_calls job = 0%nat)
    /\ (render_raised job = true -> send_calls job = 0%nat)
    /\ (send_failed job = true -> status task = "completed")
    /\ (analyze_returned_result job = true -> status task = "completed")
    /\ (status task = "completed" -> analyze_returned_result job = true)
    /\ (status task = "completed" ->
        exists md html d,
          result task
          = Some (dict_set "report_html" (PyStr html)
                    (dict_set "report_markdown" (PyStr md) d)))
    /\ (analyze_returned_none job = true ->
        error task = Some "分析返回空结果")
    /\ (analyze_returned_none job = true -> result task = None)
    /\ (forall e, unguarded_exception job = Some e -> error task = Some e).
Proof.
  intros job. subst job. unfold events, outcome.
  destruct o as [clk imp pipe fetch analyze dash single preview avail snd].
  cbn [notifier_is_available].
  remember (_run_analysis _ code tid rt sn 0%nat) as run eqn:Hrun.
  pattern run.
  match goal with |- ?P run => remember P as holds eqn:Hholds end.
  revert Hrun. job_paths. all: intros ->; subst holds.
  all: facts.
Qed.

Ltac market_paths o :=
  unfold _run_market_review in *;
  set (rv := run_market_review _ _) in *; clearbody rv;
  destruct o as [clk imp cfg search analyzer write rev preview];
  cbn [m_clock m_imports m_get_config init_search_service init_analyzer
       m_markdown_preview] in *;
  destruct rv as [[|c rv]|].

(** The same for the market review job. *)
Lemma run_market_review_summary o tid r0 :
  let job := events (_run_market_review o tid) in
  exists task ret,
    outcome (_run_market_review o tid) = Returns ret
    /\ record_run job r0 = Some (Some task)
    /\ finished_record task
    /\ nondecreasing (progress_values job r0) = true
    /\ logs task = appended_entries job
    /\ (List.length (appended_entries job) <? _max_task_logs)%nat = true
    /\ (forall text, review_text job = Some text -> status task = "completed")
    /\ (forall text, review_text job = Some text ->
        exists html,
             result task
             = Some [("name", PyStr "大盘复盘");
                     ("report_markdown",
                      PyStr ("# 🎯 大盘复盘" +++ newline +++ newline +++ text));
                     ("analysis_summary", PyStr "");
                     ("trend_prediction", PyStr "");
                     ("operation_advice", PyStr "");
                     ("report_html", PyStr html)])
    /\ (status task = "completed" -> review_text job <> None)
    /\ (review_returned_nothing job = true ->
        error task = Some "大盘复盘返回空结果")
    /\ (forall e, unguarded_exception job = Some e -> error task = Some e)
    /\ (forall e, init_search_exception job = Some e ->
        exists stamp,
          In {| ts := stamp; level := "WARNING";
                msg := "搜索服务初始化失败（将继续）：" +++ e |} (logs task))
    /\ (forall e, init_analyzer_exception job = Some e ->
        exists stamp,
          In {| ts := stamp; level := "WARNING";
                msg := "AI 分析器初始化失败（将继续）：" +++ e |} (logs task)).
Proof.
  intros job. subst job. unfold events, outcome.
  market_paths o.
  all: match goal with
       | |- context [?m 0%nat] =>
           let run := fresh "run" in
           let Hrun := fresh "Hrun" in
           remember (m 0%nat) as run eqn:Hrun;
           pattern run;
           match goal with
           | |- ?P run =>
               let holds := fresh "holds" in
               let Hholds := fresh "Hholds" in
               remember P as holds eqn:Hholds;
               revert Hrun; job_paths; intros ->; subst holds
           end
       end.
  all: facts.
Qed.

Lemma job_summary tid job r0 :
  is_job tid job ->
  exists task,
    record_run job r0 = Some (Some task)
    /\ finished_record task
    /\ nondecreasing (progress_values job r0) = true
    /\ logs task = appended_entries job
    /\ (List.length (appended_entries job) < _max_task_logs)%nat
    /\ (forall e, unguarded_exception job = Some e -> error task = Some e).
Proof.
  intros [(o & code & rt & sn & ->)|(o & ->)].
  - destruct (run_analysis_summary o code tid rt sn r0)
      as (task & ret & _ & Hrun & Hfin & Hprog & Hlogs & Hlen
          & _ & _ & _ & _ & _ & _ & _ & _ & _ & _ & Hexc).
    exists task. split; [exact Hrun|]. split; [exact Hfin|].
    split; [exact Hprog|]. split; [exact Hlogs|].
    split; [now apply Nat.ltb_lt | exact Hexc].
  - destruct (run_market_review_summary o tid r0)
      as (task & ret & _ & Hrun & Hfin & Hprog & Hlogs & Hlen
          & _ & _ & _ & _ & Hexc & _).
    exists task. split; [exact Hrun|]. split; [exact Hfin|].
    split; [exact Hprog|]. split; [exact Hlogs|].
    split; [now apply Nat.ltb_lt | exact Hexc].
Qed.

Lemma record_of_job_run tid job (tasks : Store) task :
  record_run job (dict_get tid tasks) = Some (Some task) ->
  exists tasks',
    run_events tid job tasks = Some tasks'
    /\ get_task_status tasks' tid = Some task
    /\ forall k, k <> tid ->
         get_task_status tasks' k = get_task_status tasks k.
Proof.
  intros Hrun.
  destruct (run_events_record _ _ _ _ Hrun) as (tasks' & Hev & Hget & Hother).
  exists tasks'. auto.
Qed.

(** No exception leaves a job body, whatever its collaborators return or
    raise: both job functions return, and on the task map neither meets a
    [KeyError]. *)
Theorem job_bodies_always_return :
  (forall o code tid rt sn (tasks : Store),
      (exists ret, outcome (_run_analysis o code tid rt sn) = Returns ret)
      /\ exists tasks',
           run_events tid (events (_run_analysis o code tid rt sn)) tasks
           = Some tasks')
  /\ (forall o tid (tasks : Store),
        (exists ret, outcome (_run_market_review o tid) = Returns ret)
        /\ exists tasks',
             run_events tid (events (_run_market_review o tid)) tasks
             = Some tasks').
Proof.
  split.
  - intros o code tid rt sn tasks.
    destruct (run_analysis_summary o code tid rt sn (dict_get tid tasks))
      as (task & ret & Hout & Hrun & _).
    split; [eauto|].
    destruct (record_of_job_run _ _ _ _ Hrun) as (tasks' & Hev & _). eauto.
  - intros o tid tasks.
    destruct (run_market_review_summary o tid (dict_get tid tasks))
      as (task & ret & Hout & Hrun & _).
    split; [eauto|].
    destruct (record_of_job_run _ _ _ _ Hrun) as (tasks' & Hev & _). eauto.
Qed.

(** Every job, run to its end, leaves its record finished: progress 100, an
    end time, and either the status [completed] with stage [done], a result
    and no error, or the status [failed] with stage [failed] and an error.
    The records of the other tasks are as they were. *)
Theorem job_leaves_a_finished_record tid job (tasks : Store) :
  is_job tid job ->
  exists tasks' task,
    run_events tid job tasks = Some tasks'
    /\ get_task_status tasks' tid = Some task
    /\ finished_record task
    /\ forall k, k <> tid ->
         get_task_status tasks' k = get_task_status tasks k.
Proof.
  intros Hjob.
  destruct (job_summary tid job (dict_get tid tasks) Hjob)
    as (task & Hrun & Hfin & _).
  destruct (record_of_job_run _ _ _ _ Hrun) as (tasks' & Hev & Hget & Hother).
  exists tasks', task. auto.
Qed.

(** Along every job the progress shown by its record never decreases. *)
Theorem job_progress_never_decreases tid job r0 :
  is_job tid job ->
  nondecreasing (progress_values job r0) = true.
Proof.
  intros Hjob.
  destruct (job_summary tid job r0 Hjob) as (task & _ & _ & Hprog & _).
  exact Hprog.
Qed.

(** The log of a finished job holds every entry that the job appended, in
    the order of the appends: a job never reaches the bound of the log. *)
Theorem job_log_is_complete tid job (tasks : Store) :
  is_job tid job ->
  exists tasks' task,
    run_events tid job tasks = Some tasks'
    /\ get_task_status tasks' tid = Some task
    /\ logs task = appended_entries job
    /\ (List.length (logs task) < _max_task_logs)%nat.
Proof.
  intros Hjob.
  destruct (job_summary tid job (dict_get tid tasks) Hjob)
    as (task & Hrun & _ & _ & Hlogs & Hlen & _).
  destruct (record_of_job_run _ _ _ _ Hrun) as (tasks' & Hev & Hget & _).
  exists tasks', task. split; [exact Hev|]. split; [exact Hget|].
  split; [exact Hlogs|]. rewrite Hlogs. exact Hlen.
Qed.

(** An exception of a call that the body does not guard itself (imports,
    configuration, data fetch, analysis) ends the job in the status [failed]
    with the message of the exception as its [error]. *)
Theorem unguarded_exception_is_recorded tid job (tasks : Store) e :
  is_job tid job ->
  unguarded_exception job = Some e ->
  exists tasks' task,
    run_events tid job tasks = Some tasks'
    /\ get_task_status tasks' tid = Some task
    /\ status task = "failed"
    /\ error task = Some e.
Proof.
  intros Hjob He.
  destruct (job_summary tid job (dict_get tid tasks) Hjob)
    as (task & Hrun & Hfin & _ & _ & _ & Herr).
  destruct (record_of_job_run _ _ _ _ Hrun) as (tasks' & Hev & Hget & _).
  exists tasks', task. split; [exact Hev|]. split; [exact Hget|].
  split; [|now apply Herr].
  destruct Hfin as (_ & _ & [(_ & _ & _ & Hnone)|(Hst & _)]); [|exact Hst].
  rewrite (Herr e He) in Hnone. discriminate Hnone.
Qed.

(** The analysis job pushes at most one notification, and none unless the
    job was asked to notify, the notifier is available and the report
    renderer did not raise. *)
Theorem push_only_when_requested o code tid rt sn :
  let job := events (_run_analysis o code tid rt sn) in
  send_calls job = 0%nat
  \/ (send_calls job = 1%nat
      /\ sn = true /\ notifier_is_available o = true
      /\ render_raised job = false).
Proof.
  intros job.
  destruct (run_analysis_summary o code tid rt sn None)
    as (task & ret & _ & _ & _ & _ & _ & _ & Hle & Hsn & Hav & Hrender & _).
  fold job in Hle, Hsn, Hav, Hrender.
  destruct (send_calls job) as [|[|n]] eqn:E; [now left | right | lia].
  split; [reflexivity|].
  destruct sn; [|now discriminate Hsn].
  destruct (notifier_is_available o); [|now discriminate Hav].
  destruct (render_raised job); [now discriminate Hrender|].
  repeat split.
Qed.

(** A push that raises or returns [False] does not fail the job: its record
    ends in the status [completed]. *)
Theorem failed_push_keeps_the_job_completed o code tid rt sn (tasks : Store) :
  let job := events (_run_analysis o code tid rt sn) in
  send_failed job = true ->
  exists tasks' task,
    run_events tid job tasks = Some tasks'
    /\ get_task_status tasks' tid = Some task
    /\ status task = "completed"
    /\ error task = None.
Proof.
  intros job Hsend.
  destruct (run_analysis_summary o code tid rt sn (dict_get tid tasks))
    as (task & ret & _ & Hrun & Hfin & _ & _ & _ & _ & _ & _ & _ & Hfailed & _).
  destruct (record_of_job_run _ _ _ _ Hrun) as (tasks' & Hev & Hget & _).
  exists tasks', task. split; [exact Hev|]. split; [exact Hget|].
  specialize (Hfailed Hsend). split; [exact Hfailed|].
  destruct Hfin as (_ & _ & [(_ & _ & _ & Hnone)|(Hst & _)]); [exact Hnone|].
  rewrite Hfailed in Hst. discriminate Hst.
Qed.

(** The analysis job ends in the status [completed] exactly when the analyze
    step returned a result; the stored result then holds a text under
    ["report_markdown"] and under ["report_html"]. *)
Theorem analysis_completes_iff_result o code tid rt sn (tasks : Store) :
  let job := events (_run_analysis o code tid rt sn) in
  exists tasks' task,
    run_events tid job tasks = Some tasks'
    /\ get_task_status tasks' tid = Some task
    /\ (status task = "completed" <-> analyze_returned_result job = true)
    /\ (status task = "completed" ->
        exists result_data md html,
          result task = Some result_data
          /\ dict_get "report_markdown" result_data = Some (PyStr md)
          /\ dict_get "report_html" result_data = Some (PyStr html)).
Proof.
  intros job.
  destruct (run_analysis_summary o code tid rt sn (dict_get tid tasks))
    as (task & ret & _ & Hrun & _ & _ & _ & _ & _ & _ & _ & _ & _
        & Hif & Honly & Hresult & _).
  destruct (record_of_job_run _ _ _ _ Hrun) as (tasks' & Hev & Hget & _).
  exists tasks', task. split; [exact Hev|]. split; [exact Hget|].
  split; [split; assumption|].
  intros Hst. destruct (Hresult Hst) as (md & html & d & ->).
  eexists. exists md, html. split; [reflexivity|]. split.
  - rewrite dict_get_set_other by discriminate. apply dict_get_set_same.
  - apply dict_get_set_same.
Qed.

(** An analysis that returns [None] fails the job with the error
    "分析返回空结果". *)
Theorem empty_analysis_fails_the_job o code tid rt sn (tasks : Store) :
  let job := events (_run_analysis o code tid rt sn) in
  analyze_returned_none job = true ->
  exists tasks' task,
    run_events tid job tasks = Some tasks'
    /\ get_task_status tasks' tid = Some task
    /\ status task = "failed"
    /\ error task = Some "分析返回空结果"
    /\ result task = None.
Proof.
  intros job Hnone.
  destruct (run_analysis_summary o code tid rt sn (dict_get tid tasks))
    as (task & ret & _ & Hrun & Hfin & _ & _ & _ & _ & _ & _ & _ & _ & _
        & _ & _ & Herror & Hresult & _).
  destruct (record_of_job_run _ _ _ _ Hrun) as (tasks' & Hev & Hget & _).
  exists tasks', task. split; [exact Hev|]. split; [exact Hget|].
  specialize (Herror Hnone). specialize (Hresult Hnone).
  split; [|split; assumption].
  destruct Hfin as (_ & _ & [(_ & _ & _ & Hnoerr)|(Hst & _)]); [|exact Hst].
  rewrite Herror in Hnoerr. discriminate Hnoerr.
Qed.

(** A market review job ends in the status [completed] exactly when
    [run_market_review] returned a text; the stored report is that text
    under the title line. *)
Theorem market_review_completes_iff_text o tid (tasks : Store) :
  let job := events (_run_market_review o tid) in
  exists tasks' task,
    run_events tid job tasks = Some tasks'
    /\ get_task_status tasks' tid = Some task
    /\ (status task = "completed" <-> review_text job <> None)
    /\ forall text, review_text job = Some text ->
         exists result_data,
           result task = Some result_data
           /\ dict_get "report_markdown" result_data
              = Some (PyStr ("# 🎯 大盘复盘" +++ newline +++ newline +++ text)).
Proof.
  intros job.
  destruct (run_market_review_summary o tid (dict_get tid tasks))
    as (task & ret & _ & Hrun & _ & _ & _ & _ & Hif & Hresult & Honly & _).
  destruct (record_of_job_run _ _ _ _ Hrun) as (tasks' & Hev & Hget & _).
  exists tasks', task. split; [exact Hev|]. split; [exact Hget|].
  fold job in Hif, Hresult, Honly. split.
  - split; [exact Honly|].
    destruct (review_text job) as [text|]; [|congruence].
    intros _. now apply (Hif text).
  - intros text Htext. destruct (Hresult text Htext) as (html & ->).
    eexists. split; reflexivity.
Qed.

(** When the search service or the AI analyzer of a market review cannot be
    set up, the job goes on: the exception is only logged, at the level
    [WARNING], and a review text still completes the job. *)
Theorem review_setup_failures_are_only_logged o tid (tasks : Store) e text :
  let job := events (_run_market_review o tid) in
  init_search_exception job = Some e \/ init_analyzer_exception job = Some e ->
  review_text job = Some text ->
  exists tasks' task entry,
    run_events tid job tasks = Some tasks'
    /\ get_task_status tasks' tid = Some task
    /\ status task = "completed"
    /\ In entry (logs task)
    /\ level entry = "WARNING"
    /\ (msg entry = "搜索服务初始化失败（将继续）：" +++ e
        \/ msg entry = "AI 分析器初始化失败（将继续）：" +++ e).
Proof.
  intros job Hinit Htext.
  destruct (run_market_review_summary o tid (dict_get tid tasks))
    as (task & ret & _ & Hrun & _ & _ & _ & _ & Hif & _ & _ & _ & _
        & Hsearch & Hanalyzer).
  destruct (record_of_job_run _ _ _ _ Hrun) as (tasks' & Hev & Hget & _).
  fold job in Hif, Hsearch, Hanalyzer.
  destruct Hinit as [Hinit|Hinit].
  - destruct (Hsearch e Hinit) as (stamp & Hin).
    exists tasks', task. eexists.
    split; [exact Hev|]. split; [exact Hget|].
    split; [now apply (Hif text)|]. split; [exact Hin|].
    split; [reflexivity | left; reflexivity].
  - destruct (Hanalyzer e Hinit) as (stamp & Hin).
    exists tasks', task. eexists.
    split; [exact Hev|]. split; [exact Hget|].
    split; [now apply (Hif text)|]. split; [exact Hin|].
    split; [reflexivity | right; reflexivity].
Qed.

(** ** The registry *)

(** [_append_task_log] changes nothing but the log, the stage and the
    progress of one record: the ids of the map and their order stay, the
    other records stay, and in the record itself the status, the result, the
    error and the times stay.  For an unknown id the map is unchanged. *)
Theorem append_task_log_frame
    (tasks : Store) now tid level message new_stage new_progress :
  let tasks' :=
    _append_task_log tasks now tid level message new_stage new_progress in
  dict_keys tasks' = dict_keys tasks
  /\ (forall k, k <> tid -> get_task_status tasks' k = get_task_status tasks k)
  /\ (get_task_status tasks tid = None -> tasks' = tasks)
  /\ (forall task, get_task_status tasks tid = Some task ->
      exists task',
        get_task_status tasks' tid = Some task'
        /\ status task' = status task /\ result task' = result task
        /\ error task' = error task /\ start_time task' = start_time task
        /\ end_time task' = end_time task
        /\ stage task' = match new_stage with
                         | Some st => st
                         | None => stage task
                         end
        /\ progress task' = match new_progress with
                            | Some p => p
                            | None => progress task
                            end).
Proof.
  intros tasks'. subst tasks'. unfold _append_task_log, get_task_status.
  destruct (dict_get tid tasks) as [task|] eqn:Hget.
  - split; [apply dict_keys_set_present; congruence|].
    split; [intros k Hk; now apply dict_get_set_other|].
    split; [discriminate|].
    intros task0 H0. injection H0 as <-.
    eexists. split; [apply dict_get_set_same|].
    unfold append_to_task. destruct new_stage, new_progress; repeat split.
  - split; [reflexivity|]. split; [reflexivity|]. split; [reflexivity|].
    discriminate.
Qed.

Lemma insert_desc_perm {A} (key : A -> string) x l :
  Permutation (Py.insert_desc key x l) (x :: l).
Proof.
  induction l as [|y l IH]; simpl; [apply Permutation_refl|].
  destruct (String.ltb (key x) (key y)).
  - rewrite IH. apply perm_swap.
  - apply Permutation_refl.
Qed.

Lemma sort_desc_perm {A} (key : A -> string) l :
  Permutation (Py.sort_desc key l) l.
Proof.
  induction l as [|x l IH]; simpl; [apply Permutation_refl|].
  rewrite insert_desc_perm. now apply perm_skip.
Qed.

(** [list_tasks] returns records of the map, each at most once: the listing
    together with the records cut off is a rearrangement of the records of
    the map.  When the limit is at least the number of records, nothing is
    cut off. *)
Theorem list_tasks_lists_the_map (tasks : Store) (limit : Z) :
  (exists cut, Permutation (list_tasks tasks limit ++ cut) (dict_values tasks))
  /\ ((Z.of_nat (List.length tasks) <= limit)%Z ->
      Permutation (list_tasks tasks limit) (dict_values tasks)).
Proof.
  unfold list_tasks, Py.slice_to. split.
  - destruct (limit <? 0)%Z; eexists; rewrite firstn_skipn; apply sort_desc_perm.
  - intros Hlimit. destruct (Z.ltb_spec limit 0); [lia|].
    rewrite firstn_all2; [apply sort_desc_perm|].
    rewrite sort_desc_length. unfold dict_values. rewrite length_map. lia.
Qed.

Lemma string_ltb_irrefl s : String.ltb s s = false.
Proof.
  unfold String.ltb.
  destruct (String.compare s s) eqn:E; try reflexivity.
  pose proof (String.compare_antisym s s) as H. rewrite E in H. discriminate H.
Qed.

Lemma insert_desc_filter (t : string) x l :
  started_at t (Py.insert_desc start_time x l) = started_at t (x :: l).
Proof.
  unfold started_at.
  induction l as [|y l IH]; [reflexivity|].
  simpl Py.insert_desc.
  destruct (String.ltb (start_time x) (start_time y)) eqn:Hlt; [|reflexivity].
  simpl filter in *. rewrite IH.
  destruct (String.eqb (start_time x) t) eqn:Hx; [|reflexivity].
  destruct (String.eqb (start_time y) t) eqn:Hy; [|reflexivity].
  apply String.eqb_eq in Hx, Hy. rewrite Hx, Hy in Hlt.
  rewrite string_ltb_irrefl in Hlt. discriminate Hlt.
Qed.

(** Ties are broken by age in the map: in the full listing, the records with
    the same start time come in the order in which their ids entered the
    map. *)
Theorem list_tasks_keeps_insertion_order_of_ties (tasks : Store) limit t :
  (Z.of_nat (List.length tasks) <= limit)%Z ->
  started_at t (list_tasks tasks limit) = started_at t (dict_values tasks).
Proof.
  intros Hlimit. unfold list_tasks, Py.slice_to.
  destruct (Z.ltb_spec limit 0); [lia|].
  rewrite firstn_all2.
  - induction (dict_values tasks) as [|x l IH]; [reflexivity|].
    simpl Py.sort_desc. rewrite insert_desc_filter.
    unfold started_at in *. simpl. now rewrite IH.
  - rewrite sort_desc_length. unfold dict_values. rewrite length_map. lia.
Qed.

(** ** The request handlers, case by case *)


Lemma letter_is_plain c :
  (Py.is_upper c || Py.is_lower c) = true ->
  Py.is_space c = false /\ Py.is_digit c = false
  /\ Py.is_upper (Py.to_upper (Py.to_lower c)) = true.
Proof.
  destruct c as [[] [] [] [] [] [] [] []]; try discriminate; intros _;
    repeat split.
Qed.

Lemma lstrip_letters code : all_letters code = true -> Py.lstrip code = code.
Proof.
  destruct code as [|c code]; [reflexivity|]. simpl. intros H.
  apply andb_prop in H. destruct H as [Hc _].
  now rewrite (proj1 (letter_is_plain c Hc)).
Qed.

Lemma rstrip_letters code : all_letters code = true -> Py.rstrip code = code.
Proof.
  induction code as [|c code IH]; [reflexivity|]. simpl. intros H.
  apply andb_prop in H. destruct H as [Hc H].
  rewrite (IH H). destruct code; [|reflexivity].
  now rewrite (proj1 (letter_is_plain c Hc)).
Qed.

Lemma letters_match_us_pattern code n :
  all_letters code = true -> (String.length code <= n)%nat ->
  Py.re_upper_upto n (Py.re_opt_dot_upper Py.re_end)
    (Py.upper (Py.lower code)) = true.
Proof.
  revert code. induction n as [|n IH]; intros [|c code] H Hlen;
    simpl in *; try reflexivity; try lia.
  apply andb_prop in H. destruct H as [Hc H].
  destruct (letter_is_plain c Hc) as (_ & _ & ->).
  unfold Py.upper, Py.lower in IH. rewrite IH; [reflexivity | exact H | lia].
Qed.

(** A ticker of one to five letters is accepted in either letter case, and
    the job that is submitted analyses it in lower case. *)
Theorem letter_ticker_is_submitted_in_lower_case
    from_str s o stamp (query : Query) code0 others rt rts :
  query_get query "code" [] = code0 :: others ->
  query_get query "report_type" ["simple"] = rt :: rts ->
  all_letters code0 = true ->
  (1 <= String.length code0 <= 5)%nat ->
  exists r,
    handle_analysis from_str s o stamp query
    = (Returns (JsonResponse (BodySubmitted r) OK),
       executor_submit s (Py.lower code0 +++ "_" +++ stamp)
         (events (_run_analysis o (Py.lower code0)
                    (Py.lower code0 +++ "_" +++ stamp) (from_str rt) false)))
    /\ r_code r = Some (Py.lower code0).
Proof.
  intros Hq Hrt Hletters Hlen.
  assert (Hstrip : Py.strip code0 = code0).
  { unfold Py.strip.
    now rewrite (lstrip_letters _ Hletters), (rstrip_letters _ Hletters). }
  destruct code0 as [|c code0]; [simpl in Hlen; lia|].
  assert (Hc : (Py.is_upper c || Py.is_lower c) = true).
  { simpl in Hletters. now apply andb_prop in Hletters. }
  assert (Hrest : all_letters code0 = true).
  { simpl in Hletters. now apply andb_prop in Hletters. }
  destruct (letter_is_plain c Hc) as (_ & Hdigit & Hup).
  assert (Hnot_a : is_a_stock (Py.lower (String c code0)) = false).
  { unfold is_a_stock. simpl.
    destruct c as [[] [] [] [] [] [] [] []]; try discriminate Hc; reflexivity. }
  assert (Hus : is_us_stock (Py.lower (String c code0)) = true).
  { unfold is_us_stock. simpl. rewrite Hup. simpl.
    apply (letters_match_us_pattern code0 4 Hrest). simpl in Hlen. lia. }
  unfold handle_analysis. rewrite Hq, Hstrip. simpl Py.truthy. cbn [negb].
  cbv iota. rewrite Hnot_a, Hus. simpl andb. cbv iota.
  rewrite orb_true_r. cbn [negb]. cbv iota. rewrite Hrt.
  eexists. split; reflexivity.
Qed.


(** [handle_market_review] answers 200 with the id of the new job, made of
    ["market_review_"] and the time stamp, and does not touch the task map:
    the job is in the pool, the id has no record when the handler returns,
    and it has none as long as the job has not performed its first event. *)
Theorem handle_market_review_only_enqueues s o stamp tr :
  let answer := handle_market_review s o stamp in
  let s1 := snd answer in
  let tid := "market_review_" +++ stamp in
  reachable s ->
  execution s1 tr ->
  NoDup (submitted_ids (last tr s1)) ->
  (exists r, fst answer = JsonResponse (BodySubmitted r) OK
             /\ r_task_id r = tid)
  /\ _tasks s1 = _tasks s
  /\ get_task_status (_tasks s1) tid = None
  /\ exists job,
       executor s1 = executor s ++ [{| th_id := tid; th_todo := job |}]
       /\ forall s2,
            In s2 tr ->
            In {| th_id := tid; th_todo := job |} (executor s2) ->
            get_task_status (_tasks s2) tid = None.
Proof.
  intros answer s1 tid Hreach Hexec Hnd.
  assert (Hs1 : s1 = snd (submit_market_review s o stamp)) by reflexivity.
  assert (Hnd1 : NoDup (submitted_ids s1))
    by (eapply unique_ids_earlier; eassumption).
  assert (Hstep : step s s1) by (rewrite Hs1; apply step_submit_market_review).
  assert (Hnd0 : NoDup (submitted_ids s)).
  { destruct (submitted_ids_step _ _ Hstep) as (more & E).
    rewrite E in Hnd1. eapply NoDup_app_remove_r, Hnd1. }
  assert (Hok : service_ok s) by now apply reachable_ok.
  assert (Hok1 : service_ok s1) by (eapply step_ok; eassumption).
  set (job := events (_run_market_review o tid)).
  assert (Hpool : executor s1 = executor s ++ [{| th_id := tid; th_todo := job |}])
    by reflexivity.
  assert (Hjob : is_job tid job) by (right; exists o; reflexivity).
  destruct (job_status_writes _ _ Hjob) as (t & Ht & Hw).
  split; [eexists; split; reflexivity|]. split; [reflexivity|]. split.
  - apply (not_started_absent s1 {| th_id := tid; th_todo := job |} t);
      try assumption.
    rewrite Hpool. apply in_or_app. simpl. tauto.
  - exists job. split; [exact Hpool|].
    intros s2 Hin2 Hth.
    apply (not_started_absent s2 {| th_id := tid; th_todo := job |} t);
      try assumption.
    eapply execution_ok; eassumption.
Qed.

(** Polling: for an id with no record [handle_task_status] answers 404; once
    a job with that id has run to its end it answers 200 with the finished
    record of the job. *)
Theorem polling_a_job tid job s :
  is_job tid job ->
  Py.strip tid = tid -> tid <> EmptyString ->
  (get_task_status (_tasks s) tid = None ->
   http_status (handle_task_status s [("id", [tid])]) = NOT_FOUND)
  /\ exists tasks' task,
       run_events tid job (_tasks s) = Some tasks'
       /\ handle_task_status
            {| _max_workers := _max_workers s; _tasks := tasks';
               executor := executor s |} [("id", [tid])]
          = JsonResponse (BodyTask task) OK
       /\ finished_record task.
Proof.
  intros Hjob Hstrip Hne.
  assert (Htruthy : Py.truthy tid = true) by (destruct tid; [now elim Hne | reflexivity]).
  split.
  - intros Hnone. unfold handle_task_status. simpl.
    rewrite Hstrip, Htruthy. simpl. now rewrite Hnone.
  - destruct (job_leaves_a_finished_record tid job (_tasks s) Hjob)
      as (tasks' & task & Hrun & Hget & Hfin & _).
    exists tasks', task. split; [exact Hrun|]. split; [|exact Hfin].
    unfold handle_task_status. simpl.
    rewrite Hstrip, Htruthy. simpl. now rewrite Hget.
Qed.

(** ** [run_market_review] *)

(** [run_market_review] returns a text exactly when the market analyzer was
    built, the daily review returned a non-empty report, the report file was
    saved and, for an available notifier, the push returned.  The text is
    the report, preceded by the data snapshot when there is one.  In every
    other case, and so whenever saving the file raises, it returns
    [None]. *)
Theorem run_market_review_cases notifier o text :
  run_market_review notifier o = Some text <->
  exists report snapshot,
    (exists u, new_market_analyzer o = Returns u)
    /\ run_daily_review o = Returns (Some report)
    /\ Py.truthy report = true
    /\ snapshot = (if has_last_overview o
                   then match format_overview_markdown o with
                        | Returns md => md
                        | Raises _ => ""
                        end
                   else "")
    /\ text = (if Py.truthy snapshot
               then snapshot +++ newline +++ newline +++ "---"
                      +++ newline +++ newline +++ report
               else report)
    /\ (exists path,
           save_report_to_file notifier
             ("# 🎯 大盘复盘" +++ newline +++ newline +++ text)
             ("market_review_" +++ date_str o +++ ".md") = Returns path)
    /\ (is_available notifier = true ->
        exists sent,
          send notifier ("🎯 大盘复盘" +++ newline +++ newline +++ text)
          = Returns sent).
Proof.
  unfold run_market_review, and_then. split.
  - intros H.
    destruct (new_market_analyzer o) as [u|]; [|discriminate H].
    destruct (run_daily_review o) as [[report|]|]; try discriminate H.
    destruct (Py.truthy report) eqn:Hreport; [|discriminate H].
    set (snapshot := if has_last_overview o then _ else _) in *.
    set (full := if Py.truthy snapshot then _ else _) in *.
    destruct (save_report_to_file notifier _ _) as [path|] eqn:Hsave;
      [|discriminate H].
    destruct (is_available notifier) eqn:Hav.
    + destruct (send notifier _) as [sent|] eqn:Hsend; [|discriminate H].
      injection H as <-. exists report, snapshot.
      repeat split; eauto.
    + injection H as <-. exists report, snapshot.
      repeat split; eauto. discriminate.
  - intros (report & snapshot & (u & ->) & -> & -> & -> & -> & (path & ->) & Hsend).
    destruct (is_available notifier); [|reflexivity].
    destruct (Hsend eq_refl) as (sent & ->). reflexivity.
Qed.

(* ------------------------------------------------------------------ *)
(** ** Texts, lines and patterns *)
(* ------------------------------------------------------------------ *)

Lemma append_assoc (a b c : string) : (a +++ b) +++ c = a +++ b +++ c.
Proof. induction a as [|x a IH]; simpl; [reflexivity | now rewrite IH]. Qed.

Lemma append_empty (a : string) : a +++ EmptyString = a.
Proof. induction a as [|x a IH]; simpl; [reflexivity | now rewrite IH]. Qed.

Lemma all_chars_app (p : ascii -> bool) (a b : string) :
  all_chars p (a +++ b) = all_chars p a && all_chars p b.
Proof.
  induction a as [|x a IH]; simpl; [reflexivity |].
  now rewrite IH, andb_assoc.
Qed.

Lemma all_chars_weaken (p q : ascii -> bool) (s : string) :
  (forall c, p c = true -> q c = true) ->
  all_chars p s = true -> all_chars q s = true.
Proof.
  intros Hpq. induction s as [|c s IH]; simpl; [reflexivity |].
  intros [Hc Hs]%andb_prop. now rewrite (Hpq c Hc), IH.
Qed.

(** A line boundary is white space; the line feed is a line boundary. *)
Lemma line_break_is_space (c : ascii) :
  is_line_break c = true -> Py.is_space c = true.
Proof.
  unfold is_line_break, Py.is_space.
  destruct (nat_of_ascii c) as [|n]; [discriminate |].
  do 32 (destruct n as [|n]; [simpl; congruence |]).
  simpl. discriminate.
Qed.

Lemma line_feed_is_break (c : ascii) :
  Ascii.eqb c "010" = true -> is_line_break c = true.
Proof. intros ->%Ascii.eqb_eq. reflexivity. Qed.

Lemma carriage_return_is_break (c : ascii) :
  Ascii.eqb c "013" = true -> is_line_break c = true.
Proof. intros ->%Ascii.eqb_eq. reflexivity. Qed.

(** *** [splitlines] *)

Lemma splitlines_line_feed (x rest : string) :
  no_line_break x = true ->
  splitlines (x +++ String "010" rest) = x :: splitlines rest.
Proof.
  unfold no_line_break.
  induction x as [|c x IH]; simpl; intros Hx; [reflexivity |].
  apply andb_prop in Hx as [Hc Hx]. apply negb_true_iff in Hc.
  destruct (Ascii.eqb c "013") eqn:Ecr.
  - apply carriage_return_is_break in Ecr. congruence.
  - rewrite Hc, (IH Hx). reflexivity.
Qed.

Lemma splitlines_line (x rest : string) :
  no_line_break x = true ->
  splitlines (x +++ newline +++ rest) = x :: splitlines rest.
Proof. exact (splitlines_line_feed x rest). Qed.

Lemma splitlines_one (x : string) :
  no_line_break x = true -> x <> EmptyString -> splitlines x = [x].
Proof.
  unfold no_line_break.
  induction x as [|c x IH]; simpl; intros Hx Hne; [congruence |].
  apply andb_prop in Hx as [Hc Hx]. apply negb_true_iff in Hc.
  destruct (Ascii.eqb c "013") eqn:Ecr.
  - apply carriage_return_is_break in Ecr. congruence.
  - rewrite Hc. destruct x as [|d x]; [reflexivity |].
    rewrite (IH Hx); [reflexivity | discriminate].
Qed.

Lemma splitlines_break_free (s : string) :
  Forall (fun line => no_line_break line = true) (splitlines s).
Proof.
  assert (H : forall n s, String.length s <= n ->
            Forall (fun line => no_line_break line = true) (splitlines s)).
  { induction n as [|n IH]; intros [|c t] Hlen; simpl in *;
      try (constructor; fail); try lia.
    assert (Ht : Forall (fun line => no_line_break line = true) (splitlines t))
      by (apply IH; lia).
    destruct (Ascii.eqb c "013").
    - destruct t as [|d t']; [repeat constructor |].
      destruct (Ascii.eqb d "010"); constructor; try reflexivity; try assumption.
      apply IH. simpl in Hlen. lia.
    - destruct (is_line_break c) eqn:Hc.
      + constructor; [reflexivity | assumption].
      + destruct (splitlines t) as [|line lines].
        * repeat constructor. unfold no_line_break. simpl. now rewrite Hc.
        * inversion Ht; subst. constructor; [| assumption].
          unfold no_line_break in *. simpl. now rewrite Hc. }
  exact (H (String.length s) s (le_n _)).
Qed.

(** *** [strip] *)

Lemma rstrip_all_space (s : string) :
  all_space s = true -> Py.rstrip s = EmptyString.
Proof.
  unfold all_space. induction s as [|c s IH]; simpl; [reflexivity |].
  intros [Hc Hs]%andb_prop. now rewrite (IH Hs), Hc.
Qed.

Lemma rstrip_app_space (a b : string) :
  all_space b = true -> Py.rstrip (a +++ b) = Py.rstrip a.
Proof.
  intros Hb. induction a as [|c a IH]; simpl.
  - now apply rstrip_all_space.
  - now rewrite IH.
Qed.

Lemma rstrip_length (s : string) :
  String.length (Py.rstrip s) <= String.length s.
Proof.
  induction s as [|c s IH]; simpl; [lia |].
  destruct (Py.rstrip s); [destruct (Py.is_space c) |]; simpl in *; lia.
Qed.

Lemma lstrip_length (s : string) :
  String.length (Py.lstrip s) <= String.length s.
Proof.
  induction s as [|c s IH]; simpl; [lia |].
  destruct (Py.is_space c); simpl; lia.
Qed.

Lemma lstrip_text (s : string) :
  starts_with_space s = false -> Py.lstrip s = s.
Proof. destruct s as [|c s]; simpl; [reflexivity | now intros ->]. Qed.

Lemma lstrip_spaces (ws s : string) :
  all_space ws = true -> Py.lstrip (ws +++ s) = Py.lstrip s.
Proof.
  unfold all_space. induction ws as [|c ws IH]; simpl; [reflexivity |].
  intros [Hc Hs]%andb_prop. now rewrite Hc, IH.
Qed.

Lemma length_app (a b : string) :
  String.length (a +++ b) = String.length a + String.length b.
Proof. induction a as [|c a IH]; simpl; [reflexivity | now rewrite IH]. Qed.

(** A stripped text neither starts nor ends with white space. *)
Lemma stripped_start (v : string) :
  Py.strip v = v -> starts_with_space v = false.
Proof.
  unfold Py.strip. intros H.
  destruct v as [|c v]; [reflexivity |]. simpl in *.
  destruct (Py.is_space c); [| reflexivity].
  pose proof (rstrip_length (Py.lstrip v)) as H1.
  pose proof (lstrip_length v) as H2.
  rewrite H in H1. simpl in H1. lia.
Qed.

Lemma stripped_rstrip (v : string) : Py.strip v = v -> Py.rstrip v = v.
Proof.
  intros H. pose proof (stripped_start v H) as Hs.
  unfold Py.strip in H. now rewrite (lstrip_text v Hs) in H.
Qed.

Lemma stripped_end (v a b : string) :
  Py.strip v = v -> v = a +++ b -> b <> EmptyString -> all_space b = false.
Proof.
  intros H -> Hb. apply stripped_rstrip in H.
  destruct (all_space b) eqn:E; [| reflexivity].
  rewrite (rstrip_app_space a b E) in H.
  pose proof (rstrip_length a) as Hlen. rewrite H, length_app in Hlen.
  destruct b; [congruence | simpl in Hlen; lia].
Qed.

(** *** The pieces of a pattern *)

Section Pieces.
Context {R : Type}.

Lemma re_spaces_sound (s : string) (k : string -> string -> option R) (x : R) :
  re_spaces s k = Some x ->
  exists ws rest,
    s = ws +++ rest /\ all_space ws = true /\ k ws rest = Some x.
Proof.
  revert k. induction s as [|c s IH]; intros k; simpl.
  - intros H. exists EmptyString, EmptyString. auto.
  - destruct (Py.is_space c) eqn:Hc.
    + destruct (re_spaces s _) eqn:E.
      * intros [= ->]. apply IH in E as (ws & rest & -> & Hws & Hk).
        exists (String c ws), rest. unfold all_space in *. simpl.
        rewrite Hc. auto.
      * intros H. exists EmptyString, (String c s). auto.
    + intros H. exists EmptyString, (String c s). auto.
Qed.

(** The greedy choice: when the rest of the pattern accepts all the white
    space ahead, that is the match. *)
Lemma re_spaces_greedy (ws rest : string) (k : string -> string -> option R)
    (x : R) :
  all_space ws = true -> starts_with_space rest = false ->
  k ws rest = Some x -> re_spaces (ws +++ rest) k = Some x.
Proof.
  unfold all_space. revert k.
  induction ws as [|c ws IH]; intros k Hws Hrest Hk.
  - destruct rest as [|d rest]; simpl in *; [assumption |].
    now rewrite Hrest.
  - simpl in *. apply andb_prop in Hws as [Hc Hws]. rewrite Hc.
    now rewrite (IH (fun w r => k (String c w) r) Hws Hrest Hk).
Qed.

Lemma re_literal_sound (lit s : string) (k : string -> option R) (x : R) :
  re_literal lit s k = Some x ->
  exists rest, s = lit +++ rest /\ k rest = Some x.
Proof.
  revert s. induction lit as [|c lit IH]; intros s; simpl.
  - intros H. now exists s.
  - destruct s as [|d s]; [discriminate |].
    destruct (Ascii.eqb c d) eqn:E; [| discriminate].
    apply Ascii.eqb_eq in E as ->.
    intros (rest & -> & Hk)%IH. now exists rest.
Qed.

Lemma re_literal_app (lit rest : string) (k : string -> option R) :
  re_literal lit (lit +++ rest) k = k rest.
Proof.
  induction lit as [|c lit IH]; simpl; [reflexivity |].
  now rewrite Ascii.eqb_refl.
Qed.

Lemma re_lazy_any_sound (s : string) (k : string -> string -> option R)
    (x : R) :
  re_lazy_any s k = Some x ->
  exists v rest,
    s = v +++ rest /\ no_line_feed v = true /\ k v rest = Some x.
Proof.
  revert k. induction s as [|c s IH]; intros k; simpl.
  - destruct (k EmptyString EmptyString) eqn:E; [| discriminate].
    intros [= ->]. exists EmptyString, EmptyString. auto.
  - destruct (k EmptyString (String c s)) eqn:E.
    + intros [= ->]. exists EmptyString, (String c s). auto.
    + destruct (Ascii.eqb c "010") eqn:Hc; [discriminate |].
      intros (v & rest & -> & Hv & Hk)%IH.
      exists (String c v), rest. unfold no_line_feed in *. simpl.
      rewrite Hc. auto.
Qed.

(** The lazy choice: the shortest text that the rest of the pattern
    accepts is the match. *)
Lemma re_lazy_any_shortest (v rest : string)
    (k : string -> string -> option R) (x : R) :
  no_line_feed v = true ->
  (forall a b, v = a +++ b -> b <> EmptyString -> k a (b +++ rest) = None) ->
  k v rest = Some x ->
  re_lazy_any (v +++ rest) k = Some x.
Proof.
  unfold no_line_feed. revert k.
  induction v as [|c v IH]; intros k Hv Hshort Hk.
  - destruct rest; simpl in *; now rewrite Hk.
  - simpl in Hv. apply andb_prop in Hv as [Hc Hv]. apply negb_true_iff in Hc.
    assert (H0 : k EmptyString (String c (v +++ rest)) = None)
      by (apply (Hshort EmptyString (String c v) eq_refl); discriminate).
    simpl. rewrite H0, Hc. apply IH; [assumption | | assumption].
    intros a b -> Hb. now apply (Hshort (String c a) b).
Qed.
End Pieces.

(** *** The pattern of an assignment *)

(** What the end of the pattern accepts is white space. *)
Lemma suffix_accepts_space (P value rest : string)
    (x : string * string * string) :
  re_spaces rest (fun suffix r7 =>
    if Py.re_end r7 then Some (P, value, suffix) else None) = Some x ->
  all_space rest = true.
Proof.
  intros (ws & r7 & -> & Hws & Hk)%re_spaces_sound.
  unfold all_space in *. rewrite all_chars_app, Hws. simpl.
  destruct r7 as [|c [|d r7]]; simpl in *; try discriminate; [reflexivity |].
  destruct (Ascii.eqb c "010") eqn:E; [| discriminate].
  apply Ascii.eqb_eq in E as ->. reflexivity.
Qed.

Lemma suffix_takes_space (P value s : string) :
  all_space s = true ->
  re_spaces s (fun suffix r7 =>
    if Py.re_end r7 then Some (P, value, suffix) else None)
  = Some (P, value, s).
Proof.
  intros Hs. rewrite <- (append_empty s) at 1.
  now apply re_spaces_greedy.
Qed.

(** A match gives the parts of the line. *)
Lemma match_assignment_sound (key line p value s : string) :
  match_assignment key line = Some (p, value, s) ->
  exists ws1 ws2 ws3 r7,
    p = ws1 +++ key +++ ws2 +++ "=" +++ ws3
    /\ all_space ws1 = true /\ all_space ws2 = true
    /\ all_space ws3 = true /\ all_space s = true
    /\ no_line_feed value = true
    /\ Py.re_end r7 = true
    /\ line = ws1 +++ key +++ ws2 +++ "=" +++ ws3 +++ value +++ s +++ r7.
Proof.
  unfold match_assignment.
  intros (ws1 & r1 & -> & H1 & H)%re_spaces_sound.
  apply re_literal_sound in H as (r2 & -> & H).
  apply re_spaces_sound in H as (ws2 & r3 & -> & H2 & H).
  apply re_literal_sound in H as (r4 & -> & H).
  apply re_spaces_sound in H as (ws3 & r5 & -> & H3 & H).
  apply re_lazy_any_sound in H as (v & r6 & -> & Hv & H).
  apply re_spaces_sound in H as (suffix & r7 & -> & Hs & H).
  destruct (Py.re_end r7) eqn:E; [| discriminate].
  injection H as <- <- <-.
  exists ws1, ws2, ws3, r7. repeat split; assumption.
Qed.

(** The line built from the parts of a match and a stripped value matches
    again, and gives the value back. *)
Lemma match_assignment_rebuilt (key ws1 ws2 ws3 v s : string) :
  Py.truthy key = true -> starts_with_space key = false ->
  all_space ws1 = true -> all_space ws2 = true ->
  all_space ws3 = true -> all_space s = true ->
  no_line_feed v = true -> Py.strip v = v ->
  exists p' value s',
    match_assignment key (ws1 +++ key +++ ws2 +++ "=" +++ ws3 +++ v +++ s)
    = Some (p', value, s')
    /\ Py.strip value = v.
Proof.
  intros Hkey Hstart H1 H2 H3 Hs Hv Hstrip.
  unfold match_assignment.
  destruct v as [|c v].
  - (* no value: the white space after the equals sign takes the suffix *)
    exists (ws1 +++ key +++ ws2 +++ "=" +++ ws3 +++ s), EmptyString, EmptyString.
    split; [| reflexivity].
    apply re_spaces_greedy; [assumption | now destruct key |].
    rewrite re_literal_app.
    apply re_spaces_greedy; [assumption | reflexivity |].
    rewrite (re_literal_app "=").
    change (EmptyString +++ s) with s.
    rewrite <- (append_empty (ws3 +++ s)) at 1.
    apply re_spaces_greedy; [| reflexivity |].
    + unfold all_space in *. now rewrite all_chars_app, H3, Hs.
    + reflexivity.
  - set (value := String c v) in *.
    exists (ws1 +++ key +++ ws2 +++ "=" +++ ws3), value, s.
    split; [| assumption].
    apply re_spaces_greedy; [assumption | now destruct key |].
    rewrite re_literal_app.
    apply re_spaces_greedy; [assumption | reflexivity |].
    rewrite (re_literal_app "=").
    apply re_spaces_greedy; [assumption | |].
    { apply stripped_start in Hstrip. exact Hstrip. }
    apply re_lazy_any_shortest; [assumption | |].
    + intros a b Hab Hb.
      match goal with |- ?m = None => destruct m eqn:E end; [| reflexivity].
      apply suffix_accepts_space in E.
      pose proof (stripped_end value a b Hstrip Hab Hb) as Hend.
      unfold all_space in E, Hend. rewrite all_chars_app in E.
      apply andb_prop in E as [E _]. congruence.
    + now apply suffix_takes_space.
Qed.

(** *** The stock list in the text of the file *)

Lemma no_line_break_app (a b : string) :
  no_line_break (a +++ b) = no_line_break a && no_line_break b.
Proof. apply all_chars_app. Qed.

Lemma no_line_break_no_line_feed (s : string) :
  no_line_break s = true -> no_line_feed s = true.
Proof.
  apply all_chars_weaken. intros c Hc.
  destruct (Ascii.eqb c "010") eqn:E; [| reflexivity].
  apply line_feed_is_break in E. now rewrite E in Hc.
Qed.

Lemma clean_value_parts (v : string) :
  clean_value v = true ->
  no_line_break v = true /\ Py.strip v = v /\ unquote v = v.
Proof.
  unfold clean_value.
  intros [[H1 H2%String.eqb_eq]%andb_prop H3%String.eqb_eq]%andb_prop.
  auto.
Qed.


(** The line that replaces a matching line is one line, matches, and holds
    the new value. *)
Lemma rebuilt_line (key line p value s v : string) :
  Py.truthy key = true -> starts_with_space key = false ->
  no_line_break line = true ->
  match_assignment key line = Some (p, value, s) ->
  no_line_break v = true -> Py.strip v = v ->
  no_line_break (p +++ v +++ s) = true
  /\ exists p' value' s',
       match_assignment key (p +++ v +++ s) = Some (p', value', s')
       /\ Py.strip value' = v.
Proof.
  intros Hkey Hstart Hline Hm Hv Hstrip.
  apply match_assignment_sound in Hm
    as (ws1 & ws2 & ws3 & r7 & -> & H1 & H2 & H3 & Hs & _ & _ & ->).
  rewrite !no_line_break_app in Hline.
  repeat match goal with
         | H : _ && _ = true |- _ => apply andb_prop in H as [? ?]
         end.
  split.
  - rewrite !no_line_break_app.
    repeat (apply andb_true_intro; split); assumption.
  - rewrite !append_assoc.
    apply match_assignment_rebuilt; try assumption.
    now apply no_line_break_no_line_feed.
Qed.



Lemma Forall_app_intro {A} (P : A -> Prop) (l1 l2 : list A) :
  Forall P l1 -> Forall P l2 -> Forall P (l1 ++ l2).
Proof. intros H1 H2. apply Forall_app. now split. Qed.



(** *** The normal form of a stock list *)

Lemma rstrip_stable (s : string) : Py.rstrip (Py.rstrip s) = Py.rstrip s.
Proof.
  induction s as [|c s IH]; simpl; [reflexivity |].
  destruct (Py.rstrip s) as [|d r] eqn:E.
  - destruct (Py.is_space c) eqn:Hc; simpl; [reflexivity | now rewrite Hc].
  - simpl in *. now rewrite IH.
Qed.

Lemma rstrip_start (s : string) :
  starts_with_space s = false -> starts_with_space (Py.rstrip s) = false.
Proof.
  destruct s as [|c s]; simpl; [reflexivity |]. intros Hc.
  destruct (Py.rstrip s); [rewrite Hc |]; simpl; assumption.
Qed.

Lemma lstrip_start (s : string) : starts_with_space (Py.lstrip s) = false.
Proof.
  induction s as [|c s IH]; simpl; [reflexivity |].
  destruct (Py.is_space c) eqn:Hc; [assumption | simpl; assumption].
Qed.

Lemma strip_stable (s : string) : Py.strip (Py.strip s) = Py.strip s.
Proof.
  unfold Py.strip.
  rewrite (lstrip_text (Py.rstrip (Py.lstrip s))).
  - apply rstrip_stable.
  - apply rstrip_start, lstrip_start.
Qed.

Lemma rstrip_app_text (a b : string) :
  Py.rstrip b <> EmptyString -> Py.rstrip (a +++ b) = a +++ Py.rstrip b.
Proof.
  intros Hb. induction a as [|c a IH]; simpl; [reflexivity |].
  rewrite IH. destruct (a +++ Py.rstrip b) eqn:E; [| reflexivity].
  destruct a; simpl in E; congruence.
Qed.





Lemma split_char_not_empty (sep : ascii) (s : string) : split_char sep s <> [].
Proof.
  destruct s as [|c s]; simpl; [discriminate |].
  destruct (Ascii.eqb c sep); [discriminate |].
  destruct (split_char sep s); discriminate.
Qed.














(** *** The two readers of the file agree *)

Lemma lstrip_parts (s : string) :
  exists a, s = a +++ Py.lstrip s /\ all_space a = true.
Proof.
  induction s as [|c s (a & IH & Ha)]; simpl.
  - now exists EmptyString.
  - destruct (Py.is_space c) eqn:Hc.
    + exists (String c a). simpl. rewrite <- IH. unfold all_space in *.
      simpl. now rewrite Hc.
    + now exists EmptyString.
Qed.

Lemma rstrip_parts (s : string) :
  exists b, s = Py.rstrip s +++ b /\ all_space b = true.
Proof.
  induction s as [|c s (b & IH & Hb)]; simpl.
  - now exists EmptyString.
  - destruct (Py.rstrip s) as [|d r] eqn:E.
    + destruct (Py.is_space c) eqn:Hc.
      * exists (String c b). simpl in IH. subst s. unfold all_space in *.
        simpl. now rewrite Hc.
      * exists b. simpl in *. split; [congruence | assumption].
    + exists b. simpl in *. split; [congruence | assumption].
Qed.

Lemma strip_parts (s : string) :
  exists a b,
    s = a +++ Py.strip s +++ b /\ all_space a = true /\ all_space b = true.
Proof.
  destruct (lstrip_parts s) as (a & Hs & Ha).
  destruct (rstrip_parts (Py.lstrip s)) as (b & Hl & Hb).
  exists a, b. unfold Py.strip. now rewrite <- Hl, <- Hs.
Qed.

Lemma lstrip_rstrip (s : string) :
  Py.lstrip (Py.rstrip s) = Py.rstrip (Py.lstrip s).
Proof.
  induction s as [|c s IH]; [reflexivity |].
  destruct (Py.is_space c) eqn:Hc.
  - cbn [Py.lstrip Py.rstrip]. rewrite Hc, <- IH.
    destruct (Py.rstrip s); [reflexivity |]. cbn [Py.lstrip]. now rewrite Hc.
  - assert (Hs : starts_with_space (String c s) = false) by exact Hc.
    rewrite (lstrip_text _ Hs). apply lstrip_text. now apply rstrip_start.
Qed.

Lemma strip_rstrip (s : string) : Py.strip (Py.rstrip s) = Py.strip s.
Proof. unfold Py.strip. now rewrite lstrip_rstrip, rstrip_stable. Qed.

Lemma strip_spaces_around (a v b : string) :
  all_space a = true -> all_space b = true ->
  Py.strip (a +++ v +++ b) = Py.strip v.
Proof.
  intros Ha Hb. unfold Py.strip.
  rewrite (lstrip_spaces a _ Ha), <- !lstrip_rstrip.
  now rewrite (rstrip_app_space v b Hb).
Qed.

Lemma rstrip_text_first (c : ascii) (s : string) :
  Py.is_space c = false -> Py.rstrip (String c s) = String c (Py.rstrip s).
Proof. intros Hc. simpl. destruct (Py.rstrip s); now rewrite ?Hc. Qed.

Lemma split_once_app (sep : ascii) (a b : string) :
  all_chars (fun c => negb (Ascii.eqb c sep)) a = true ->
  split_once sep (a +++ String sep b) = Some (a, b).
Proof.
  induction a as [|c a IH]; simpl.
  - now rewrite Ascii.eqb_refl.
  - intros [Hc Hs]%andb_prop. apply negb_true_iff in Hc.
    now rewrite Hc, (IH Hs).
Qed.

Lemma split_once_parts (sep : ascii) (s a b : string) :
  split_once sep s = Some (a, b) ->
  s = a +++ String sep b
  /\ all_chars (fun c => negb (Ascii.eqb c sep)) a = true.
Proof.
  revert a. induction s as [|c s IH]; simpl; intros a; [discriminate |].
  destruct (Ascii.eqb c sep) eqn:E.
  - apply Ascii.eqb_eq in E as ->. now intros [= <- <-].
  - destruct (split_once sep s) as [[a' b']|]; [| discriminate].
    intros [= <- <-]. destruct (IH a' eq_refl) as [-> Ha].
    simpl. now rewrite E, Ha.
Qed.

Lemma space_is_no_equals (s : string) :
  all_space s = true ->
  all_chars (fun c => negb (Ascii.eqb c "=")) s = true.
Proof.
  apply all_chars_weaken. intros c Hc.
  destruct (Ascii.eqb c "=") eqn:E; [| reflexivity].
  apply Ascii.eqb_eq in E as ->. discriminate.
Qed.

Lemma plain_key_parts (k : string) :
  plain_key k = true ->
  Py.truthy k = true /\ Py.strip k = k /\ no_line_break k = true
  /\ all_chars (fun c => negb (Ascii.eqb c "=")) k = true
  /\ startswith_char "#" k = false.
Proof.
  unfold plain_key.
  intros [[[[H1 H2%String.eqb_eq]%andb_prop H3]%andb_prop H4]%andb_prop
            H5%negb_true_iff]%andb_prop.
  auto.
Qed.

(** One turn of the loop of [_parse_env_text]. *)
Lemma parse_lines_cons (line : string) (lines : list string)
    (out : Dict string) :
  parse_lines (line :: lines) out
  = parse_lines lines
      match line_assignment line with
      | Some (k, v) => dict_set k v out
      | None => out
      end.
Proof.
  unfold line_assignment. cbn [parse_lines].
  destruct (negb (Py.truthy (Py.strip line))
            || startswith_char "#" (Py.strip line)); [reflexivity |].
  destruct (split_once "=" (Py.strip line)) as [[k v]|]; [| reflexivity].
  destruct (negb (Py.truthy (Py.strip k))); reflexivity.
Qed.

Lemma parse_lines_app (lines more : list string) (out : Dict string) :
  parse_lines (lines ++ more) out = parse_lines more (parse_lines lines out).
Proof.
  revert out. induction lines as [|line lines IH]; intros out; [reflexivity |].
  cbn [app]. now rewrite !parse_lines_cons, IH.
Qed.

(** A line with the parts of an assignment assigns the stripped value,
    without its quotes, to the key. *)
Lemma line_assignment_of_parts (key ws1 ws2 rest : string) :
  plain_key key = true ->
  all_space ws1 = true -> all_space ws2 = true ->
  line_assignment (ws1 +++ key +++ ws2 +++ "=" +++ rest)
  = Some (key, unquote (Py.strip rest)).
Proof.
  intros (Hkey & Hstrip & _ & Heq & Hhash)%plain_key_parts H1 H2.
  pose proof (stripped_start key Hstrip) as Hstart.
  change ("=" +++ rest) with (String "=" rest).
  assert (Hline : Py.strip (ws1 +++ key +++ ws2 +++ String "=" rest)
                  = (key +++ ws2) +++ String "=" (Py.rstrip rest)).
  { unfold Py.strip. rewrite (lstrip_spaces ws1 _ H1).
    rewrite lstrip_text by (destruct key; [discriminate | exact Hstart]).
    rewrite <- (append_assoc key ws2).
    rewrite rstrip_app_text; rewrite (rstrip_text_first "=" rest eq_refl);
      [reflexivity | discriminate]. }
  unfold line_assignment. cbn [parse_lines]. rewrite Hline.
  assert (Hguard :
            negb (Py.truthy ((key +++ ws2) +++ String "=" (Py.rstrip rest)))
            || startswith_char "#"
                 ((key +++ ws2) +++ String "=" (Py.rstrip rest)) = false).
  { destruct key; [discriminate |]. simpl in *. exact Hhash. }
  rewrite Hguard, split_once_app.
  - assert (Hk : Py.strip (key +++ ws2) = key).
    { rewrite <- (strip_spaces_around EmptyString key ws2 eq_refl H2)
        in Hstrip. exact Hstrip. }
    rewrite Hk, strip_rstrip, Hkey. reflexivity.
  - rewrite all_chars_app. rewrite Heq. now apply space_is_no_equals.
Qed.

(** A line that the pattern of a key matches assigns, for the other reader,
    the stripped value of the match to the key. *)
Lemma matched_line_assigns (key line p value s : string) :
  plain_key key = true ->
  match_assignment key line = Some (p, value, s) ->
  line_assignment line = Some (key, unquote (Py.strip value)).
Proof.
  intros Hkey Hm.
  apply match_assignment_sound in Hm
    as (ws1 & ws2 & ws3 & r7 & -> & H1 & H2 & H3 & Hs & _ & Hend & ->).
  rewrite (line_assignment_of_parts key ws1 ws2 _ Hkey H1 H2).
  do 3 f_equal. apply strip_spaces_around; [assumption |].
  unfold all_space in *. rewrite all_chars_app, Hs.
  destruct r7 as [|c [|d r7]]; simpl in *; try discriminate; [reflexivity |].
  apply Ascii.eqb_eq in Hend as ->. reflexivity.
Qed.

(** A line of one piece that assigns to a key is matched by the pattern of
    the key. *)
Lemma assigning_line_matches (key line x : string) :
  no_line_feed line = true ->
  line_assignment line = Some (key, x) ->
  exists p value s, match_assignment key line = Some (p, value, s).
Proof.
  intros Hfeed. unfold line_assignment. cbn [parse_lines].
  destruct (negb (Py.truthy (Py.strip line))
            || startswith_char "#" (Py.strip line)); [discriminate |].
  destruct (split_once "=" (Py.strip line)) as [[kraw vraw]|] eqn:Hsplit;
    [| discriminate].
  destruct (Py.strip kraw) as [|c k'] eqn:Hk; [discriminate |].
  cbn [Py.truthy negb hd_error dict_set]. intros [= <- _].
  destruct (split_once_parts _ _ _ _ Hsplit) as [Hline _].
  destruct (strip_parts line) as (ws1 & wsend & Hparts & H1 & Hend).
  destruct (strip_parts kraw) as (ws0 & ws2 & Hkraw & H0 & H2).
  destruct (strip_parts (vraw +++ wsend)) as (ws3 & s & Hv & H3 & Hs).
  (* the key starts the stripped line: nothing is before it *)
  assert (Hws0 : ws0 = EmptyString).
  { destruct ws0 as [|d ws0]; [reflexivity |].
    assert (Hstart : starts_with_space (Py.strip line) = false).
    { unfold Py.strip. apply rstrip_start, lstrip_start. }
    rewrite Hline, Hkraw in Hstart. simpl in Hstart.
    unfold all_space in H0. simpl in H0. now rewrite Hstart in H0. }
  subst ws0. cbn [String.append] in Hkraw.
  assert (Hwhole : line = ws1 +++ String c k' +++ ws2 +++ "=" +++ ws3
                          +++ Py.strip (vraw +++ wsend) +++ s).
  { rewrite Hparts at 1. rewrite Hline, Hkraw, Hk.
    rewrite <- Hv. cbn [String.append]. rewrite !append_assoc.
    reflexivity. }
  rewrite Hwhole.
  destruct (match_assignment_rebuilt (String c k') ws1 ws2 ws3
              (Py.strip (vraw +++ wsend)) s) as (p' & value & s' & Hm & _);
    try assumption; try reflexivity.
  - pose proof (stripped_start (String c k')) as Hstart.
    rewrite <- Hk in Hstart at 1. rewrite strip_stable in Hstart.
    rewrite Hk in Hstart. now apply Hstart.
  - rewrite Hwhole in Hfeed. unfold no_line_feed in *.
    rewrite !all_chars_app in Hfeed.
    do 5 (apply andb_prop in Hfeed as [_ Hfeed]).
    now apply andb_prop in Hfeed as [Hvalue _].
  - apply strip_stable.
  - now exists p', value, s'.
Qed.

(** *** The settings in the text of the file *)

(** Parsing the lines of a joined text finds what parsing the lines
    finds. *)
Lemma parse_after_join (lines : list string) (trailing : bool)
    (out : Dict string) :
  Forall (fun line => no_line_break line = true) lines ->
  parse_lines
    (splitlines (join newline lines
                 +++ (if trailing then newline else EmptyString))) out
  = parse_lines lines out.
Proof.
  revert out.
  induction lines as [|l [|l2 rest] IH]; intros out Hlines.
  - now destruct trailing.
  - inversion Hlines as [|? ? Hl _]; subst.
    cbn [join]. destruct trailing.
    + pose proof (splitlines_line l EmptyString Hl) as H.
      rewrite append_empty in H. now rewrite H.
    + rewrite append_empty.
      destruct l as [|c l]; [reflexivity |].
      now rewrite splitlines_one.
  - inversion Hlines as [|? ? Hl Hrest]; subst.
    change (join newline (l :: l2 :: rest))
      with (l +++ newline +++ join newline (l2 :: rest)).
    rewrite !append_assoc, (splitlines_line l _ Hl).
    rewrite (parse_lines_cons l (splitlines _)),
      (parse_lines_cons l (l2 :: rest)).
    now rewrite (IH _ Hrest).
Qed.

(** Lines that assign the same to a key, or nothing to it, give the key
    the same value. *)
Lemma parse_lines_same_key (k : string) (lines lines' : list string)
    (out out' : Dict string) :
  Forall2 (fun l l' =>
             l = l'
             \/ (forall x, line_assignment l <> Some (k, x))
                /\ (forall x, line_assignment l' <> Some (k, x)))
    lines lines' ->
  dict_get k out = dict_get k out' ->
  dict_get k (parse_lines lines out) = dict_get k (parse_lines lines' out').
Proof.
  intros Hlines. revert out out'.
  induction Hlines as [|l l' lines lines' Hl _ IH]; intros out out' Hout;
    [exact Hout |].
  rewrite !parse_lines_cons. apply IH.
  assert (Hset : forall l0 d,
            (forall x, line_assignment l0 <> Some (k, x)) ->
            dict_get k match line_assignment l0 with
                       | Some (k0, v0) => dict_set k0 v0 d
                       | None => d
                       end = dict_get k d).
  { intros l0 d Hno. destruct (line_assignment l0) as [[k0 v0]|];
      [| reflexivity].
    apply dict_get_set_other. intros ->. now apply (Hno v0). }
  destruct Hl as [<- | [Hno Hno']].
  - destruct (line_assignment l) as [[k0 v0]|]; [| exact Hout].
    destruct (String.eqb_spec k0 k) as [-> | Hne].
    + now rewrite !dict_get_set_same.
    + rewrite !dict_get_set_other; [exact Hout | congruence | congruence].
  - now rewrite (Hset l out Hno), (Hset l' out' Hno').
Qed.

(** When every line that assigns to a key gives it the same value, and a
    line does, that is the value of the key. *)
Lemma parse_lines_all_same (k v : string) (lines : list string)
    (out : Dict string) :
  (forall line x,
     In line lines -> line_assignment line = Some (k, x) -> x = v) ->
  dict_get k out = Some v
  \/ (exists line, In line lines /\ line_assignment line = Some (k, v)) ->
  dict_get k (parse_lines lines out) = Some v.
Proof.
  revert out.
  induction lines as [|l lines IH]; intros out Hall Hsome.
  - destruct Hsome as [H | (line & [] & _)]. exact H.
  - rewrite parse_lines_cons. apply IH.
    + intros line x Hin. apply Hall. now right.
    + destruct (line_assignment l) as [[k0 v0]|] eqn:El.
      * destruct (String.eqb_spec k0 k) as [-> | Hne].
        -- left. rewrite dict_get_set_same. f_equal.
           apply (Hall l v0); [now left | exact El].
        -- rewrite dict_get_set_other by congruence.
           destruct Hsome as [H | (line & [<- | Hin] & Hline)];
             [now left | congruence | right; eauto].
      * destruct Hsome as [H | (line & [<- | Hin] & Hline)];
          [now left | congruence | right; eauto].
Qed.

(** A comment and a line without equals sign assign nothing. *)
Lemma comment_assigns_nothing (line : string) :
  startswith_char "#" (Py.lstrip line) = true -> line_assignment line = None.
Proof.
  intros H. unfold line_assignment. cbn [parse_lines].
  assert (Hs : startswith_char "#" (Py.strip line) = true).
  { unfold Py.strip. destruct (Py.lstrip line) as [|c t]; [discriminate |].
    cbn [startswith_char] in H. apply Ascii.eqb_eq in H as ->.
    now rewrite (rstrip_text_first "#" t eq_refl). }
  now rewrite Hs, orb_true_r.
Qed.

Lemma split_once_none (sep : ascii) (s : string) :
  split_once sep s = None <->
  all_chars (fun c => negb (Ascii.eqb c sep)) s = true.
Proof.
  induction s as [|c s IH]; simpl; [tauto |].
  destruct (Ascii.eqb c sep); simpl; [split; discriminate |].
  rewrite <- IH. destruct (split_once sep s) as [[a b]|]; split;
    congruence.
Qed.

Lemma no_equals_assigns_nothing (line : string) :
  has_equals line = false -> line_assignment line = None.
Proof.
  unfold has_equals. intros H.
  assert (Hnone : split_once "=" line = None)
    by (destruct (split_once "=" line); [discriminate | reflexivity]).
  apply split_once_none in Hnone.
  destruct (strip_parts line) as (a & b & Hparts & _).
  rewrite Hparts, !all_chars_app in Hnone.
  apply andb_prop in Hnone as [_ [Hnone _]%andb_prop].
  apply split_once_none in Hnone.
  unfold line_assignment. cbn [parse_lines]. rewrite Hnone.
  now destruct (negb (Py.truthy (Py.strip line))
                || startswith_char "#" (Py.strip line)).
Qed.

(** The first key of [updates] whose pattern matches. *)
Lemma first_matching_key_some (updates : Dict string) (line k new_line : string) :
  first_matching_key updates line = Some (k, new_line) ->
  exists v p value s,
    In (k, v) updates
    /\ match_assignment k line = Some (p, value, s)
    /\ new_line = p +++ v +++ s.
Proof.
  induction updates as [|[k0 v0] updates IH]; cbn [first_matching_key];
    [discriminate |].
  destruct (match_assignment k0 line) as [[[p value] s]|] eqn:Hm.
  - intros [= <- <-]. exists v0, p, value, s. repeat split; [now left | exact Hm].
  - intros (v & p & value & s & Hin & H)%IH.
    exists v, p, value, s. split; [now right | exact H].
Qed.

Lemma first_matching_key_none (updates : Dict string) (line k v : string) :
  first_matching_key updates line = None ->
  In (k, v) updates -> match_assignment k line = None.
Proof.
  induction updates as [|[k0 v0] updates IH]; cbn [first_matching_key];
    [intros _ [] |].
  destruct (match_assignment k0 line) as [[[p value] s]|] eqn:Hm;
    [discriminate |].
  intros Hnone [[= <- <-] | Hin]; [exact Hm | now apply IH].
Qed.

Lemma unique_keys_NoDup (keys : list string) :
  unique_keys keys = true -> NoDup keys.
Proof.
  induction keys as [|k keys IH]; simpl; [constructor |].
  intros [Hk Hkeys]%andb_prop. constructor; [| now apply IH].
  intros Hin. apply negb_true_iff in Hk.
  assert (existsb (String.eqb k) keys = true); [| congruence].
  apply existsb_exists. exists k. split; [exact Hin | apply String.eqb_refl].
Qed.

Lemma good_updates_parts (updates : Dict string) :
  good_updates updates = true ->
  NoDup (dict_keys updates)
  /\ forall k v, In (k, v) updates ->
                 plain_key k = true /\ clean_value v = true.
Proof.
  unfold good_updates. intros [Hkeys Hall]%andb_prop.
  split; [now apply unique_keys_NoDup |].
  intros k v Hin. rewrite forallb_forall in Hall.
  now apply andb_prop, (Hall (k, v)).
Qed.

(** In a dictionary, a key has one value. *)
Lemma unique_value (updates : Dict string) (k v v' : string) :
  NoDup (dict_keys updates) ->
  In (k, v) updates -> In (k, v') updates -> v = v'.
Proof.
  induction updates as [|[k0 v0] updates IH]; simpl; [intros _ [] |].
  intros Hnd. inversion Hnd as [|? ? Hnotin Hnd']; subst.
  intros [[= -> ->] | Hin] [[= <-] | Hin']; try reflexivity.
  - exfalso. apply Hnotin. now apply (in_map fst _ (k, v')).
  - exfalso. apply Hnotin. subst. now apply (in_map fst _ (k0, v)).
  - now apply IH.
Qed.

Lemma dict_get_In (updates : Dict string) (k v : string) :
  dict_get k updates = Some v -> In (k, v) updates.
Proof.
  induction updates as [|[k0 v0] updates IH]; simpl; [discriminate |].
  destruct (String.eqb_spec k0 k) as [-> | Hne].
  - intros [= ->]. now left.
  - intros H. right. now apply IH.
Qed.

(** The line that sets a key to a value, as both update functions write
    it. *)
Lemma written_line (k v : string) :
  plain_key k = true -> clean_value v = true ->
  no_line_break (k +++ "=" +++ v) = true
  /\ line_assignment (k +++ "=" +++ v) = Some (k, v).
Proof.
  intros Hk (Hv & Hstrip & Hquote)%clean_value_parts. split.
  - apply plain_key_parts in Hk as (_ & _ & Hbreak & _).
    now rewrite !no_line_break_app, Hbreak, Hv.
  - pose proof (line_assignment_of_parts k EmptyString EmptyString v Hk
                  eq_refl eq_refl) as H.
    change (line_assignment (k +++ "=" +++ v)
            = Some (k, unquote (Py.strip v))) in H.
    now rewrite H, Hstrip, Hquote.
Qed.

(** The line that replaces a line matched by the pattern of a key. *)
Lemma updated_line (k v line p value s : string) :
  plain_key k = true -> clean_value v = true ->
  no_line_break line = true ->
  match_assignment k line = Some (p, value, s) ->
  no_line_break (p +++ v +++ s) = true
  /\ line_assignment line = Some (k, unquote (Py.strip value))
  /\ line_assignment (p +++ v +++ s) = Some (k, v).
Proof.
  intros Hk (Hv & Hstrip & Hquote)%clean_value_parts Hline Hm.
  pose proof (plain_key_parts k Hk) as (Htruthy & Hkstrip & _).
  destruct (rebuilt_line k line p value s v Htruthy
              (stripped_start k Hkstrip) Hline Hm Hv Hstrip)
    as (Hnew & p' & value' & s' & Hm' & Hvalue).
  split; [exact Hnew |]. split; [exact (matched_line_assigns k line p value s Hk Hm) |].
  rewrite (matched_line_assigns k _ p' value' s' Hk Hm').
  now rewrite Hvalue, Hquote.
Qed.

(** The loop of [_update_env_kv]. *)
Lemma replace_kv_lines_spec (updates : Dict string) (lines : list string) :
  good_updates updates = true ->
  Forall (fun line => no_line_break line = true) lines ->
  let out := replace_kv_lines updates lines in
  Forall (fun line => no_line_break line = true) (fst out)
  /\ Forall2 (line_updated updates) lines (fst out)
  /\ Forall (fun line => assigns_update updates line
                         \/ assigns_no_update updates line) (fst out)
  /\ forall k, In k (snd out) ->
               exists line, In line (fst out)
                            /\ exists v, In (k, v) updates
                                 /\ line_assignment line = Some (k, v).
Proof.
  intros (Hnd & Hgood)%good_updates_parts Hlines.
  induction Hlines as [|line lines Hline Hlines IH]; cbn [replace_kv_lines].
  - repeat split; try constructor. intros k [].
  - destruct (replace_kv_lines updates lines) as [out replaced].
    cbn [fst snd] in *. destruct IH as (Hout & Hrel & Hcases & Hrep).
    assert (Hrep' : forall k0 l0, In k0 replaced ->
              exists line0, In line0 (l0 :: out)
                /\ exists v, In (k0, v) updates
                     /\ line_assignment line0 = Some (k0, v)).
    { intros k0 l0 (line0 & Hin & H)%Hrep. exists line0. split; [now right | exact H]. }
    assert (Hkeep : forall Hnothing : assigns_no_update updates line,
              Forall (fun l => no_line_break l = true) (line :: out)
              /\ Forall2 (line_updated updates) (line :: lines) (line :: out)
              /\ Forall (fun l => assigns_update updates l
                                  \/ assigns_no_update updates l) (line :: out)
              /\ forall k0, In k0 replaced ->
                   exists line0, In line0 (line :: out)
                     /\ exists v, In (k0, v) updates
                          /\ line_assignment line0 = Some (k0, v)).
    { intros Hnothing. split; [now constructor |].
      split; [constructor; [now left | assumption] |].
      split; [constructor; [now right | assumption] |].
      intros k0. apply Hrep'. }
    destruct (startswith_char "#" (Py.lstrip line) || negb (has_equals line))
      eqn:Hskip.
    + cbn [fst snd]. apply Hkeep. intros k v x _.
      apply orb_prop in Hskip as [Hc | He].
      * now rewrite (comment_assigns_nothing line Hc).
      * apply negb_true_iff in He.
        now rewrite (no_equals_assigns_nothing line He).
    + destruct (first_matching_key updates line) as [[k new_line]|] eqn:Hfirst;
        cbn [fst snd].
      * apply first_matching_key_some in Hfirst
          as (v & p & value & s & Hin & Hm & ->).
        destruct (Hgood k v Hin) as [Hk Hv].
        destruct (updated_line k v line p value s Hk Hv Hline Hm)
          as (Hnew & Hold & Hassign).
        split; [now constructor |].
        split; [constructor; [right; now eauto 6 | assumption] |].
        split; [constructor; [left; exists k, v; now split | assumption] |].
        intros k0 [<- | Hin0]; [| now apply Hrep'].
        exists (p +++ v +++ s). split; [now left | eauto].
      * apply Hkeep. intros k v x Hin Hassign.
        pose proof (first_matching_key_none updates line k v Hfirst Hin) as Hm.
        destruct (assigning_line_matches k line x
                    (no_line_break_no_line_feed line Hline) Hassign)
          as (p & value & s & Hm').
        congruence.
Qed.

(** The lines that [_update_env_kv] appends for the keys that no line
    held. *)
Lemma appended_lines (updates missing : Dict string) :
  good_updates updates = true ->
  (forall k v, In (k, v) missing -> In (k, v) updates) ->
  let lines := map (fun kv => fst kv +++ "=" +++ snd kv) missing in
  Forall (fun line => no_line_break line = true) lines
  /\ Forall (assigns_update updates) lines
  /\ forall k v, In (k, v) missing ->
                 exists line, In line lines
                              /\ line_assignment line = Some (k, v).
Proof.
  intros (Hnd & Hgood)%good_updates_parts.
  induction missing as [|[k v] missing IH]; intros Hsub; cbn [map fst snd].
  - repeat split; try constructor. intros k v [].
  - destruct (Hgood k v (Hsub k v (or_introl eq_refl))) as [Hk Hv].
    destruct (written_line k v Hk Hv) as [Hline Hassign].
    destruct IH as (H1 & H2 & H3); [intros k0 v0 Hin; apply Hsub; now right |].
    split; [now constructor |]. split.
    + constructor; [| assumption]. exists k, v. split; [| exact Hassign].
      apply Hsub. now left.
    + intros k0 v0 [[= -> ->] | Hin].
      * eexists. split; [now left | exact Hassign].
      * destruct (H3 k0 v0 Hin) as (line & Hin' & H). exists line.
        split; [now right | exact H].
Qed.

(** The lines of the new text, the ones that [_update_env_kv] joins: the
    lines of the old text, updated, and then the new lines. *)
Lemma update_env_kv_lines (env_text : string) (updates : Dict string) :
  good_updates updates = true ->
  exists out more,
    _parse_env_text (_update_env_kv env_text updates)
    = parse_lines (out ++ more) []
    /\ Forall2 (line_updated updates) (splitlines env_text) out
    /\ Forall (fun line => assigns_update updates line
                           \/ assigns_no_update updates line) out
    /\ Forall (fun line => assigns_update updates line
                           \/ line_assignment line = None) more
    /\ forall k v, In (k, v) updates ->
                   exists line, In line (out ++ more)
                                /\ line_assignment line = Some (k, v).
Proof.
  intros Hgood.
  pose proof (replace_kv_lines_spec updates (splitlines env_text) Hgood
                (splitlines_break_free env_text)) as H.
  unfold _parse_env_text, _update_env_kv, join_lines.
  destruct (replace_kv_lines updates (splitlines env_text)) as [out replaced].
  cbn [fst snd] in H. destruct H as (Hout & Hrel & Hcases & Hrep).
  set (missing := filter (fun kv => negb (existsb (String.eqb (fst kv)) replaced))
                    updates).
  assert (Hsub : forall k v, In (k, v) missing -> In (k, v) updates).
  { intros k v Hin. now apply filter_In in Hin. }
  destruct (appended_lines updates missing Hgood Hsub)
    as (Hnew & Hnewcases & Hnewkeys).
  assert (Hfound : forall more k v,
            In (k, v) updates ->
            (In (k, v) missing ->
             exists line, In line more /\ line_assignment line = Some (k, v)) ->
            exists line, In line (out ++ more)
                         /\ line_assignment line = Some (k, v)).
  { intros more k v Hin Hmissing.
    destruct (existsb (String.eqb k) replaced) eqn:E.
    - apply existsb_exists in E as (k' & Hk' & ->%String.eqb_eq).
      destruct (Hrep k' Hk') as (line & Hline & v' & Hin' & Hassign).
      apply good_updates_parts in Hgood as [Hnd _].
      rewrite <- (unique_value updates k' v v' Hnd Hin Hin') in Hassign.
      exists line. split; [apply in_or_app; now left | exact Hassign].
    - destruct Hmissing as (line & Hline & Hassign).
      + apply filter_In. split; [exact Hin |]. cbn [fst]. now rewrite E.
      + exists line. split; [apply in_or_app; now right | exact Hassign]. }
  assert (Hnewcases' : Forall (fun line => assigns_update updates line
                                 \/ line_assignment line = None)
                         (map (fun kv => fst kv +++ "=" +++ snd kv) missing)).
  { eapply Forall_impl; [| exact Hnewcases]. now left. }
  destruct missing as [|kv missing'] eqn:Emissing.
  - exists out, [].
    split; [rewrite app_nil_r; now apply parse_after_join |].
    split; [assumption |]. split; [assumption |]. split; [constructor |].
    intros k v Hin. apply Hfound; [exact Hin | intros []].
  - set (new_lines := map (fun kv => fst kv +++ "=" +++ snd kv) (kv :: missing'))
      in *.
    destruct (ends_with_text out).
    + exists out, ([EmptyString] ++ new_lines).
      rewrite <- (app_assoc out). split.
      * apply parse_after_join.
        repeat apply Forall_app_intro; try assumption. now repeat constructor.
      * split; [assumption |]. split; [assumption |]. split.
        -- constructor; [now right | assumption].
        -- intros k v Hin. apply Hfound; [exact Hin |].
           intros (line & Hline & H)%Hnewkeys. exists line.
           split; [now right | exact H].
    + exists out, new_lines. split.
      * apply parse_after_join. now apply Forall_app_intro.
      * split; [assumption |]. split; [assumption |]. split; [assumption |].
        intros k v Hin. apply Hfound; [exact Hin |]. apply Hnewkeys.
Qed.

(** A saved setting is read back. *)
Lemma update_env_kv_round_trip (env_text : string) (updates : Dict string)
    (k v : string) :
  good_updates updates = true ->
  dict_get k updates = Some v ->
  dict_get k (_parse_env_text (_update_env_kv env_text updates)) = Some v.
Proof.
  intros Hgood Hin%dict_get_In.
  destruct (update_env_kv_lines env_text updates Hgood)
    as (out & more & -> & _ & Hcases & Hmore & Hkeys).
  apply good_updates_parts in Hgood as [Hnd _].
  apply parse_lines_all_same.
  - intros line x Hline Hassign.
    assert (Hcase : assigns_update updates line
                    \/ assigns_no_update updates line).
    { rewrite Forall_forall in Hcases, Hmore.
      apply in_app_or in Hline as [Hline | Hline]; [now apply Hcases |].
      destruct (Hmore line Hline) as [H | H]; [now left | congruence]. }
    destruct Hcase as [(k' & v' & Hin' & Hassign') | Hnone].
    + rewrite Hassign in Hassign'. injection Hassign' as <- <-.
      now apply (unique_value updates k).
    + now elim (Hnone k v x Hin).
  - right. now apply Hkeys.
Qed.

(** Lines that assign nothing to a key leave its value. *)
Lemma parse_lines_other_keys (k : string) (lines : list string)
    (out : Dict string) :
  Forall (fun line => forall x, line_assignment line <> Some (k, x)) lines ->
  dict_get k (parse_lines lines out) = dict_get k out.
Proof.
  intros Hlines. revert out.
  induction Hlines as [|line lines Hline _ IH]; intros out; [reflexivity |].
  rewrite parse_lines_cons, IH.
  destruct (line_assignment line) as [[k0 v0]|]; [| reflexivity].
  apply dict_get_set_other. intros ->. now apply (Hline v0).
Qed.

(** The other settings are as they were. *)
Lemma update_env_kv_frame (env_text : string) (updates : Dict string)
    (k : string) :
  good_updates updates = true ->
  dict_get k updates = None ->
  dict_get k (_parse_env_text (_update_env_kv env_text updates))
  = dict_get k (_parse_env_text env_text).
Proof.
  intros Hgood Hk.
  assert (Hnot : forall v, ~ In (k, v) updates).
  { intros v Hin. apply (in_map fst) in Hin.
    apply (dict_get_in_keys updates k) in Hin. congruence. }
  destruct (update_env_kv_lines env_text updates Hgood)
    as (out & more & -> & Hrel & _ & Hmore & _).
  rewrite parse_lines_app, parse_lines_other_keys.
  - unfold _parse_env_text. symmetry. apply parse_lines_same_key; [| reflexivity].
    eapply Forall2_impl; [| exact Hrel].
    intros old new [-> | (k' & v & x & Hin & Hold & Hnew)]; [now left |].
    right. split; intros y H; rewrite H in *.
    + injection Hold as <- _. now apply (Hnot v).
    + injection Hnew as <- _. now apply (Hnot v).
  - eapply Forall_impl; [| exact Hmore].
    intros line [(k' & v & Hin & Hassign) | Hnone] x H.
    + rewrite H in Hassign. injection Hassign as <- <-. now apply (Hnot x).
    + congruence.
Qed.

(** *** The two update functions agree on the stock list *)





(** *** [get_env_values] *)

Lemma pick_values_other (data : Dict string) (keys : list (string * string))
    (out : Dict string) (k : string) :
  ~ In k (map fst keys) ->
  dict_get k (pick_values data keys out) = dict_get k out.
Proof.
  revert out. induction keys as [|[k0 d0] keys IH]; intros out Hk;
    cbn [pick_values]; [reflexivity |].
  rewrite IH by (intros H; apply Hk; now right).
  apply dict_get_set_other. intros ->. apply Hk. now left.
Qed.

Lemma pick_values_key (data : Dict string) (keys : list (string * string))
    (out : Dict string) (k default : string) :
  NoDup (map fst keys) -> In (k, default) keys ->
  dict_get k (pick_values data keys out)
  = Some match dict_get k data with
         | Some v => v
         | None => default
         end.
Proof.
  revert out. induction keys as [|[k0 d0] keys IH]; intros out Hnd Hin;
    [now elim Hin |].
  cbn [pick_values]. cbn [map fst] in Hnd.
  inversion Hnd as [|? ? Hnotin Hnd']; subst.
  destruct Hin as [[= -> ->] | Hin].
  - rewrite pick_values_other by exact Hnotin. apply dict_get_set_same.
  - now apply IH.
Qed.


(** *** The text that [set_env_text] writes *)


(** *** The pattern of the time of day *)

Lemma re_lit_prefix (p s : string) (k : string -> bool) :
  Py.re_lit p k s = true -> exists rest, s = p +++ rest /\ k rest = true.
Proof.
  revert s. induction p as [|c p IH]; intros s; simpl.
  - intros H. now exists s.
  - destruct s as [|d s]; [discriminate |].
    intros [Hc (rest & -> & Hk)%IH]%andb_prop.
    apply Ascii.eqb_eq in Hc as ->. now exists rest.
Qed.

Lemma schedule_time_has_backslash (st : string) :
  schedule_time_matches st = true ->
  all_chars (fun c => negb (Ascii.eqb c "092")) st = false.
Proof.
  unfold schedule_time_matches.
  destruct st as [|c st]; [discriminate |].
  intros [[_ H]%andb_prop | [_ H]%andb_prop]%orb_prop.
  - apply re_lit_prefix in H as (rest & -> & _). simpl.
    now rewrite andb_false_r.
  - destruct st as [|d st]; [discriminate |].
    apply andb_prop in H as [_ H].
    apply re_lit_prefix in H as (rest & -> & H).
    destruct rest as [|e rest]; [discriminate |].
    apply andb_prop in H as [_ H].
    apply re_lit_prefix in H as (rest' & -> & _). simpl.
    now rewrite !andb_false_r.
Qed.

(** *** The backup of [set_env_text] *)




(* ------------------------------------------------------------------ *)
(** ** The configuration service and its pages *)
(* ------------------------------------------------------------------ *)




(** X27.  [update_env_values] and [get_env_values]: when the file can be
    written and the updates are a dictionary of plain keys and clean
    values, [update_env_values] returns, and [get_env_values] then finds
    the new value for every key of the updates and the value as before for
    every other key. *)
Theorem saved_settings_are_read_back (fs : Files) (updates : Dict string) :
  env_write_error fs = None -> good_updates updates = true ->
  exists fs',
    update_env_values fs updates = (Returns tt, fs')
    /\ forall keys k default,
         unique_keys (map fst keys) = true -> In (k, default) keys ->
         dict_get k (get_env_values fs' keys)
         = match dict_get k updates with
           | Some v => Some v
           | None => dict_get k (get_env_values fs keys)
           end.
Proof.
  intros Hwrite Hgood.
  unfold update_env_values, write_env_text. rewrite Hwrite.
  eexists. split; [reflexivity |].
  intros keys k default Hkeys%unique_keys_NoDup Hin.
  unfold get_env_values, read_env_text at 1. cbn [env_file].
  rewrite !(pick_values_key _ keys [] k default Hkeys Hin).
  destruct (dict_get k updates) as [v|] eqn:Hk.
  - now rewrite (update_env_kv_round_trip _ updates k v Hgood Hk).
  - now rewrite (update_env_kv_frame _ updates k Hgood Hk).
Qed.

(** X28.  [handle_common_update]: the pattern for [SCHEDULE_TIME] asks for
    a backslash, so for a request from the machine itself whose
    [SCHEDULE_TIME], taken from the form or else from the current settings,
    holds no backslash (as every time written [HH:MM]), the answer is 400
    with the configuration page and the message of the failed check, and no
    file is written. *)
Theorem time_without_backslash_is_rejected (client_ip : option string)
    (fs : Files) (form_data : Query) (st : string) :
  _is_loopback_request client_ip = true ->
  form_get form_data "SCHEDULE_TIME"
    (current_value (get_env_values fs common_keys) "SCHEDULE_TIME")
  = Returns st ->
  all_chars (fun c => negb (Ascii.eqb c "092")) st = true ->
  handle_common_update client_ip fs form_data
  = (Returns {| page := ConfigPage (get_stock_list fs) (env_name fs)
                          (Some ("保存失败：" +++
                                 "SCHEDULE_TIME 格式需为 HH:MM（24 小时制）"))
                          (get_env_values fs common_keys);
                page_status := BAD_REQUEST |}, fs).
Proof.
  intros Hlocal Hst Hplain.
  unfold handle_common_update. rewrite Hlocal. cbn [negb]. rewrite Hst.
  destruct (schedule_time_matches st) eqn:Hm; [| reflexivity].
  apply schedule_time_has_backslash in Hm. congruence.
Qed.

(** X29.  The pages of the [.env] file are for the machine itself: a
    request whose client address is neither 127.0.0.1 nor ::1 (or cannot be
    read) gets 403 and the error page from [handle_env_editor],
    [handle_env_update] and [handle_common_update]; the page holds nothing
    of the file, and the files are as they were. *)
Theorem other_machines_are_refused (client_ip : option string) (fs : Files)
    (stamp : string) (form_data : Query) :
  client_ip <> Some "127.0.0.1" -> client_ip <> Some "::1" ->
  (exists message,
     handle_env_editor client_ip fs
     = {| page := ErrorPage 403 "禁止访问" message;
          page_status := FORBIDDEN |})
  /\ (exists message,
        handle_env_update client_ip fs stamp form_data
        = (Returns {| page := ErrorPage 403 "禁止访问" message;
                      page_status := FORBIDDEN |}, fs))
  /\ (exists message,
        handle_common_update client_ip fs form_data
        = (Returns {| page := ErrorPage 403 "禁止访问" message;
                      page_status := FORBIDDEN |}, fs)).
Proof.
  intros H4 H6.
  assert (Hother : _is_loopback_request client_ip = false).
  { destruct client_ip as [ip|]; [| reflexivity]. cbn [_is_loopback_request].
    destruct (String.eqb_spec ip "127.0.0.1") as [-> | _]; [congruence |].
    destruct (String.eqb_spec ip "::1") as [-> | _]; [congruence |].
    reflexivity. }
  unfold handle_env_editor, handle_env_update, handle_common_update.
  rewrite Hother. cbn [negb]. repeat split; eexists; reflexivity.
Qed.


(** ** The further theorems at sample inputs *)

Lemma sample_analysis_is_a_job o code tid rt sn :
  is_job tid (events (_run_analysis o code tid rt sn)).
Proof. left. exists o, code, rt, sn. reflexivity. Qed.

Lemma sample_review_is_a_job o tid :
  is_job tid (events (_run_market_review o tid)).
Proof. right. exists o. reflexivity. Qed.

Lemma job_leaves_a_finished_record_witness :
  let tid := "600519_20260119_103000_000001" in
  let job := events (_run_analysis send_fails "600519" tid FULL true) in
  exists tasks' task,
    run_events tid job (sample_tasks 2) = Some tasks'
    /\ get_task_status tasks' tid = Some task
    /\ finished_record task
    /\ forall k, k <> tid ->
         get_task_status tasks' k = get_task_status (sample_tasks 2) k.
Proof.
  intros tid job.
  apply (job_leaves_a_finished_record tid job (sample_tasks 2)).
  apply sample_analysis_is_a_job.
Defined.

Lemma job_progress_never_decreases_witness :
  nondecreasing
    (progress_values
       (events (_run_market_review bare_review "market_review_1")) None)
  = true.
Proof.
  apply (job_progress_never_decreases "market_review_1").
  apply sample_review_is_a_job.
Defined.

Lemma job_log_is_complete_witness :
  let tid := "600519_20260119_103000_000001" in
  let job := events (_run_analysis fetch_fails "600519" tid SIMPLE true) in
  exists tasks' task,
    run_events tid job (sample_tasks 2) = Some tasks'
    /\ get_task_status tasks' tid = Some task
    /\ logs task = appended_entries job
    /\ (List.length (logs task) < _max_task_logs)%nat.
Proof.
  intros tid job.
  apply (job_log_is_complete tid job (sample_tasks 2)).
  apply sample_analysis_is_a_job.
Defined.

Lemma unguarded_exception_is_recorded_witness :
  let tid := "600519_20260119_103000_000001" in
  let job := events (_run_analysis analyze_raises "600519" tid SIMPLE false) in
  exists tasks' task,
    run_events tid job (sample_tasks 2) = Some tasks'
    /\ get_task_status tasks' tid = Some task
    /\ status task = "failed"
    /\ error task = Some "model overloaded".
Proof.
  intros tid job.
  apply (unguarded_exception_is_recorded tid job (sample_tasks 2)
           "model overloaded").
  - apply sample_analysis_is_a_job.
  - reflexivity.
Defined.

Lemma failed_push_keeps_the_job_completed_witness :
  let tid := "600519_20260119_103000_000001" in
  let job := events (_run_analysis send_fails "600519" tid SIMPLE true) in
  exists tasks' task,
    run_events tid job (sample_tasks 2) = Some tasks'
    /\ get_task_status tasks' tid = Some task
    /\ status task = "completed"
    /\ error task = None.
Proof.
  intros tid job.
  apply (failed_push_keeps_the_job_completed send_fails "600519" tid SIMPLE
           true (sample_tasks 2)).
  reflexivity.
Defined.

Lemma empty_analysis_fails_the_job_witness :
  let tid := "600519_20260119_103000_000001" in
  let job := events (_run_analysis analyze_gives_none "600519" tid SIMPLE false) in
  exists tasks' task,
    run_events tid job (sample_tasks 2) = Some tasks'
    /\ get_task_status tasks' tid = Some task
    /\ status task = "failed"
    /\ error task = Some "分析返回空结果"
    /\ result task = None.
Proof.
  intros tid job.
  apply (empty_analysis_fails_the_job analyze_gives_none "600519" tid SIMPLE
           false (sample_tasks 2)).
  reflexivity.
Defined.

Lemma review_setup_failures_are_only_logged_witness :
  let tid := "market_review_20260119_103000_000002" in
  let job := events (_run_market_review bare_review tid) in
  exists tasks' task entry,
    run_events tid job (sample_tasks 2) = Some tasks'
    /\ get_task_status tasks' tid = Some task
    /\ status task = "completed"
    /\ In entry (logs task)
    /\ level entry = "WARNING"
    /\ (msg entry = "搜索服务初始化失败（将继续）：" +++ "no search key"
        \/ msg entry = "AI 分析器初始化失败（将继续）：" +++ "no search key").
Proof.
  intros tid job.
  apply (review_setup_failures_are_only_logged bare_review tid (sample_tasks 2)
           "no search key" bare_review_text).
  - left. reflexivity.
  - reflexivity.
Defined.

Lemma list_tasks_lists_the_map_witness :
  (exists cut,
      Permutation (list_tasks (sample_tasks 5) 9 ++ cut)
        (dict_values (sample_tasks 5)))
  /\ Permutation (list_tasks (sample_tasks 5) 9) (dict_values (sample_tasks 5)).
Proof.
  split.
  - apply (proj1 (list_tasks_lists_the_map (sample_tasks 5) 9)).
  - apply (proj2 (list_tasks_lists_the_map (sample_tasks 5) 9)).
    vm_compute. discriminate.
Defined.

Lemma list_tasks_keeps_insertion_order_of_ties_witness :
  started_at (sample_clock 7) (list_tasks tied_tasks 20)
  = started_at (sample_clock 7) (dict_values tied_tasks).
Proof.
  apply (list_tasks_keeps_insertion_order_of_ties tied_tasks 20
           (sample_clock 7)).
  vm_compute. discriminate.
Defined.

Lemma letter_ticker_is_submitted_in_lower_case_witness :
  exists r,
    handle_analysis (fun _ => FULL) new_service healthy
      "20260119_103000_000001"
      [("code", ["AAPL"]); ("report_type", ["full"])]
    = (Returns (JsonResponse (BodySubmitted r) OK),
       executor_submit new_service
         (Py.lower "AAPL" +++ "_" +++ "20260119_103000_000001")
         (events (_run_analysis healthy (Py.lower "AAPL")
                    (Py.lower "AAPL" +++ "_" +++ "20260119_103000_000001")
                    FULL false)))
    /\ r_code r = Some (Py.lower "AAPL").
Proof.
  apply (letter_ticker_is_submitted_in_lower_case (fun _ => FULL) new_service
           healthy "20260119_103000_000001"
           [("code", ["AAPL"]); ("report_type", ["full"])]
           "AAPL" [] "full" []).
  - reflexivity.
  - reflexivity.
  - reflexivity.
  - simpl. lia.
Defined.



Lemma handle_market_review_only_enqueues_witness :
  let answer := handle_market_review new_service empty_review
                  "20260119_103000_000002" in
  let tid := "market_review_" +++ "20260119_103000_000002" in
  let tr := run_schedule [0; 0]%nat (snd answer) in
  (exists r, fst answer = JsonResponse (BodySubmitted r) OK
             /\ r_task_id r = tid)
  /\ _tasks (snd answer) = _tasks new_service
  /\ get_task_status (_tasks (snd answer)) tid = None
  /\ exists job,
       executor (snd answer)
       = executor new_service ++ [{| th_id := tid; th_todo := job |}]
       /\ forall s2,
            In s2 tr ->
            In {| th_id := tid; th_todo := job |} (executor s2) ->
            get_task_status (_tasks s2) tid = None.
Proof.
  intros answer tid tr.
  apply (handle_market_review_only_enqueues new_service empty_review
           "20260119_103000_000002" tr).
  - exact new_service_reachable.
  - apply run_schedule_execution.
  - vm_compute. constructor; [simpl; tauto | constructor].
Defined.

Lemma polling_a_job_witness :
  let tid := "600519_20260119_103000_000001" in
  let job := events (_run_analysis healthy "600519" tid SIMPLE false) in
  (get_task_status (_tasks busy_service) tid = None ->
   http_status (handle_task_status busy_service [("id", [tid])]) = NOT_FOUND)
  /\ exists tasks' task,
       run_events tid job (_tasks busy_service) = Some tasks'
       /\ handle_task_status
            {| _max_workers := _max_workers busy_service; _tasks := tasks';
               executor := executor busy_service |} [("id", [tid])]
          = JsonResponse (BodyTask task) OK
       /\ finished_record task.
Proof.
  intros tid job.
  apply (polling_a_job tid job busy_service).
  - apply sample_analysis_is_a_job.
  - reflexivity.
  - discriminate.
Defined.

(** ** The theorems on the configuration at sample inputs *)



Lemma saved_settings_are_read_back_witness :
  exists fs',
    update_env_values sample_files
      [("SCHEDULE_ENABLED", "false"); ("SCHEDULE_TIME", "09:30")]
    = (Returns tt, fs')
    /\ forall keys k default,
         unique_keys (map fst keys) = true -> In (k, default) keys ->
         dict_get k (get_env_values fs' keys)
         = match dict_get k [("SCHEDULE_ENABLED", "false");
                             ("SCHEDULE_TIME", "09:30")] with
           | Some v => Some v
           | None => dict_get k (get_env_values sample_files keys)
           end.
Proof.
  apply (saved_settings_are_read_back sample_files
           [("SCHEDULE_ENABLED", "false"); ("SCHEDULE_TIME", "09:30")]);
    reflexivity.
Defined.

Lemma time_without_backslash_is_rejected_witness :
  handle_common_update (Some "127.0.0.1") sample_files
    [("SCHEDULE_ENABLED", ["on"]); ("SCHEDULE_TIME", [" 09:30 "])]
  = (Returns {| page := ConfigPage "600519,000001" ".env"
                          (Some ("保存失败：" +++
                                 "SCHEDULE_TIME 格式需为 HH:MM（24 小时制）"))
                          [("SCHEDULE_ENABLED", "true");
                           ("SCHEDULE_TIME", "18:00");
                           ("MARKET_REVIEW_ENABLED", "true")];
                page_status := BAD_REQUEST |}, sample_files).
Proof.
  apply (time_without_backslash_is_rejected (Some "127.0.0.1") sample_files
           [("SCHEDULE_ENABLED", ["on"]); ("SCHEDULE_TIME", [" 09:30 "])]
           "09:30"); reflexivity.
Defined.

Lemma other_machines_are_refused_witness :
  let client_ip := Some "192.168.1.20" in
  let form_data := [("env_text", ["STOCK_LIST="])] in
  (exists message,
     handle_env_editor client_ip sample_files
     = {| page := ErrorPage 403 "禁止访问" message;
          page_status := FORBIDDEN |})
  /\ (exists message,
        handle_env_update client_ip sample_files "20260119_103000" form_data
        = (Returns {| page := ErrorPage 403 "禁止访问" message;
                      page_status := FORBIDDEN |}, sample_files))
  /\ (exists message,
        handle_common_update client_ip sample_files form_data
        = (Returns {| page := ErrorPage 403 "禁止访问" message;
                      page_status := FORBIDDEN |}, sample_files)).
Proof.
  intros client_ip form_data.
  apply (other_machines_are_refused client_ip sample_files "20260119_103000"
           form_data); discriminate.
Defined.

